(** * llm-jury: escalation gate, debate engine and judge strategies

    A shallow embedding of the Python package [llm_jury] and the properties
    its specification states about it.

    Conventions of the embedding.
    - Python [float] values (confidences, costs) are idealised as the
      rationals [Q]: comparisons are exact, arithmetic does not round, and
      non-finite values are outside the model.
    - Python [str] is [string], one [ascii] per character.
    - A Python [dict] whose iteration order is observable ([Counter],
      [defaultdict]) is an association list in insertion order.
    - A raised exception is the [Raise] outcome of the [Res] type. *)

From Stdlib Require Import String Ascii List ZArith QArith Qround Lia Lqa Bool.
Import ListNotations.

Local Open Scope string_scope.
Local Open Scope Q_scope.

(** ** Outcomes of fallible code *)

Inductive PyExn : Type :=
| ValueError
| TypeError
| IndexError.

Inductive Res (A : Type) : Type :=
| Ok (a : A)
| Raise (e : PyExn).

Arguments Ok {A} a.
Arguments Raise {A} e.

Definition res_bind {A B : Type} (r : Res A) (k : A -> Res B) : Res B :=
  match r with
  | Ok a => k a
  | Raise e => Raise e
  end.

(** ** Python built-ins used by the package *)

(** [a < b] on floats. *)
Definition Qltb (a b : Q) : bool := negb (Qle_bool b a).

(** [max(a, b)]: the second argument wins only when strictly greater. *)
Definition py_max2 (a b : Q) : Q := if Qltb a b then b else a.

(** [min(a, b)]: the second argument wins only when strictly smaller. *)
Definition py_min2 (a b : Q) : Q := if Qltb b a then b else a.

(** [x or 1.0] / [x or 0.0] on a float: a zero is falsy. *)
Definition float_or (x dflt : Q) : Q := if Qeq_bool x 0 then dflt else x.

(** [x or 0.0] on [float | None]. *)
Definition opt_float_or (x : option Q) (dflt : Q) : Q :=
  match x with
  | Some c => float_or c dflt
  | None => dflt
  end.

(** [int(x)] on a float: truncation towards zero. *)
Definition py_int (x : Q) : Z := Z.quot (Qnum x) (Zpos (Qden x)).

(** [sum(values)]: left to right, starting from [0]. *)
Definition py_sum (xs : list Q) : Q := fold_left Qplus xs 0.

(** [max(iterable, key=key)] on a non-empty iterable [x :: xs]: the first
    element whose key is maximal (a later one replaces the current best
    only when its key is strictly greater). *)
Definition py_max_key {A K : Type} (gtb : K -> K -> bool) (key : A -> K)
    (x : A) (xs : list A) : A :=
  fold_left (fun best y => if gtb (key y) (key best) then y else best) xs x.

(** [len(xs)] as a float operand. *)
Definition Qlen {A : Type} (xs : list A) : Q := inject_Z (Z.of_nat (length xs)).

(** [xs[-1]] with a default for the empty list. *)
Definition last_or {A : Type} (xs : list A) (d : A) : A := last xs d.

(** [not xs] on a list. *)
Definition is_empty {A : Type} (xs : list A) : bool :=
  match xs with
  | [] => true
  | _ :: _ => false
  end.

(** Values produced by [json.loads]. *)
#[warnings="-register-all"]
Inductive JSON : Type :=
| JNull
| JBool (b : bool)
| JNum (q : Q)
| JStr (s : string)
| JArr (items : list JSON)
| JObj (fields : list (string * JSON)).

(** ** Ordered dictionaries *)

Module Dict.

(** An insertion-ordered dictionary with [string] keys. *)
Definition t (V : Type) : Type := list (string * V).

Definition keys {V : Type} (d : t V) : list string := map fst d.

Definition values {V : Type} (d : t V) : list V := map snd d.

Fixpoint get {V : Type} (d : t V) (k : string) : option V :=
  match d with
  | [] => None
  | (k', v) :: d' => if String.eqb k k' then Some v else get d' k
  end.

(** [d.get(k, dflt)]. *)
Definition get_or {V : Type} (d : t V) (k : string) (dflt : V) : V :=
  match get d k with
  | Some v => v
  | None => dflt
  end.

(** [d[k] = f(d[k])] on a [defaultdict] whose factory yields [dflt]: an
    existing key is updated in place, a new key is appended. *)
Fixpoint update {V : Type} (f : V -> V) (dflt : V) (k : string) (d : t V) : t V :=
  match d with
  | [] => [(k, f dflt)]
  | (k', v) :: d' =>
      if String.eqb k k' then (k', f v) :: d'
      else (k', v) :: update f dflt k d'
  end.

End Dict.

(** [Counter(iterable)]: every element increments its count, new elements
    are appended in first-encounter order. *)
Definition Counter (xs : list string) : Dict.t nat :=
  fold_left (fun c x => Dict.update S O x c) xs [].

(** ** Data model *)

Module ClassificationResult.
Record t : Type := mk {
  label : string;
  confidence : Q;
  raw_output : option JSON;
  cost_usd : option Q
}.
End ClassificationResult.

Module Persona.
Record t : Type := mk {
  name : string;
  role : string;
  system_prompt : string;
  model : string;
  temperature : Q;
  known_bias : option string
}.
End Persona.

Module PersonaResponse.
Record t : Type := mk {
  persona_name : string;
  label : string;
  confidence : Q;
  reasoning : string;
  key_factors : list string;
  dissent_notes : option string;
  raw_response : option string;
  tokens_used : Z;
  cost_usd : option Q
}.
End PersonaResponse.

Module DebateTranscript.
Record t : Type := mk {
  input_text : string;
  primary_result : ClassificationResult.t;
  rounds : list (list PersonaResponse.t);
  duration_ms : Z;
  total_tokens : Z;
  total_cost_usd : option Q;
  summary : option string
}.

(** [transcript.rounds[-1]], the empty round when there is none. *)
Definition final_round (tr : t) : list PersonaResponse.t :=
  last_or (rounds tr) [].

(** [not transcript.rounds or not transcript.rounds[-1]]. *)
Definition no_responses (tr : t) : bool :=
  is_empty (rounds tr) || is_empty (final_round tr).
End DebateTranscript.

Module Verdict.
Record t : Type := mk {
  label : string;
  confidence : Q;
  reasoning : string;
  was_escalated : bool;
  primary_result : ClassificationResult.t;
  debate_transcript : option DebateTranscript.t;
  judge_strategy : string;
  total_duration_ms : Z;
  total_cost_usd : option Q
}.
End Verdict.

(** ** Judge strategies *)

(** [judges/base.py: _fallback_verdict]. *)
Definition _fallback_verdict (transcript : DebateTranscript.t)
    (strategy_name : string) : Verdict.t :=
  let pr := DebateTranscript.primary_result transcript in
  {| Verdict.label := ClassificationResult.label pr;
     Verdict.confidence := ClassificationResult.confidence pr;
     Verdict.reasoning := "No persona responses; returning primary classifier result.";
     Verdict.was_escalated := true;
     Verdict.primary_result := pr;
     Verdict.debate_transcript := Some transcript;
     Verdict.judge_strategy := strategy_name;
     Verdict.total_duration_ms := DebateTranscript.duration_ms transcript;
     Verdict.total_cost_usd := DebateTranscript.total_cost_usd transcript |}.

Module MajorityVoteJudge.

(** [counts.most_common(1)[0]]: [heapq.nlargest(1, items, key=count)] is
    [max] over the items in insertion order; indexing an empty result
    raises [IndexError]. *)
Definition most_common_1 (counts : Dict.t nat) : Res (string * nat) :=
  match counts with
  | [] => Raise IndexError
  | item :: items =>
      Ok (py_max_key (fun a b => Nat.ltb b a) snd item items)
  end.

Definition judge (transcript : DebateTranscript.t) (labels : list string)
    : Res Verdict.t :=
  if DebateTranscript.no_responses transcript then
    Ok (_fallback_verdict transcript "majority_vote")
  else
    let final_round := DebateTranscript.final_round transcript in
    let counts := Counter (map PersonaResponse.label final_round) in
    res_bind (most_common_1 counts) (fun '(winner, winner_count) =>
      let confidence := inject_Z (Z.of_nat winner_count) / Qlen final_round in
      let reasons :=
        map PersonaResponse.reasoning
            (filter (fun response => String.eqb (PersonaResponse.label response) winner)
                    final_round) in
      Ok {| Verdict.label := winner;
            Verdict.confidence := confidence;
            Verdict.reasoning :=
              (if is_empty reasons then "Majority vote selected the winner."
               else String.concat " " reasons);
            Verdict.was_escalated := true;
            Verdict.primary_result := DebateTranscript.primary_result transcript;
            Verdict.debate_transcript := Some transcript;
            Verdict.judge_strategy := "majority_vote";
            Verdict.total_duration_ms := DebateTranscript.duration_ms transcript;
            Verdict.total_cost_usd := DebateTranscript.total_cost_usd transcript |}).

End MajorityVoteJudge.

Module WeightedVoteJudge.

(** The loop [scores[response.label] += float(response.confidence)] over
    a [defaultdict(float)]. *)
Definition tally (final_round : list PersonaResponse.t) : Dict.t Q :=
  fold_left
    (fun scores response =>
       Dict.update (fun s => s + PersonaResponse.confidence response) 0
                   (PersonaResponse.label response) scores)
    final_round [].

(** [max(scores, key=lambda k: scores[k])]. *)
Definition argmax (scores : Dict.t Q) : Res string :=
  match scores with
  | [] => Raise ValueError
  | item :: items => Ok (fst (py_max_key (fun a b => Qltb b a) snd item items))
  end.

Definition judge (transcript : DebateTranscript.t) (labels : list string)
    : Res Verdict.t :=
  if DebateTranscript.no_responses transcript then
    Ok (_fallback_verdict transcript "weighted_vote")
  else
    let final_round := DebateTranscript.final_round transcript in
    let scores := tally final_round in
    res_bind (argmax scores) (fun winner =>
      let total := float_or (py_sum (Dict.values scores)) 1 in
      let confidence := Dict.get_or scores winner 0 / total in
      Ok {| Verdict.label := winner;
            Verdict.confidence := confidence;
            Verdict.reasoning := "Weighted vote based on persona confidence scores.";
            Verdict.was_escalated := true;
            Verdict.primary_result := DebateTranscript.primary_result transcript;
            Verdict.debate_transcript := Some transcript;
            Verdict.judge_strategy := "weighted_vote";
            Verdict.total_duration_ms := DebateTranscript.duration_ms transcript;
            Verdict.total_cost_usd := DebateTranscript.total_cost_usd transcript |}).

End WeightedVoteJudge.

Module BayesianJudge.

(** [persona_priors: dict[str, dict[str, float]]], [{}] when not supplied. *)
Definition Priors : Type := Dict.t (Dict.t Q).

(** [self.persona_priors.get(response.persona_name, {})
      .get(label, 1.0 / max(1, len(labels)))]. *)
Definition prior (persona_priors : Priors) (labels : list string)
    (response : PersonaResponse.t) (label : string) : Q :=
  Dict.get_or
    (Dict.get_or persona_priors (PersonaResponse.persona_name response) [])
    label
    (1 / inject_Z (Z.max 1 (Z.of_nat (length labels)))).

(** [response.confidence if response.label == label
     else (1.0 - response.confidence)]. *)
Definition likelihood (response : PersonaResponse.t) (label : string) : Q :=
  if String.eqb (PersonaResponse.label response) label
  then PersonaResponse.confidence response
  else 1 - PersonaResponse.confidence response.

(** [max(1e-6, prior * likelihood)]. *)
Definition factor (persona_priors : Priors) (labels : list string)
    (response : PersonaResponse.t) (label : string) : Q :=
  py_max2 (1 # 1000000)
          (prior persona_priors labels response label * likelihood response label).

(** The nested loop over the responses of the final round and the labels,
    on [posterior = defaultdict(lambda: 1.0)]. *)
Definition accumulate (persona_priors : Priors) (labels : list string)
    (final_round : list PersonaResponse.t) : Dict.t Q :=
  fold_left
    (fun posterior response =>
       fold_left
         (fun posterior label =>
            Dict.update (fun p => p * factor persona_priors labels response label)
                        1 label posterior)
         labels posterior)
    final_round [].

(** [total = sum(posterior.values()) or 1.0] followed by
    [posterior[label] /= total] for every key. *)
Definition normalise (posterior : Dict.t Q) : Dict.t Q :=
  let total := float_or (py_sum (Dict.values posterior)) 1 in
  map (fun '(label, p) => (label, p / total)) posterior.

(** [max(posterior, key=lambda k: posterior[k])]. *)
Definition argmax (posterior : Dict.t Q) : Res string :=
  match posterior with
  | [] => Raise ValueError
  | item :: items => Ok (fst (py_max_key (fun a b => Qltb b a) snd item items))
  end.

Definition judge (persona_priors : Priors) (transcript : DebateTranscript.t)
    (labels : list string) : Res Verdict.t :=
  if DebateTranscript.no_responses transcript then
    Ok (_fallback_verdict transcript "bayesian")
  else
    let posterior :=
      normalise (accumulate persona_priors labels
                            (DebateTranscript.final_round transcript)) in
    res_bind (argmax posterior) (fun winner =>
      Ok {| Verdict.label := winner;
            Verdict.confidence := Dict.get_or posterior winner 1;
            Verdict.reasoning := "Bayesian aggregation across persona responses.";
            Verdict.was_escalated := true;
            Verdict.primary_result := DebateTranscript.primary_result transcript;
            Verdict.debate_transcript := Some transcript;
            Verdict.judge_strategy := "bayesian";
            Verdict.total_duration_ms := DebateTranscript.duration_ms transcript;
            Verdict.total_cost_usd := DebateTranscript.total_cost_usd transcript |}).

End BayesianJudge.

(** The Bayesian aggregation as the specification words it: every label
    starts from its prior and each response multiplies the running posterior
    by its likelihood. The lower bound is read in the two ways the sentence
    allows: on the running posterior after each multiplication ([running]),
    or on each likelihood before it is multiplied in ([running_factor]). Used
    only to compare the specification's reading with [BayesianJudge]. *)
Module BayesianAsWorded.

Definition running (start : Q) (final_round : list PersonaResponse.t)
    (label : string) : Q :=
  fold_left
    (fun p response =>
       py_max2 (1 # 1000000) (p * BayesianJudge.likelihood response label))
    final_round start.

Definition running_factor (start : Q) (final_round : list PersonaResponse.t)
    (label : string) : Q :=
  fold_left
    (fun p response =>
       p * py_max2 (1 # 1000000) (BayesianJudge.likelihood response label))
    final_round start.

Definition posterior (run : Q -> list PersonaResponse.t -> string -> Q)
    (labels : list string) (final_round : list PersonaResponse.t) : Dict.t Q :=
  BayesianJudge.normalise
    (map (fun label =>
            (label,
             run (1 / inject_Z (Z.max 1 (Z.of_nat (length labels))))
                 final_round label))
         labels).

Definition confidence (run : Q -> list PersonaResponse.t -> string -> Q)
    (labels : list string) (final_round : list PersonaResponse.t) : Res Q :=
  res_bind (BayesianJudge.argmax (posterior run labels final_round))
           (fun winner => Ok (Dict.get_or (posterior run labels final_round) winner 1)).

End BayesianAsWorded.

(** ** Text helpers ([utils.py]) *)

(** [str.isspace] on one character (code points up to 255). *)
Definition is_space (c : ascii) : bool :=
  let n := nat_of_ascii c in
  ((9 <=? n) && (n <=? 13) || (28 <=? n) && (n <=? 32) || (n =? 133) || (n =? 160))%nat.

(** The line boundaries of [str.splitlines] (code points up to 255). *)
Definition is_linebreak (c : ascii) : bool :=
  let n := nat_of_ascii c in
  ((10 <=? n) && (n <=? 13) || (28 <=? n) && (n <=? 30) || (n =? 133))%nat.

Fixpoint lstrip (s : string) : string :=
  match s with
  | EmptyString => EmptyString
  | String c s' => if is_space c then lstrip s' else s
  end.

Fixpoint rstrip (s : string) : string :=
  match s with
  | EmptyString => EmptyString
  | String c s' =>
      match rstrip s' with
      | EmptyString => if is_space c then EmptyString else String c EmptyString
      | r => String c r
      end
  end.

(** [s.strip()]. *)
Definition strip (s : string) : string := rstrip (lstrip s).

(** [s.startswith(p)]. *)
Definition startswith (s p : string) : bool := String.prefix p s.

(** [s.splitlines()]: a carriage return followed by a line feed is one
    boundary, and a final boundary opens no further line. *)
Fixpoint splitlines (s : string) : list string :=
  match s with
  | EmptyString => []
  | String c s' =>
      if is_linebreak c then
        match s' with
        | String c' s'' =>
            if ((nat_of_ascii c =? 13) && (nat_of_ascii c' =? 10))%nat
            then EmptyString :: splitlines s''
            else EmptyString :: splitlines s'
        | EmptyString => [EmptyString]
        end
      else
        match splitlines s' with
        | [] => [String c EmptyString]
        | line :: lines => String c line :: lines
        end
  end.

Definition newline : string := String (ascii_of_nat 10) EmptyString.

(** [utils.py: strip_markdown_fences]. *)
Definition strip_markdown_fences (content : string) : string :=
  let text := strip content in
  if startswith text "```" then
    let lines :=
      filter (fun line => negb (startswith (strip line) "```")) (splitlines text) in
    strip (String.concat newline lines)
  else text.

(** [utils.py: clamp_confidence] on a value already converted by [float]. *)
Definition clamp (x : Q) : Q := py_max2 0 (py_min2 1 x).

(** The interpreter and standard-library services the package relies on:
    [json.loads] ([None] when it raises), [float] on a string and the
    textual form of a number, list or dict. *)
Class Runtime : Type := {
  json_loads : string -> option JSON;
  float_of_str : string -> Res Q;
  py_repr : JSON -> string
}.

Section WithRuntime.

Context {RT : Runtime}.

(** [utils.py: safe_json_parse]: [None] unless a [dict] was decoded. *)
Definition safe_json_parse (content : string) : option (Dict.t JSON) :=
  match json_loads content with
  | Some (JObj fields) => Some fields
  | _ => None
  end.

(** [float(value)]. *)
Definition py_float (value : JSON) : Res Q :=
  match value with
  | JNum q => Ok q
  | JBool b => Ok (if b then 1 else 0)
  | JStr s => float_of_str s
  | JNull | JArr _ | JObj _ => Raise TypeError
  end.

(** [str(value)]. *)
Definition py_str (value : JSON) : string :=
  match value with
  | JStr s => s
  | JNull => "None"
  | JBool b => if b then "True" else "False"
  | JNum _ | JArr _ | JObj _ => py_repr value
  end.

(** [utils.py: clamp_confidence]. *)
Definition clamp_confidence (value : JSON) : Res Q :=
  res_bind (py_float value) (fun x => Ok (clamp x)).

(** [[str(item) for item in value]]. *)
Definition str_items (value : JSON) : Res (list string) :=
  match value with
  | JArr items => Ok (map py_str items)
  | JObj fields => Ok (Dict.keys fields)
  | JStr s => Ok (map (fun c => String c EmptyString) (list_ascii_of_string s))
  | JNull | JBool _ | JNum _ => Raise TypeError
  end.

(** [debate/engine.py: DebateEngine._parse_persona_response]. *)
Definition _parse_persona_response (raw persona_name : string)
    (labels : option (list string)) : Res PersonaResponse.t :=
  match safe_json_parse (strip_markdown_fences raw) with
  | None =>
      let fallback_label :=
        match labels with
        | Some (first :: _) => first
        | _ => "unknown"
        end in
      Ok {| PersonaResponse.persona_name := persona_name;
            PersonaResponse.label := fallback_label;
            PersonaResponse.confidence := 0;
            PersonaResponse.reasoning :=
              "Failed to parse persona response as JSON: " ++ substring 0 200 raw;
            PersonaResponse.key_factors := [];
            PersonaResponse.dissent_notes := None;
            PersonaResponse.raw_response := None;
            PersonaResponse.tokens_used := 0;
            PersonaResponse.cost_usd := None |}
  | Some payload =>
      let label := py_str (Dict.get_or payload "label" (JStr "unknown")) in
      res_bind (clamp_confidence (Dict.get_or payload "confidence" (JNum 0)))
        (fun confidence =>
      let reasoning := py_str (Dict.get_or payload "reasoning" (JStr EmptyString)) in
      res_bind (str_items (Dict.get_or payload "key_factors" (JArr [])))
        (fun key_factors =>
      Ok {| PersonaResponse.persona_name := persona_name;
            PersonaResponse.label := label;
            PersonaResponse.confidence := confidence;
            PersonaResponse.reasoning := reasoning;
            PersonaResponse.key_factors := key_factors;
            PersonaResponse.dissent_notes :=
              option_map py_str (Dict.get payload "dissent_notes");
            PersonaResponse.raw_response := None;
            PersonaResponse.tokens_used := 0;
            PersonaResponse.cost_usd := Some 0 |}))
  end.

End WithRuntime.

(** ** The outside world

    The completion service, the primary classifier and the clock live
    outside the package. Their state is an abstract type [St]; code that
    talks to them is a state transformer that may raise. *)

Class World : Type := {
  St : Type;
  (** [time.perf_counter()], in seconds. *)
  perf_counter : St -> Q
}.

Definition M (S A : Type) : Type := S -> Res A * S.

Definition ret {S A : Type} (a : A) : M S A := fun s => (Ok a, s).

Definition bind {S A B : Type} (m : M S A) (k : A -> M S B) : M S B :=
  fun s =>
    match m s with
    | (Ok a, s') => k a s'
    | (Raise e, s') => (Raise e, s')
    end.

Definition lift {S A : Type} (r : Res A) : M S A := fun s => (r, s).

Definition get_state {S : Type} : M S S := fun s => (Ok s, s).

Definition modify {S : Type} (f : S -> S) : M S unit := fun s => (Ok tt, f s).

Declare Scope monad_scope.
Delimit Scope monad_scope with monad.
Notation "x <- m ;; k" := (bind m (fun x => k))
  (at level 61, m at next level, right associativity) : monad_scope.
Notation "' pat <- m ;; k" := (bind m (fun x => match x with pat => k end))
  (at level 61, pat pattern, m at next level, right associativity) : monad_scope.
Notation "m ;;; k" := (bind m (fun _ => k))
  (at level 61, right associativity) : monad_scope.

(** [[await f(x) for x in xs]], left to right. *)
Fixpoint mapM {S A B : Type} (f : A -> M S B) (xs : list A) : M S (list B) :=
  match xs with
  | [] => ret []
  | x :: xs' => (y <- f x ;; ys <- mapM f xs' ;; ret (y :: ys))%monad
  end.

Definition now {W : World} : M St Q := fun s => (Ok (perf_counter s), s).

(** [int((time.perf_counter() - start) * 1000)]. *)
Definition elapsed_ms {W : World} (start : Q) : M St Z :=
  (t <- now ;; ret (py_int ((t - start) * 1000)))%monad.

(** What a persona, deliberation or summary prompt is composed from. The
    prompt text is a function of these data and of the engine's fixed
    configuration, so the completion service is given the data. *)
Inductive Prompt : Type :=
| PersonaPrompt (persona : Persona.t) (text : string)
    (primary : ClassificationResult.t) (labels : list string)
    (prior_rounds : list (list PersonaResponse.t))
| DeliberationPrompt (persona : Persona.t) (text : string)
    (primary : ClassificationResult.t) (labels : list string)
    (prior_rounds : list (list PersonaResponse.t))
| SummaryPrompt (text : string) (labels : list string)
    (rounds : list (list PersonaResponse.t)).

(** The reply of the completion service:
    [{content, tokens, cost_usd}]. *)
Module Payload.
Record t : Type := mk {
  content : string;
  tokens : Z;
  cost_usd : option Q
}.
End Payload.

(** [llm/client.py: LLMClient]:
    [complete(model, system_prompt, prompt, temperature)]. *)
Record LLMClient {W : World} : Type := {
  complete : string -> string -> Prompt -> option Q -> M St Payload.t
}.

(** ** Debate engine ([debate/engine.py]) *)

Inductive DebateMode : Type :=
| INDEPENDENT
| SEQUENTIAL
| DELIBERATION
| ADVERSARIAL.

Module DebateConfig.
Record t : Type := mk {
  mode : DebateMode;
  max_rounds : Z;
  include_primary_result : bool;
  include_confidence : bool
}.

(** [DebateConfig()]. *)
Definition default : t := mk DELIBERATION 2 true true.
End DebateConfig.

(** [max_cost_usd is not None and total_cost > max_cost_usd]. *)
Definition over_budget (max_cost_usd : option Q) (total_cost : Q) : bool :=
  match max_cost_usd with
  | Some limit => Qltb limit total_cost
  | None => false
  end.

(** The accumulation
    [total_tokens += response.tokens_used;
     total_cost += float(response.cost_usd or 0.0)] over a round. *)
Definition add_usage (responses : list PersonaResponse.t) (totals : Z * Q) : Z * Q :=
  fold_left
    (fun '(total_tokens, total_cost) response =>
       ((total_tokens + PersonaResponse.tokens_used response)%Z,
        total_cost + opt_float_or (PersonaResponse.cost_usd response) 0))
    responses totals.

(** [DebateEngine._consensus_reached]:
    [bool(labels) and len(set(labels)) == 1]. *)
Definition _consensus_reached (round_responses : list PersonaResponse.t) : bool :=
  let labels := map PersonaResponse.label round_responses in
  negb (is_empty labels) && (length (nodup string_dec labels) =? 1)%nat.

Definition _SUMMARISATION_PROMPT : string :=
  "You are a neutral summarisation agent. You have observed a structured debate "
  ++ "among domain experts about classifying a piece of text." ++ newline ++ newline
  ++ "Produce a concise synthesis that covers:" ++ newline
  ++ "1. The main arguments from each side" ++ newline
  ++ "2. Points of consensus among the experts" ++ newline
  ++ "3. Unresolved disagreements" ++ newline ++ newline
  ++ "Be factual and impartial. Do not add your own classification.".

Module DebateEngine.
Section WithWorld.

Context {RT : Runtime} {W : World}.

(** The model identifier of [llm_jury/_defaults.py], which is not part of
    the sources at hand. *)
Variable DEFAULT_MODEL : string.

Record t : Type := mk {
  personas : list Persona.t;
  config : DebateConfig.t;
  llm_client : LLMClient;
  concurrency : Z
}.

Variable self : t.

Definition _call_persona (persona : Persona.t) (prompt : Prompt)
    (labels : list string) : M St PersonaResponse.t :=
  (payload <- complete (llm_client self) (Persona.model persona)
                       (Persona.system_prompt persona) prompt
                       (Some (Persona.temperature persona)) ;;
   let raw_content := Payload.content payload in
   response <- lift (_parse_persona_response raw_content (Persona.name persona)
                                             (Some labels)) ;;
   ret {| PersonaResponse.persona_name := PersonaResponse.persona_name response;
          PersonaResponse.label := PersonaResponse.label response;
          PersonaResponse.confidence := PersonaResponse.confidence response;
          PersonaResponse.reasoning := PersonaResponse.reasoning response;
          PersonaResponse.key_factors := PersonaResponse.key_factors response;
          PersonaResponse.dissent_notes := PersonaResponse.dissent_notes response;
          PersonaResponse.raw_response := Some raw_content;
          PersonaResponse.tokens_used := Payload.tokens payload;
          PersonaResponse.cost_usd :=
            Some (opt_float_or (Payload.cost_usd payload) 0) |})%monad.

Definition _query_persona (persona : Persona.t) (text : string)
    (primary_result : ClassificationResult.t) (labels : list string)
    (prior_rounds : list (list PersonaResponse.t)) : M St PersonaResponse.t :=
  _call_persona persona
    (PersonaPrompt persona text primary_result labels prior_rounds) labels.

Definition _query_persona_deliberation (persona : Persona.t) (text : string)
    (primary_result : ClassificationResult.t) (labels : list string)
    (prior_rounds : list (list PersonaResponse.t)) : M St PersonaResponse.t :=
  _call_persona persona
    (DeliberationPrompt persona text primary_result labels prior_rounds) labels.

(** [asyncio.gather] returns the responses in persona order; the service is
    consulted in that order. *)
Definition _run_round (text : string) (primary_result : ClassificationResult.t)
    (labels : list string) (prior_rounds : list (list PersonaResponse.t))
    : M St (list PersonaResponse.t) :=
  mapM (fun persona => _query_persona persona text primary_result labels prior_rounds)
       (personas self).

Definition _run_deliberation_round (text : string)
    (primary_result : ClassificationResult.t) (labels : list string)
    (prior_rounds : list (list PersonaResponse.t)) : M St (list PersonaResponse.t) :=
  mapM (fun persona =>
          _query_persona_deliberation persona text primary_result labels prior_rounds)
       (personas self).

Definition _summarise (text : string) (labels : list string)
    (rounds : list (list PersonaResponse.t)) : M St (string * Z * Q) :=
  (payload <- complete (llm_client self)
                       (match personas self with
                        | first :: _ => Persona.model first
                        | [] => DEFAULT_MODEL
                        end)
                       _SUMMARISATION_PROMPT
                       (SummaryPrompt text labels rounds) None ;;
   ret (Payload.content payload, Payload.tokens payload,
        opt_float_or (Payload.cost_usd payload) 0))%monad.

(** The body of the [SEQUENTIAL] loop over the personas still to be asked;
    [responses] are those collected so far. *)
Fixpoint sequential_loop (todo : list Persona.t) (text : string)
    (primary_result : ClassificationResult.t) (labels : list string)
    (max_cost_usd : option Q) (responses : list PersonaResponse.t)
    (totals : Z * Q) : M St (list PersonaResponse.t * (Z * Q)) :=
  match todo with
  | [] => ret (responses, totals)
  | persona :: todo' =>
      (response <- _query_persona persona text primary_result labels
                     (if is_empty responses then [] else [responses]) ;;
       let responses := (responses ++ [response])%list in
       let totals := add_usage [response] totals in
       if over_budget max_cost_usd (snd totals) then ret (responses, totals)
       else sequential_loop todo' text primary_result labels max_cost_usd
                            responses totals)%monad
  end.

(** Stage 2 of [DELIBERATION]: the loop
    [for _ in range(1, max(1, self.config.max_rounds))] with [n] iterations
    left. *)
Fixpoint deliberation_loop (n : nat) (text : string)
    (primary_result : ClassificationResult.t) (labels : list string)
    (max_cost_usd : option Q) (rounds : list (list PersonaResponse.t))
    (totals : Z * Q) : M St (list (list PersonaResponse.t) * (Z * Q)) :=
  match n with
  | O => ret (rounds, totals)
  | S n' =>
      (current <- _run_deliberation_round text primary_result labels rounds ;;
       let rounds := (rounds ++ [current])%list in
       let totals := add_usage current totals in
       if over_budget max_cost_usd (snd totals) then ret (rounds, totals)
       else if _consensus_reached current then ret (rounds, totals)
       else deliberation_loop n' text primary_result labels max_cost_usd
                              rounds totals)%monad
  end.

(** The number of iterations of [range(1, max(1, max_rounds))]. *)
Definition extra_rounds (max_rounds : Z) : nat :=
  Z.to_nat (Z.max 1 max_rounds - 1).

Definition debate (text : string) (primary_result : ClassificationResult.t)
    (labels : list string) (max_cost_usd : option Q) : M St DebateTranscript.t :=
  (start <- now ;;
   if is_empty (personas self) then
     duration_ms <- elapsed_ms start ;;
     ret (DebateTranscript.mk text primary_result [] duration_ms 0 (Some 0) None)
   else
     match DebateConfig.mode (config self) with
     | INDEPENDENT | ADVERSARIAL =>
         responses <- _run_round text primary_result labels [] ;;
         let '(total_tokens, total_cost) := add_usage responses (0%Z, 0) in
         duration_ms <- elapsed_ms start ;;
         ret (DebateTranscript.mk text primary_result [responses] duration_ms
                                  total_tokens (Some total_cost) None)
     | SEQUENTIAL =>
         '(responses, (total_tokens, total_cost)) <-
           sequential_loop (personas self) text primary_result labels
                           max_cost_usd [] (0%Z, 0) ;;
         duration_ms <- elapsed_ms start ;;
         ret (DebateTranscript.mk text primary_result [responses] duration_ms
                                  total_tokens (Some total_cost) None)
     | DELIBERATION =>
         first_round <- _run_round text primary_result labels [] ;;
         let totals := add_usage first_round (0%Z, 0) in
         if over_budget max_cost_usd (snd totals) then
           duration_ms <- elapsed_ms start ;;
           ret (DebateTranscript.mk text primary_result [first_round] duration_ms
                                    (fst totals) (Some (snd totals)) None)
         else
           '(rounds, (total_tokens, total_cost)) <-
             deliberation_loop (extra_rounds (DebateConfig.max_rounds (config self)))
                               text primary_result labels max_cost_usd
                               [first_round] totals ;;
           if over_budget max_cost_usd total_cost then
             duration_ms <- elapsed_ms start ;;
             ret (DebateTranscript.mk text primary_result rounds duration_ms
                                      total_tokens (Some total_cost) None)
           else
             '(summary, s_tokens, s_cost) <- _summarise text labels rounds ;;
             duration_ms <- elapsed_ms start ;;
             ret (DebateTranscript.mk text primary_result rounds duration_ms
                                      (total_tokens + s_tokens)%Z
                                      (Some (total_cost + s_cost)) (Some summary))
     end)%monad.

End WithWorld.
End DebateEngine.

(** ** Jury ([jury/core.py]) *)

Module JuryStats.
Record t : Type := mk {
  total : Z;
  fast_path : Z;
  escalated : Z
}.

(** [JuryStats()]. *)
Definition zero : t := mk 0 0 0.
End JuryStats.

(** [classifiers/base.py: Classifier]. *)
Module Classifier.
Record t {W : World} : Type := mk {
  labels : list string;
  classify : string -> M St ClassificationResult.t
}.
End Classifier.

(** [judges/base.py: JudgeStrategy]. *)
Module JudgeStrategy.
Record t {W : World} : Type := mk {
  judge : DebateTranscript.t -> list string -> M St Verdict.t
}.

(** A strategy that consults nothing outside the transcript. *)
Definition pure {W : World}
    (f : DebateTranscript.t -> list string -> Res Verdict.t) : t :=
  mk _ (fun transcript labels => lift (f transcript labels)).
End JudgeStrategy.

(** Whatever object sits in [Jury.debate_engine]: it only has to offer
    [debate(text, primary_result, labels, max_cost_usd)]. *)
Module Debater.
Record t {W : World} : Type := mk {
  debate : string -> ClassificationResult.t -> list string -> option Q ->
           M St DebateTranscript.t
}.
End Debater.

(** The calls [Jury.classify] makes to its collaborators, recorded as ghost
    state so that properties can speak about which of them happened. *)
Inductive Call : Type :=
| CallClassifier (text : string)
| CallOnEscalation (text : string) (primary : ClassificationResult.t)
| CallDebate (text : string) (primary : ClassificationResult.t)
| CallJudge (transcript : DebateTranscript.t)
| CallOnVerdict (verdict : Verdict.t).

Module Jury.
Section WithWorld.

Context {RT : Runtime} {W : World}.

Record t : Type := mk {
  classifier : Classifier.t;
  personas : list Persona.t;
  threshold : Q;
  judge : JudgeStrategy.t;
  debate_config : DebateConfig.t;
  debate_engine : Debater.t;
  escalation_override : option (ClassificationResult.t -> bool);
  max_debate_cost_usd : option Q;
  on_escalation : option (string -> ClassificationResult.t -> M St unit);
  on_verdict : option (Verdict.t -> M St unit)
}.

(** [Jury.__init__] with an explicit judge: the debate engine is built from
    the personas, the configuration and the completion client, with
    [concurrency = max(1, debate_concurrency)]. *)
Definition init (DEFAULT_MODEL : string) (classifier : Classifier.t)
    (personas : list Persona.t) (confidence_threshold : Q)
    (judge : JudgeStrategy.t) (debate_config : DebateConfig.t)
    (escalation_override : option (ClassificationResult.t -> bool))
    (max_debate_cost_usd : option Q)
    (on_escalation : option (string -> ClassificationResult.t -> M St unit))
    (on_verdict : option (Verdict.t -> M St unit))
    (llm_client : LLMClient) (debate_concurrency : Z) : t :=
  mk classifier personas confidence_threshold judge debate_config
     (Debater.mk _
        (DebateEngine.debate DEFAULT_MODEL
           (DebateEngine.mk personas debate_config llm_client
                            (Z.max 1 debate_concurrency))))
     escalation_override max_debate_cost_usd on_escalation on_verdict.

(** The mutable part of a jury while it runs: its counters, the record of
    calls made so far, and the outside world. *)
Record State : Type := mkState {
  _stats : JuryStats.t;
  calls : list Call;
  world : St
}.

(** Run code that only touches the outside world. *)
Definition outside {A : Type} (m : M St A) : M State A :=
  fun s =>
    let '(r, w) := m (world s) in
    (r, mkState (_stats s) (calls s) w).

Definition record (c : Call) : M State unit :=
  modify (fun s => mkState (_stats s) (calls s ++ [c])%list (world s)).

Definition update_stats (f : JuryStats.t -> JuryStats.t) : M State unit :=
  modify (fun s => mkState (f (_stats s)) (calls s) (world s)).

Definition incr_total (st : JuryStats.t) : JuryStats.t :=
  JuryStats.mk (JuryStats.total st + 1) (JuryStats.fast_path st) (JuryStats.escalated st).

Definition incr_fast_path (st : JuryStats.t) : JuryStats.t :=
  JuryStats.mk (JuryStats.total st) (JuryStats.fast_path st + 1) (JuryStats.escalated st).

Definition incr_escalated (st : JuryStats.t) : JuryStats.t :=
  JuryStats.mk (JuryStats.total st) (JuryStats.fast_path st) (JuryStats.escalated st + 1).

Variable self : t.

(** [Jury._should_escalate]. *)
Definition _should_escalate (result : ClassificationResult.t) : bool :=
  match escalation_override self with
  | Some override => override result
  | None => Qltb (ClassificationResult.confidence result) (threshold self)
  end.

(** The fast-path verdict of lines 76-86. *)
Definition fast_path_verdict (primary : ClassificationResult.t)
    (duration_ms : Z) : Verdict.t :=
  {| Verdict.label := ClassificationResult.label primary;
     Verdict.confidence := ClassificationResult.confidence primary;
     Verdict.reasoning := "Classified by primary classifier with sufficient confidence.";
     Verdict.was_escalated := false;
     Verdict.primary_result := primary;
     Verdict.debate_transcript := None;
     Verdict.judge_strategy := "primary_classifier";
     Verdict.total_duration_ms := duration_ms;
     Verdict.total_cost_usd :=
       Some (opt_float_or (ClassificationResult.cost_usd primary) 0) |}.

(** The cost-guard verdict of lines 101-114. *)
Definition cost_guard_verdict (primary : ClassificationResult.t)
    (transcript : DebateTranscript.t) (duration_ms : Z) : Verdict.t :=
  {| Verdict.label := ClassificationResult.label primary;
     Verdict.confidence := ClassificationResult.confidence primary;
     Verdict.reasoning :=
       "Debate exceeded max_debate_cost_usd. Returning primary classifier result.";
     Verdict.was_escalated := true;
     Verdict.primary_result := primary;
     Verdict.debate_transcript := Some transcript;
     Verdict.judge_strategy := "cost_guard_primary_fallback";
     Verdict.total_duration_ms := duration_ms;
     Verdict.total_cost_usd := DebateTranscript.total_cost_usd transcript |}.

(** The fields the orchestrator overwrites on the judge's verdict
    (lines 117-123). *)
Definition adopt_verdict (verdict : Verdict.t) (primary : ClassificationResult.t)
    (transcript : DebateTranscript.t) (duration_ms : Z) : Verdict.t :=
  {| Verdict.label := Verdict.label verdict;
     Verdict.confidence := Verdict.confidence verdict;
     Verdict.reasoning := Verdict.reasoning verdict;
     Verdict.was_escalated := true;
     Verdict.primary_result := primary;
     Verdict.debate_transcript := Some transcript;
     Verdict.judge_strategy := Verdict.judge_strategy verdict;
     Verdict.total_duration_ms := duration_ms;
     Verdict.total_cost_usd :=
       match Verdict.total_cost_usd verdict with
       | Some c => Some c
       | None => DebateTranscript.total_cost_usd transcript
       end |}.

(** The test of lines 99-100. *)
Definition cost_guard_trips (transcript : DebateTranscript.t) : bool :=
  match max_debate_cost_usd self, DebateTranscript.total_cost_usd transcript with
  | Some limit, Some cost => Qltb limit cost
  | _, _ => false
  end.

(** Lines 116-128. *)
Definition judge_and_finish (start : Q) (primary : ClassificationResult.t)
    (transcript : DebateTranscript.t) : M State Verdict.t :=
  (record (CallJudge transcript) ;;;
   verdict <- outside (JudgeStrategy.judge (judge self) transcript
                         (Classifier.labels (classifier self))) ;;
   duration_ms <- outside (elapsed_ms start) ;;
   let verdict := adopt_verdict verdict primary transcript duration_ms in
   match on_verdict self with
   | Some callback =>
       record (CallOnVerdict verdict) ;;; outside (callback verdict) ;;; ret verdict
   | None => ret verdict
   end)%monad.

(** Lines 92-114, then [judge_and_finish]. *)
Definition debate_and_finish (text : string) (start : Q)
    (primary : ClassificationResult.t) : M State Verdict.t :=
  (record (CallDebate text primary) ;;;
   transcript <- outside (Debater.debate (debate_engine self) text primary
                            (Classifier.labels (classifier self))
                            (max_debate_cost_usd self)) ;;
   if cost_guard_trips transcript then
     duration_ms <- outside (elapsed_ms start) ;;
     ret (cost_guard_verdict primary transcript duration_ms)
   else judge_and_finish start primary transcript)%monad.

(** [Jury.classify]. *)
Definition classify (text : string) : M State Verdict.t :=
  (start <- outside now ;;
   record (CallClassifier text) ;;;
   primary <- outside (Classifier.classify (classifier self) text) ;;
   update_stats incr_total ;;;
   let should_escalate :=
     _should_escalate primary && negb (is_empty (personas self)) in
   if negb should_escalate then
     update_stats incr_fast_path ;;;
     duration_ms <- outside (elapsed_ms start) ;;
     ret (fast_path_verdict primary duration_ms)
   else
     update_stats incr_escalated ;;;
     match on_escalation self with
     | Some callback =>
         record (CallOnEscalation text primary) ;;;
         outside (callback text primary) ;;;
         debate_and_finish text start primary
     | None => debate_and_finish text start primary
     end)%monad.

(** *** [classify] statement by statement

    The places of [classify] at which its state can be looked at: before
    the classifier is awaited ([Start]), right after [total] was incremented
    on line 70 ([Counted]), suspended on the debate of line 92
    ([Debating]), suspended on the judge of line 116 ([Judging]), returned
    ([Finished]) or left by an exception ([Failed]). *)
Inductive Task : Type :=
| Start (text : string)
| Counted (text : string) (start : Q) (primary : ClassificationResult.t)
| Debating (text : string) (start : Q) (primary : ClassificationResult.t)
| Judging (start : Q) (primary : ClassificationResult.t)
    (transcript : DebateTranscript.t)
| Finished (verdict : Verdict.t)
| Failed (e : PyExn).

Definition settle {A : Type} (k : A -> Task) (r : Res A * State) : Task * State :=
  match r with
  | (Ok a, s) => (k a, s)
  | (Raise e, s) => (Failed e, s)
  end.

(** One move from a place to the next. *)
Definition step (task : Task) (s : State) : Task * State :=
  match task with
  | Start text =>
      settle (fun '(start, primary) => Counted text start primary)
        ((start <- outside now ;;
          record (CallClassifier text) ;;;
          primary <- outside (Classifier.classify (classifier self) text) ;;
          update_stats incr_total ;;;
          ret (start, primary))%monad s)
  | Counted text start primary =>
      if negb (_should_escalate primary && negb (is_empty (personas self))) then
        settle Finished
          ((update_stats incr_fast_path ;;;
            duration_ms <- outside (elapsed_ms start) ;;
            ret (fast_path_verdict primary duration_ms))%monad s)
      else
        settle (fun _ : unit => Debating text start primary)
          ((update_stats incr_escalated ;;;
            match on_escalation self with
            | Some callback =>
                record (CallOnEscalation text primary) ;;;
                outside (callback text primary)
            | None => ret tt
            end)%monad s)
  | Debating text start primary =>
      settle (fun task' : Task => task')
        ((record (CallDebate text primary) ;;;
          transcript <- outside (Debater.debate (debate_engine self) text primary
                                   (Classifier.labels (classifier self))
                                   (max_debate_cost_usd self)) ;;
          if cost_guard_trips transcript then
            duration_ms <- outside (elapsed_ms start) ;;
            ret (Finished (cost_guard_verdict primary transcript duration_ms))
          else ret (Judging start primary transcript))%monad s)
  | Judging start primary transcript =>
      settle Finished (judge_and_finish start primary transcript s)
  | Finished _ | Failed _ => (task, s)
  end.

Fixpoint run (n : nat) (task : Task) (s : State) : Task * State :=
  match n with
  | O => (task, s)
  | S n' => let '(task', s') := step task s in run n' task' s'
  end.

(** What a task has returned or raised, once it is over. *)
Definition result_of (task : Task) : option (Res Verdict.t) :=
  match task with
  | Finished verdict => Some (Ok verdict)
  | Failed e => Some (Raise e)
  | _ => None
  end.

(** *** [classify_batch]

    The tasks of [asyncio.gather], in input order. Control changes hands
    only where a task awaits: a task that is resumed runs up to its next
    suspension, so a task never rests at [Counted]. *)
Definition resume (task : Task) (s : State) : Task * State :=
  match task with
  | Start _ => let '(task', s') := step task s in step task' s'
  | _ => step task s
  end.

(** Tasks that hold the semaphore. *)
Definition in_flight (tasks : list Task) : nat :=
  length (filter (fun task =>
                    match task with
                    | Counted _ _ _ | Debating _ _ _ | Judging _ _ _ => true
                    | _ => false
                    end) tasks).

Fixpoint replace_nth {A : Type} (i : nat) (x : A) (xs : list A) : list A :=
  match i, xs with
  | _, [] => []
  | O, _ :: xs' => x :: xs'
  | S i', y :: xs' => y :: replace_nth i' x xs'
  end.

(** The scheduler resumes task [i]. A task that has not started yet needs a
    free slot of [asyncio.Semaphore(max(1, concurrency))]. *)
Definition schedule_step (concurrency : Z) (i : nat) (b : list Task * State)
    : list Task * State :=
  let '(tasks, s) := b in
  match nth_error tasks i with
  | Some (Start text) =>
      if (Z.of_nat (in_flight tasks) <? Z.max 1 concurrency)%Z then
        let '(task', s') := resume (Start text) s in
        (replace_nth i task' tasks, s')
      else b
  | Some task =>
      let '(task', s') := resume task s in
      (replace_nth i task' tasks, s')
  | None => b
  end.

(** [classify_batch(texts, concurrency)] under the schedule [sched], the
    order in which the event loop resumes the tasks. *)
Definition classify_batch (texts : list string) (concurrency : Z)
    (sched : list nat) (s : State) : list Task * State :=
  fold_left (fun b i => schedule_step concurrency i b) sched (map Start texts, s).

(** The schedule that runs the tasks one after the other. *)
Definition one_by_one (n : nat) : list nat :=
  flat_map (fun i => [i; i; i]) (seq 0 n).

(** [fast_path + escalated == total]. *)
Definition balanced (st : JuryStats.t) : Prop :=
  (JuryStats.fast_path st + JuryStats.escalated st = JuryStats.total st)%Z.

End WithWorld.
End Jury.

(** ** A reference runtime

    A decoder for the JSON texts used in the scenarios below, standing in for
    [json.loads]: objects, arrays, strings with the single-character escapes,
    decimal numbers without exponent, and the three literals. Texts with
    [\u] escapes, exponents or non-finite numbers are outside its domain. The
    general properties do not depend on it; they hold for every [Runtime]. *)
Module RefRuntime.

Definition is_json_ws (c : ascii) : bool :=
  let n := nat_of_ascii c in
  ((n =? 32) || (n =? 9) || (n =? 10) || (n =? 13))%nat.

Fixpoint skip_ws (s : string) : string :=
  match s with
  | String c s' => if is_json_ws c then skip_ws s' else s
  | EmptyString => s
  end.

Definition digit_of (c : ascii) : option Z :=
  let n := nat_of_ascii c in
  if ((48 <=? n) && (n <=? 57))%nat then Some (Z.of_nat (n - 48)) else None.

(** Leading digits of [s]: their value, how many, and the rest. *)
Fixpoint digits (s : string) (acc : Z) (count : nat) : Z * nat * string :=
  match s with
  | String c s' =>
      match digit_of c with
      | Some d => digits s' (acc * 10 + d)%Z (S count)
      | None => (acc, count, s)
      end
  | EmptyString => (acc, count, s)
  end.

Definition is_exponent_mark (s : string) : bool :=
  match s with
  | String c _ => let n := nat_of_ascii c in ((n =? 101) || (n =? 69))%nat
  | EmptyString => false
  end.

(** An unsigned decimal: integer part without superfluous leading zero,
    optional fraction. *)
Definition unsigned_number (s : string) : option (Q * string) :=
  let '(int_part, n, rest) := digits s 0%Z O in
  match n with
  | O => None
  | S _ =>
      if (startswith s "0" && (1 <? n)%nat) then None
      else
        match rest with
        | String "." rest' =>
            let '(frac, k, rest'') := digits rest' 0%Z O in
            match k with
            | O => None
            | S _ =>
                if is_exponent_mark rest'' then None
                else Some (inject_Z int_part
                           + inject_Z frac / inject_Z (10 ^ Z.of_nat k), rest'')
            end
        | _ => if is_exponent_mark rest then None else Some (inject_Z int_part, rest)
        end
  end.

Definition number (s : string) : option (Q * string) :=
  match s with
  | String "-" s' =>
      match unsigned_number s' with
      | Some (q, rest) => Some (- q, rest)
      | None => None
      end
  | _ => unsigned_number s
  end.

(** The body of a string after its opening quote. *)
Fixpoint string_body (s : string) : option (string * string) :=
  match s with
  | EmptyString => None
  | String c s' =>
      if (nat_of_ascii c =? 34)%nat then Some (EmptyString, s')
      else if (nat_of_ascii c =? 92)%nat then
        match s' with
        | String e s'' =>
            let n := nat_of_ascii e in
            let decoded :=
              if (n =? 34)%nat then Some e
              else if (n =? 92)%nat then Some e
              else if (n =? 47)%nat then Some e
              else if (n =? 98)%nat then Some (ascii_of_nat 8)
              else if (n =? 102)%nat then Some (ascii_of_nat 12)
              else if (n =? 110)%nat then Some (ascii_of_nat 10)
              else if (n =? 114)%nat then Some (ascii_of_nat 13)
              else if (n =? 116)%nat then Some (ascii_of_nat 9)
              else None in
            match decoded, string_body s'' with
            | Some d, Some (body, rest) => Some (String d body, rest)
            | _, _ => None
            end
        | EmptyString => None
        end
      else if (nat_of_ascii c <? 32)%nat then None
      else
        match string_body s' with
        | Some (body, rest) => Some (String c body, rest)
        | None => None
        end
  end.

Definition literal (word : string) (v : JSON) (s : string) : option (JSON * string) :=
  if startswith s word
  then Some (v, substring (String.length word) (String.length s) s)
  else None.

Fixpoint value (fuel : nat) (s : string) : option (JSON * string) :=
  match fuel with
  | O => None
  | S fuel' =>
      match skip_ws s with
      | EmptyString => None
      | String c s' as s0 =>
          let n := nat_of_ascii c in
          if (n =? 110)%nat then literal "null" JNull s0
          else if (n =? 116)%nat then literal "true" (JBool true) s0
          else if (n =? 102)%nat then literal "false" (JBool false) s0
          else if (n =? 34)%nat then
            match string_body s' with
            | Some (body, rest) => Some (JStr body, rest)
            | None => None
            end
          else if (n =? 91)%nat then
            match skip_ws s' with
            | String "]" rest => Some (JArr [], rest)
            | s1 =>
                match elements fuel' s1 with
                | Some (items, rest) => Some (JArr items, rest)
                | None => None
                end
            end
          else if (n =? 123)%nat then
            match skip_ws s' with
            | String "}" rest => Some (JObj [], rest)
            | s1 =>
                match members fuel' s1 [] with
                | Some (fields, rest) => Some (JObj fields, rest)
                | None => None
                end
            end
          else
            match number s0 with
            | Some (q, rest) => Some (JNum q, rest)
            | None => None
            end
      end
  end
with elements (fuel : nat) (s : string) : option (list JSON * string) :=
  match fuel with
  | O => None
  | S fuel' =>
      match value fuel' s with
      | Some (v, rest) =>
          match skip_ws rest with
          | String "]" rest' => Some ([v], rest')
          | String "," rest' =>
              match elements fuel' rest' with
              | Some (vs, rest'') => Some (v :: vs, rest'')
              | None => None
              end
          | _ => None
          end
      | None => None
      end
  end
with members (fuel : nat) (s : string) (acc : Dict.t JSON)
    : option (Dict.t JSON * string) :=
  match fuel with
  | O => None
  | S fuel' =>
      match skip_ws s with
      | String c s' =>
          if (nat_of_ascii c =? 34)%nat then
            match string_body s' with
            | Some (key, rest) =>
                match skip_ws rest with
                | String ":" rest' =>
                    match value fuel' rest' with
                    | Some (v, rest'') =>
                        let acc' := Dict.update (fun _ => v) v key acc in
                        match skip_ws rest'' with
                        | String "}" rest3 => Some (acc', rest3)
                        | String "," rest3 => members fuel' rest3 acc'
                        | _ => None
                        end
                    | None => None
                    end
                | _ => None
                end
            | None => None
            end
          else None
      | EmptyString => None
      end
  end.

Definition loads (s : string) : option JSON :=
  match value (2 * String.length s + 2) s with
  | Some (v, rest) =>
      match skip_ws rest with
      | EmptyString => Some v
      | _ => None
      end
  | None => None
  end.

(** [float(s)] for plain decimal texts. *)
Definition to_float (s : string) : Res Q :=
  match number (strip s) with
  | Some (q, EmptyString) => Ok q
  | _ => Raise ValueError
  end.

Fixpoint decimal (fuel : nat) (n : Z) (acc : string) : string :=
  match fuel with
  | O => acc
  | S fuel' =>
      let acc' := String (ascii_of_nat (48 + Z.to_nat (n mod 10))) acc in
      if (n / 10 =? 0)%Z then acc' else decimal fuel' (n / 10)%Z acc'
  end.

(** The text of an integral number; other non-string values do not occur
    in the scenarios. *)
Definition repr (v : JSON) : string :=
  match v with
  | JNum q =>
      let n := py_int q in
      if (n <? 0)%Z then "-" ++ decimal (Z.to_nat (- n) + 1) (- n) EmptyString
      else decimal (Z.to_nat n + 1) n EmptyString
  | _ => EmptyString
  end.

#[export] Instance runtime : Runtime :=
  {| json_loads := loads; float_of_str := to_float; py_repr := repr |}.

End RefRuntime.

(** ** Vocabulary of the properties

    The definitions below are not part of the package: they name what the
    properties speak about. *)

(** The keys of a tally, in the order in which they were first met. *)
Definition seen_from (ks : list string) (xs : list string) : list string :=
  fold_left (fun ks x => if existsb (String.eqb x) ks then ks else (ks ++ [x])%list) xs ks.

Definition seen (xs : list string) : list string := seen_from [] xs.

(** The shape shared by [Counter] and the [defaultdict] tallies. *)
Definition tally_by {X V : Type} (key : X -> string) (g : V -> X -> V) (dflt : V)
    (xs : list X) (c : Dict.t V) : Dict.t V :=
  fold_left (fun c x => Dict.update (fun v => g v x) dflt (key x) c) xs c.

(** The confidences given to [label], added up in round order. *)
Definition label_sum (final_round : list PersonaResponse.t) (label : string) : Q :=
  fold_left (fun s r => s + PersonaResponse.confidence r)
            (filter (fun r => String.eqb (PersonaResponse.label r) label) final_round)
            0.

(** One pass of the inner loop of [BayesianJudge.judge] over the labels, for
    the response [r]. *)
Definition bayes_pass (persona_priors : BayesianJudge.Priors) (labels : list string)
    (c : Dict.t Q) (r : PersonaResponse.t) : Dict.t Q :=
  tally_by (fun l : string => l)
           (fun p l => p * BayesianJudge.factor persona_priors labels r l) 1 labels c.

(** The product, over the responses of a round, of the clamped factors of a
    label: what the loops of [BayesianJudge.judge] compute for it. *)
Definition bayes_product (persona_priors : BayesianJudge.Priors)
    (labels : list string) (final_round : list PersonaResponse.t)
    (label : string) : Q :=
  fold_left (fun p r => p * BayesianJudge.factor persona_priors labels r label)
            final_round 1.

(** The same product divided by the sum of the products of all labels. *)
Definition bayes_posterior (persona_priors : BayesianJudge.Priors)
    (labels : list string) (final_round : list PersonaResponse.t)
    (label : string) : Q :=
  bayes_product persona_priors labels final_round label /
  py_sum (map (bayes_product persona_priors labels final_round) labels).

(** A reply text in double quotes. *)
Definition quoted (s : string) : string :=
  String (ascii_of_nat 34) (s ++ String (ascii_of_nat 34) EmptyString).

(** The reply [{"label": "unsafe", "confidence": null}]. *)
Definition null_confidence_reply : string :=
  "{" ++ quoted "label" ++ ": " ++ quoted "unsafe" ++ ", "
      ++ quoted "confidence" ++ ": null}".

(** The fallback response of [_parse_persona_response]. *)
Definition fallback_response (raw persona_name : string)
    (labels : option (list string)) : PersonaResponse.t :=
  {| PersonaResponse.persona_name := persona_name;
     PersonaResponse.label :=
       match labels with Some (first :: _) => first | _ => "unknown" end;
     PersonaResponse.confidence := 0;
     PersonaResponse.reasoning :=
       "Failed to parse persona response as JSON: " ++ substring 0 200 raw;
     PersonaResponse.key_factors := [];
     PersonaResponse.dissent_notes := None;
     PersonaResponse.raw_response := None;
     PersonaResponse.tokens_used := 0;
     PersonaResponse.cost_usd := None |}.

(** The token and cost totals after the given rounds. *)
Definition usage_after (rounds : list (list PersonaResponse.t)) (totals : Z * Q) : Z * Q :=
  fold_left (fun t r => add_usage r t) rounds totals.

Definition cost_after (rounds : list (list PersonaResponse.t)) : Q :=
  snd (usage_after rounds (0%Z, 0)).

Section JuryVocabulary.

Context {W : World}.
Variable self : Jury.t.

(** The duration [int((time.perf_counter() - start) * 1000)] read in world
    [w] by a call that started in world [w0]. *)
Definition duration (w0 w : St) : Z :=
  py_int ((perf_counter w - perf_counter w0) * 1000).

(** The decision of line 72. *)
Definition escalates (primary : ClassificationResult.t) : bool :=
  Jury._should_escalate self primary && negb (is_empty (Jury.personas self)).

(** The escalation callback of lines 89-90, when there is one. *)
Definition notify_escalation (text : string) (primary : ClassificationResult.t)
    : M St unit :=
  match Jury.on_escalation self with
  | Some callback => callback text primary
  | None => ret tt
  end.

Definition escalation_calls (text : string) (primary : ClassificationResult.t)
    : list Call :=
  match Jury.on_escalation self with
  | Some _ => [CallOnEscalation text primary]
  | None => []
  end.

(** The moves of the statement-by-statement reading and the counters. *)
Definition resting (task : Jury.Task) : Prop :=
  match task with
  | Jury.Counted _ _ _ => False
  | _ => True
  end.

(** The place invariant of one call: the counters are balanced everywhere
    but right after line 70, where [total] is one ahead. *)
Definition counters_at (task : Jury.Task) (st : JuryStats.t) : Prop :=
  match task with
  | Jury.Counted _ _ _ =>
      (JuryStats.fast_path st + JuryStats.escalated st + 1 = JuryStats.total st)%Z
  | _ => Jury.balanced st
  end.

End JuryVocabulary.

(** ** Concrete inputs used by the scenarios *)

Module Scenario.

Definition primary (label : string) (confidence : Q) : ClassificationResult.t :=
  {| ClassificationResult.label := label;
     ClassificationResult.confidence := confidence;
     ClassificationResult.raw_output := None;
     ClassificationResult.cost_usd := None |}.

Definition response (persona label : string) (confidence : Q) : PersonaResponse.t :=
  {| PersonaResponse.persona_name := persona;
     PersonaResponse.label := label;
     PersonaResponse.confidence := confidence;
     PersonaResponse.reasoning := "because";
     PersonaResponse.key_factors := [];
     PersonaResponse.dissent_notes := None;
     PersonaResponse.raw_response := None;
     PersonaResponse.tokens_used := 0;
     PersonaResponse.cost_usd := None |}.

Definition transcript (rounds : list (list PersonaResponse.t)) : DebateTranscript.t :=
  {| DebateTranscript.input_text := "text";
     DebateTranscript.primary_result := primary "safe" (1 # 2);
     DebateTranscript.rounds := rounds;
     DebateTranscript.duration_ms := 0;
     DebateTranscript.total_tokens := 0;
     DebateTranscript.total_cost_usd := None;
     DebateTranscript.summary := None |}.

(** Three reviewers, the second and third agreeing. *)
Definition split_round : list PersonaResponse.t :=
  [response "p1" "safe" (99 # 100);
   response "p2" "unsafe" (6 # 10);
   response "p3" "unsafe" (2 # 10)].

(** Two certain votes for ["a"], one certain vote for ["b"]. *)
Definition certain_round : list PersonaResponse.t :=
  [response "p1" "a" 1; response "p2" "a" 1; response "p3" "b" 1].

End Scenario.

(** ** A scripted world for the scenarios *)

Module Script.

(** The world counts the calls made to the outside services; its clock
    stands still. *)
Definition world : World := {| St := nat; perf_counter := fun _ => 0 |}.

Definition persona (name : string) : Persona.t :=
  {| Persona.name := name;
     Persona.role := "reviewer";
     Persona.system_prompt := "You review content.";
     Persona.model := "model";
     Persona.temperature := 3 # 10;
     Persona.known_bias := None |}.

(** The reply [{"label": "safe", "confidence": 0.9}]. *)
Definition safe_reply : string :=
  "{" ++ quoted "label" ++ ": " ++ quoted "safe" ++ ", "
      ++ quoted "confidence" ++ ": 0.9}".

(** A completion service that always sends [safe_reply], at 10 tokens and
    0.01 USD a call. *)
Definition client : @LLMClient world :=
  {| complete := fun _ _ _ _ (w : @St world) =>
                   (Ok (Payload.mk safe_reply 10 (Some (1 # 100))), S w) |}.

Definition classifier (result : ClassificationResult.t) : @Classifier.t world :=
  Classifier.mk world ["safe"; "unsafe"] (fun _ (w : @St world) => (Ok result, S w)).

Definition engine (max_rounds : Z) : @DebateEngine.t world :=
  DebateEngine.mk [persona "p1"; persona "p2"]
                  (DebateConfig.mk DELIBERATION max_rounds true true) client 5.

Definition debate (max_rounds : Z) : M (@St world) DebateTranscript.t :=
  @DebateEngine.debate RefRuntime.runtime world "model" (engine max_rounds)
    "text" (Scenario.primary "unsafe" (1 # 10)) ["safe"; "unsafe"] None.

(** A jury with threshold 0.7, the majority judge and no override. *)
Definition jury (result : ClassificationResult.t) (personas : list Persona.t)
    (max_debate_cost_usd : option Q) : @Jury.t world :=
  @Jury.init RefRuntime.runtime world "model" (classifier result) personas (7 # 10)
    (JudgeStrategy.pure MajorityVoteJudge.judge) DebateConfig.default
    None max_debate_cost_usd None None client 5.

Definition fresh : @Jury.State world := @Jury.mkState world JuryStats.zero [] 0%nat.

End Script.

(** ** Proof automation *)

(** Unfold the plumbing of the state monad. *)
Ltac unfold_monad :=
  unfold bind, Jury.outside, Jury.record, Jury.update_stats, modify, ret, lift,
         now, elapsed_ms in *.

(** Destruct the results of the collaborators met in the goal. *)
Ltac split_calls :=
  repeat match goal with
         | |- context [match ?m with (_, _) => _ end] =>
             lazymatch m with
             | context [match _ with _ => _ end] => fail
             | _ => destruct m as [[?|?] ?] eqn:?; simpl
             end
         | |- context [match ?m with Some _ => _ | None => _ end] =>
             destruct m eqn:?; simpl
         | |- context [if ?b then _ else _] => destruct b eqn:?; simpl
         end.

(** ** Further code of the package, and the vocabulary of its properties *)

(** A response as the engine hands it on: it carries the name of the persona
    that was asked, a confidence in [0, 1], the raw reply and a cost. *)
Definition answers (persona : Persona.t) (response : PersonaResponse.t) : Prop :=
  PersonaResponse.persona_name response = Persona.name persona /\
  0 <= PersonaResponse.confidence response <= 1 /\
  PersonaResponse.raw_response response <> None /\
  PersonaResponse.cost_usd response <> None.

Module Cases.

Definition pair : list Persona.t := [Script.persona "p1"; Script.persona "p2"].

Definition engine (mode : DebateMode) (personas : list Persona.t)
    : @DebateEngine.t Script.world :=
  DebateEngine.mk personas (DebateConfig.mk mode 2 true true) Script.client 5.

Definition debate (mode : DebateMode) (personas : list Persona.t)
    (max_cost_usd : option Q) : M (@St Script.world) DebateTranscript.t :=
  @DebateEngine.debate RefRuntime.runtime Script.world "model" (engine mode personas)
    "text" (Scenario.primary "unsafe" (1 # 10)) ["safe"; "unsafe"] max_cost_usd.

(** A completion service whose replies carry a [null] confidence. *)
Definition null_client : @LLMClient Script.world :=
  {| complete := fun _ _ _ _ (w : @St Script.world) =>
                   (Ok (Payload.mk null_confidence_reply 10 (Some (1 # 100))), S w) |}.

(** A jury over [null_client], with one persona and threshold 0.7. *)
Definition null_jury : @Jury.t Script.world :=
  @Jury.init RefRuntime.runtime Script.world "model"
    (Script.classifier (Scenario.primary "unsafe" (1 # 10)))
    [Script.persona "p1"] (7 # 10)
    (JudgeStrategy.pure MajorityVoteJudge.judge) DebateConfig.default
    None None None None null_client 5.

End Cases.

Section JuryVocabularyMore.

Context {W : World}.
Variable self : Jury.t.

(** The verdict callback of lines 125-126, when there is one. *)
Definition notify_verdict (verdict : Verdict.t) : M St unit :=
  match Jury.on_verdict self with
  | Some callback => callback verdict
  | None => ret tt
  end.

Definition verdict_calls (verdict : Verdict.t) : list Call :=
  match Jury.on_verdict self with
  | Some _ => [CallOnVerdict verdict]
  | None => []
  end.

End JuryVocabularyMore.

(** [JuryStats.escalation_rate]. *)
Definition escalation_rate (st : JuryStats.t) : Q :=
  if (0 <? JuryStats.total st)%Z
  then inject_Z (JuryStats.escalated st) / inject_Z (JuryStats.total st)
  else 0.

(** [JuryStats.cost_savings_vs_always_escalate]. *)
Definition cost_savings_vs_always_escalate (st : JuryStats.t) : Q :=
  if (0 <? JuryStats.total st)%Z
  then inject_Z (JuryStats.fast_path st) / inject_Z (JuryStats.total st)
  else 0.

(** Counters as calls of [classify] leave them: balanced and not negative. *)
Definition counted (st : JuryStats.t) : Prop :=
  Jury.balanced st /\ (0 <= JuryStats.fast_path st)%Z /\ (0 <= JuryStats.escalated st)%Z.

(** Whether a task holds the semaphore of [classify_batch]. *)
Definition holds_slot {W : World} (task : Jury.Task) : bool :=
  match task with
  | Jury.Counted _ _ _ | Jury.Debating _ _ _ | Jury.Judging _ _ _ => true
  | _ => false
  end.

(** What every judge strategy copies from the transcript into its verdict,
    and what it answers when the transcript has no responses. *)
Definition judged_from (transcript : DebateTranscript.t) (strategy : string)
    (v : Verdict.t) : Prop :=
  Verdict.judge_strategy v = strategy /\
  Verdict.was_escalated v = true /\
  Verdict.primary_result v = DebateTranscript.primary_result transcript /\
  Verdict.debate_transcript v = Some transcript /\
  Verdict.total_duration_ms v = DebateTranscript.duration_ms transcript /\
  Verdict.total_cost_usd v = DebateTranscript.total_cost_usd transcript /\
  (DebateTranscript.no_responses transcript = true ->
   Verdict.label v =
     ClassificationResult.label (DebateTranscript.primary_result transcript) /\
   Verdict.confidence v =
     ClassificationResult.confidence (DebateTranscript.primary_result transcript)).

Module ThresholdCalibrator.

Record _CalibrationRow : Type := mkRow {
  threshold : Q;
  accuracy : Q;
  escalation_rate : Q;
  total_cost : Q
}.

(** [[round(x / 100.0, 2) for x in range(50, 100, 5)]]. *)
Definition default_candidates : list Q :=
  map (fun k => inject_Z (50 + 5 * Z.of_nat k) / 100) (seq 0 10).

(** The counters [errors], [escalations], [correct] of one candidate. *)
Record Counts : Type := mkCounts {
  errors : Z;
  escalations : Z;
  correct : Z
}.

(** The inner loop over [zip(cached_results, labels)]. *)
Definition count (threshold : Q)
    (pairs : list (ClassificationResult.t * string)) : Counts :=
  fold_left
    (fun c '(result, expected) =>
       if Qltb (ClassificationResult.confidence result) threshold then
         mkCounts (errors c) (escalations c + 1) (correct c)
       else if String.eqb (ClassificationResult.label result) expected then
         mkCounts (errors c) (escalations c) (correct c + 1)
       else
         mkCounts (errors c + 1) (escalations c) (correct c))
    pairs (mkCounts 0 0 0).

(** The row of one candidate. *)
Definition row (n_texts : nat) (error_cost escalation_cost : Q) (threshold : Q)
    (pairs : list (ClassificationResult.t * string)) : _CalibrationRow :=
  let c := count threshold pairs in
  let total := Z.max 1 (Z.of_nat n_texts) in
  let resolved := (correct c + errors c)%Z in
  {| threshold := threshold;
     accuracy := if (0 <? resolved)%Z then inject_Z (correct c) / inject_Z resolved else 0;
     escalation_rate := inject_Z (escalations c) / inject_Z total;
     total_cost := inject_Z (errors c) * error_cost
                   + inject_Z (escalations c) * escalation_cost |}.

(** The state of the outer loop: the rows so far, the best threshold and the
    best cost, [None] standing for [float("inf")]. *)
Definition Sweep : Type := (list _CalibrationRow * Q * option Q)%type.

Definition sweep_step (n_texts : nat) (error_cost escalation_cost : Q)
    (pairs : list (ClassificationResult.t * string))
    (st : Sweep) (candidate : Q) : Sweep :=
  let '(rows, best_threshold, best_cost) := st in
  let r := row n_texts error_cost escalation_cost candidate pairs in
  let rows := (rows ++ [r])%list in
  let better :=
    match best_cost with
    | None => true
    | Some c => Qltb (total_cost r) c
    end in
  if better then (rows, candidate, Some (total_cost r))
  else (rows, best_threshold, best_cost).

Section WithWorld.

Context {W : World}.

(** [jury.threshold = best_threshold]. *)
Definition set_threshold (jury : Jury.t) (threshold : Q) : Jury.t :=
  Jury.mk (Jury.classifier jury) (Jury.personas jury) threshold (Jury.judge jury)
          (Jury.debate_config jury) (Jury.debate_engine jury)
          (Jury.escalation_override jury) (Jury.max_debate_cost_usd jury)
          (Jury.on_escalation jury) (Jury.on_verdict jury).

(** What a call of [calibrate] leaves behind: the returned threshold, the
    rows of [calibration_report] and the jury with its new threshold. *)
Record Calibration : Type := mkCalibration {
  best_threshold : Q;
  rows : list _CalibrationRow;
  jury : Jury.t
}.

(** [ThresholdCalibrator.calibrate]. *)
Definition calibrate (self_jury : Jury.t) (texts labels : list string)
    (error_cost escalation_cost : Q) (thresholds : option (list Q))
    : M St Calibration :=
  if negb (length texts =? length labels)%nat then lift (Raise ValueError)
  else
    let candidates :=
      match thresholds with
      | Some (t :: ts) => t :: ts
      | _ => default_candidates
      end in
    match candidates with
    | [] => lift (Raise ValueError)
    | first :: _ =>
        (cached_results <- mapM (Classifier.classify (Jury.classifier self_jury)) texts ;;
         let pairs := combine cached_results labels in
         let '(rows, best_threshold, _) :=
           fold_left (sweep_step (length texts) error_cost escalation_cost pairs)
                     candidates ([], first, None) in
         ret (mkCalibration best_threshold rows (set_threshold self_jury best_threshold)))%monad
    end.

End WithWorld.

End ThresholdCalibrator.

(** [thresholds or [round(x / 100.0, 2) for x in range(50, 100, 5)]]. *)
Definition candidates_of (thresholds : option (list Q)) : list Q :=
  match thresholds with
  | Some (t :: ts) => t :: ts
  | _ => ThresholdCalibrator.default_candidates
  end.

(** A calibration of the scripted jury on two texts, with the default
    candidates. *)
Definition scripted_calibration (labels : list string)
    : M (@St Script.world) (@ThresholdCalibrator.Calibration Script.world) :=
  ThresholdCalibrator.calibrate
    (Script.jury (Scenario.primary "safe" (95 # 100)) [] None)
    ["a"; "b"] labels 10 (5 # 100) None.

(** What follows a line in a joined text: nothing, or a line feed. *)
Definition line_end (x : string) : Prop :=
  x = EmptyString \/ exists y, x = String (ascii_of_nat 10) y.

(** [str.lower] on one character (code points up to 255). *)
Definition lower_char (c : ascii) : ascii :=
  let n := nat_of_ascii c in
  if ((65 <=? n) && (n <=? 90) || (192 <=? n) && (n <=? 214)
      || (216 <=? n) && (n <=? 222))%nat
  then ascii_of_nat (n + 32) else c.

(** [s.lower()]. *)
Fixpoint lower (s : string) : string :=
  match s with
  | EmptyString => EmptyString
  | String c s' => String (lower_char c) (lower s')
  end.

Definition _NO_TEMPERATURE_PREFIXES : list string := ["o1"; "o3"; "gpt-5"].

(** [llm/client.py: _should_send_temperature]. *)
Definition _should_send_temperature (model : string) (temperature : option Q) : bool :=
  match temperature with
  | None => false
  | Some _ =>
      if existsb (fun prefix => startswith (lower model) prefix) _NO_TEMPERATURE_PREFIXES
      then false else true
  end.

(** [Classifier.classify_batch]: [[await self.classify(text) for text in texts]]. *)
Definition Classifier_classify_batch {W : World} (self : Classifier.t)
    (texts : list string) : M St (list ClassificationResult.t) :=
  mapM (Classifier.classify self) texts.

(** [s.split(sep)] for a separator of one character. *)
Fixpoint split_on (sep : ascii) (s : string) : list string :=
  match s with
  | EmptyString => [EmptyString]
  | String c s' =>
      if Ascii.eqb c sep then EmptyString :: split_on sep s'
      else
        match split_on sep s' with
        | piece :: pieces => String c piece :: pieces
        | [] => [String c EmptyString]
        end
  end.

(** [bool(s)] on a string. *)
Definition nonempty (s : string) : bool :=
  match s with
  | EmptyString => false
  | String _ _ => true
  end.

(** [cli/main.py: _parse_labels]. *)
Definition _parse_labels (raw : option string) (fallback : option (list string))
    : list string :=
  match raw with
  | Some (String c s) =>
      map strip (filter (fun label => nonempty (strip label))
                        (split_on "," (String c s)))
  | _ =>
      match fallback with
      | Some (l :: ls) => l :: ls
      | _ => ["safe"; "unsafe"]
      end
  end.

Module LLMJudge.
Section WithWorld.

Context {RT : Runtime} {W : World}.

(** The completion service as the judge uses it. The text of
    [_build_prompt] is a function of the transcript and the labels, so the
    service is given these:
    [complete(model, system_prompt, (transcript, labels), temperature)]. *)
Record Client : Type := {
  complete : string -> string -> DebateTranscript.t -> list string -> option Q ->
             M St Payload.t
}.

Record t : Type := mk {
  model : string;
  system_prompt : string;
  temperature : Q;
  llm_client : Client
}.

(** [LLMJudge.judge]. *)
Definition judge (self : t) (transcript : DebateTranscript.t)
    (labels : list string) : M St Verdict.t :=
  (payload <- complete (llm_client self) (model self) (system_prompt self)
                       transcript labels (Some (temperature self)) ;;
   let raw_content := Payload.content payload in
   let primary_result := DebateTranscript.primary_result transcript in
   let total_cost_usd :=
     opt_float_or (DebateTranscript.total_cost_usd transcript) 0
     + opt_float_or (Payload.cost_usd payload) 0 in
   match safe_json_parse (strip_markdown_fences raw_content) with
   | None =>
       ret {| Verdict.label := ClassificationResult.label primary_result;
              Verdict.confidence := ClassificationResult.confidence primary_result;
              Verdict.reasoning :=
                "LLM judge response was not valid JSON. Falling back to primary result.";
              Verdict.was_escalated := true;
              Verdict.primary_result := primary_result;
              Verdict.debate_transcript := Some transcript;
              Verdict.judge_strategy := "llm_judge_fallback_invalid_json";
              Verdict.total_duration_ms := DebateTranscript.duration_ms transcript;
              Verdict.total_cost_usd := Some total_cost_usd |}
   | Some data =>
       let label :=
         py_str (Dict.get_or data "label"
                   (JStr (ClassificationResult.label primary_result))) in
       confidence <-
         lift (clamp_confidence
                 (Dict.get_or data "confidence"
                    (JNum (ClassificationResult.confidence primary_result)))) ;;
       ret {| Verdict.label := label;
              Verdict.confidence := confidence;
              Verdict.reasoning :=
                py_str (Dict.get_or data "reasoning" (JStr "LLM judge response."));
              Verdict.was_escalated := true;
              Verdict.primary_result := primary_result;
              Verdict.debate_transcript := Some transcript;
              Verdict.judge_strategy := "llm_judge";
              Verdict.total_duration_ms := DebateTranscript.duration_ms transcript;
              Verdict.total_cost_usd := Some total_cost_usd |}
   end)%monad.

End WithWorld.
End LLMJudge.

(** An LLM judge whose service replies with a [null] confidence. *)
Definition null_judge : @LLMJudge.t Script.world :=
  LLMJudge.mk "model" "system" 0
    {| LLMJudge.complete := fun _ _ _ _ _ (w : @St Script.world) =>
         (Ok (Payload.mk null_confidence_reply 10 (Some (1 # 100))), S w) |}.

(** The calls [await jury.classify(text)] made for the texts in turn, each
    outcome kept, a raised exception included. *)
Fixpoint classify_in_turn {W : World} (self : Jury.t) (texts : list string)
    (s : Jury.State) : list (Res Verdict.t) * Jury.State :=
  match texts with
  | [] => ([], s)
  | text :: texts' =>
      let '(r, s1) := Jury.classify self text s in
      let '(rs, s2) := classify_in_turn self texts' s1 in
      (r :: rs, s2)
  end.

Module LLMClassifier.
Section WithWorld.

Context {RT : Runtime} {W : World}.

(** The completion service as the classifier uses it. The prompt is made of
    the labels and the text, so the service is given these:
    [complete(model, system_prompt, (labels, text), temperature)]. *)
Record Client : Type := {
  complete : string -> string -> list string -> string -> option Q -> M St Payload.t
}.

Record t : Type := mk {
  model : string;
  labels : list string;
  system_prompt : string;
  llm_client : Client;
  temperature : Q
}.

(** [self.labels[0] if self.labels else "unknown"]. *)
Definition fallback_label (self : t) : string :=
  match labels self with
  | first :: _ => first
  | [] => "unknown"
  end.

(** [LLMClassifier.classify]. *)
Definition classify (self : t) (text : string) : M St ClassificationResult.t :=
  (payload <- complete (llm_client self) (model self) (system_prompt self)
                       (labels self) text (Some (temperature self)) ;;
   let raw_content := Payload.content payload in
   let call_cost := Payload.cost_usd payload in
   match safe_json_parse (strip_markdown_fences raw_content) with
   | None =>
       ret {| ClassificationResult.label := fallback_label self;
              ClassificationResult.confidence := 0;
              ClassificationResult.raw_output :=
                Some (JObj [("raw_content", JStr raw_content);
                            ("error", JStr "invalid_json")]);
              ClassificationResult.cost_usd := call_cost |}
   | Some data =>
       let label := py_str (Dict.get_or data "label" (JStr (fallback_label self))) in
       confidence <- lift (clamp_confidence (Dict.get_or data "confidence" (JNum 0))) ;;
       ret {| ClassificationResult.label := label;
              ClassificationResult.confidence := confidence;
              ClassificationResult.raw_output := Some (JObj data);
              ClassificationResult.cost_usd := call_cost |}
   end)%monad.

(** The classifier as a [Jury] holds it. *)
Definition classifier (self : t) : Classifier.t :=
  Classifier.mk _ (labels self) (classify self).

End WithWorld.
End LLMClassifier.

(** An LLM classifier whose service does not answer in JSON, and a jury
    over it with one persona and threshold 0.7. *)
Definition garbled_classifier : @LLMClassifier.t Script.world :=
  LLMClassifier.mk "model" ["safe"; "unsafe"] "system"
    {| LLMClassifier.complete := fun _ _ _ _ _ (w : @St Script.world) =>
         (Ok (Payload.mk "I think it is safe." 10 None), S w) |}
    0.

Definition garbled_jury : @Jury.t Script.world :=
  @Jury.init RefRuntime.runtime Script.world "model"
    (@LLMClassifier.classifier RefRuntime.runtime Script.world garbled_classifier)
    [Script.persona "p1"] (7 # 10)
    (JudgeStrategy.pure MajorityVoteJudge.judge) DebateConfig.default
    None None None None Script.client 5.

(** [a == b] on two [Persona] values: the dataclass compares field by
    field. *)
Definition persona_eqb (a b : Persona.t) : bool :=
  String.eqb (Persona.name a) (Persona.name b)
  && String.eqb (Persona.role a) (Persona.role b)
  && String.eqb (Persona.system_prompt a) (Persona.system_prompt b)
  && String.eqb (Persona.model a) (Persona.model b)
  && Qeq_bool (Persona.temperature a) (Persona.temperature b)
  && match Persona.known_bias a, Persona.known_bias b with
     | Some x, Some y => String.eqb x y
     | None, None => true
     | _, _ => false
     end.

(** [xs.index(x)]: the first position holding a value equal to [x];
    [ValueError] when there is none. *)
Fixpoint index {A : Type} (eqb : A -> A -> bool) (xs : list A) (x : A) : Res nat :=
  match xs with
  | [] => Raise ValueError
  | y :: ys =>
      if eqb y x then Ok 0%nat
      else res_bind (index eqb ys x) (fun i => Ok (S i))
  end.

(** The side [_build_persona_prompt] assigns in [ADVERSARIAL] mode:
    [persona_index = self.personas.index(persona)], then
    ["Prosecution" if persona_index % 2 == 0 else "Defense"]. *)
Definition stance (personas : list Persona.t) (persona : Persona.t) : Res string :=
  res_bind (index persona_eqb personas persona)
    (fun persona_index =>
       Ok (if (Z.of_nat persona_index mod 2 =? 0)%Z then "Prosecution" else "Defense")).

(** * Properties *)

(** ** Facts about ordered dictionaries *)

Section DictFacts.

Context {V : Type}.
Implicit Types (d : Dict.t V) (k : string) (f : V -> V).

Lemma keys_update f dflt k d :
  Dict.keys (Dict.update f dflt k d) =
  if existsb (String.eqb k) (Dict.keys d) then Dict.keys d
  else (Dict.keys d ++ [k])%list.
Proof.
  induction d as [|[k' v] d IH]; simpl; [reflexivity|].
  destruct (String.eqb k k') eqn:E; simpl; [reflexivity|].
  rewrite IH. destruct (existsb _ _); reflexivity.
Qed.

Lemma get_update f dflt k d k' :
  Dict.get (Dict.update f dflt k d) k' =
  if String.eqb k' k then Some (f (Dict.get_or d k dflt)) else Dict.get d k'.
Proof.
  unfold Dict.get_or.
  induction d as [|[k0 v] d IH]; simpl.
  - destruct (String.eqb k' k); reflexivity.
  - destruct (String.eqb k k0) eqn:E; simpl.
    + apply String.eqb_eq in E; subst k0.
      destruct (String.eqb k' k); reflexivity.
    + rewrite IH. destruct (String.eqb k' k) eqn:E'.
      * apply String.eqb_eq in E'; subst k'. rewrite E. reflexivity.
      * reflexivity.
Qed.

Lemma get_In d k v : Dict.get d k = Some v -> In (k, v) d.
Proof.
  induction d as [|[k0 v0] d IH]; simpl; [discriminate|].
  destruct (String.eqb k k0) eqn:E.
  - apply String.eqb_eq in E; subst. intros [= ->]. now left.
  - intros H. right. now apply IH.
Qed.

Lemma get_None d k : Dict.get d k = None <-> ~ In k (Dict.keys d).
Proof.
  induction d as [|[k0 v0] d IH]; simpl.
  - tauto.
  - destruct (String.eqb k k0) eqn:E.
    + apply String.eqb_eq in E; subst. split; [discriminate|]. intros H. exfalso. apply H. now left.
    + apply String.eqb_neq in E. rewrite IH. split.
      * intros H [H1|H1]; [congruence|tauto].
      * intros H H1. apply H. now right.
Qed.

Lemma In_get d k v : NoDup (Dict.keys d) -> In (k, v) d -> Dict.get d k = Some v.
Proof.
  induction d as [|[k0 v0] d IH]; simpl; [tauto|].
  intros Hnd [H|H].
  - injection H as -> ->. now rewrite String.eqb_refl.
  - inversion Hnd as [|? ? Hnotin Hnd']; subst.
    destruct (String.eqb k k0) eqn:E.
    + apply String.eqb_eq in E; subst. exfalso. apply Hnotin.
      change k0 with (fst (k0, v)). now apply in_map.
    + now apply IH.
Qed.

Lemma existsb_eqb_In k (ks : list string) :
  existsb (String.eqb k) ks = true <-> In k ks.
Proof.
  rewrite existsb_exists. split.
  - intros (x & Hx & E). apply String.eqb_eq in E. now subst.
  - intros H. exists k. split; [assumption|apply String.eqb_refl].
Qed.

Lemma NoDup_keys_update f dflt k d :
  NoDup (Dict.keys d) -> NoDup (Dict.keys (Dict.update f dflt k d)).
Proof.
  intros H. rewrite keys_update.
  destruct (existsb (String.eqb k) (Dict.keys d)) eqn:E; [assumption|].
  apply NoDup_app; [assumption|repeat constructor; intros []| ]. 
  intros x Hx [<-|[]].
  apply existsb_eqb_In in Hx. congruence.
Qed.

End DictFacts.

Lemma filter_none {A : Type} (p : A -> bool) (xs : list A) :
  existsb p xs = false -> filter p xs = [].
Proof.
  induction xs as [|x xs IH]; simpl; [reflexivity|].
  destruct (p x); simpl; [discriminate|exact IH].
Qed.

Section TallyFacts.

Context {X V : Type} (key : X -> string) (g : V -> X -> V) (dflt : V).

Lemma keys_tally xs c :
  Dict.keys (tally_by key g dflt xs c) = seen_from (Dict.keys c) (map key xs).
Proof.
  revert c. induction xs as [|x xs IH]; intros c; simpl; [reflexivity|].
  unfold tally_by in *. simpl. rewrite IH, keys_update. reflexivity.
Qed.

Lemma NoDup_tally xs c :
  NoDup (Dict.keys c) -> NoDup (Dict.keys (tally_by key g dflt xs c)).
Proof.
  revert c. induction xs as [|x xs IH]; intros c H; simpl; [assumption|].
  apply IH. now apply NoDup_keys_update.
Qed.

Lemma get_tally xs c k :
  Dict.get (tally_by key g dflt xs c) k =
  if existsb (fun x => String.eqb (key x) k) xs
  then Some (fold_left g (filter (fun x => String.eqb (key x) k) xs)
                       (Dict.get_or c k dflt))
  else Dict.get c k.
Proof.
  revert c. induction xs as [|x xs IH]; intros c; simpl; [reflexivity|].
  unfold tally_by in *. simpl. rewrite IH. clear IH.
  unfold Dict.get_or at 1. rewrite !get_update.
  rewrite (String.eqb_sym k (key x)).
  destruct (String.eqb (key x) k) eqn:E; simpl.
  - apply String.eqb_eq in E. subst k.
    destruct (existsb _ xs) eqn:Ex; [reflexivity|].
    rewrite (filter_none _ _ Ex). reflexivity.
  - reflexivity.
Qed.

End TallyFacts.

Lemma seen_from_snoc ks xs x :
  seen_from ks (xs ++ [x]) =
  if existsb (String.eqb x) (seen_from ks xs) then seen_from ks xs
  else (seen_from ks xs ++ [x])%list.
Proof. unfold seen_from. rewrite fold_left_app. reflexivity. Qed.

Lemma In_seen xs k : In k (seen xs) <-> In k xs.
Proof.
  unfold seen. revert k.
  induction xs as [|x xs IH] using rev_ind; intros k; [simpl; tauto|].
  rewrite seen_from_snoc, in_app_iff. simpl.
  destruct (existsb (String.eqb x) (seen_from [] xs)) eqn:E.
  - apply existsb_eqb_In in E. apply IH in E. rewrite IH. split; [tauto|].
    intros [H|[<-|[]]]; assumption.
  - rewrite in_app_iff, IH. simpl. tauto.
Qed.

Lemma seen_split xs kpre w kpost :
  seen xs = (kpre ++ w :: kpost)%list ->
  exists pre post,
    xs = (pre ++ w :: post)%list /\ ~ In w pre /\ incl pre kpre.
Proof.
  unfold seen. revert kpre w kpost.
  induction xs as [|x xs IH] using rev_ind; intros kpre w kpost H.
  - destruct kpre; discriminate.
  - rewrite seen_from_snoc in H.
    destruct (existsb (String.eqb x) (seen_from [] xs)) eqn:E.
    + destruct (IH _ _ _ H) as (pre & post & -> & Hw & Hincl).
      exists pre, (post ++ [x])%list. rewrite <- app_assoc. simpl. auto.
    + destruct kpost as [|y kpost _] using rev_ind.
      * apply app_inj_tail in H. destruct H as [H Hx]. subst w.
        exists xs, []. split; [reflexivity|]. split.
        -- intros Hin. apply In_seen in Hin. apply existsb_eqb_In in Hin.
           unfold seen in Hin. congruence.
        -- intros l Hl. rewrite <- H. now apply In_seen.
      * change (kpre ++ w :: kpost ++ [y])%list
          with (kpre ++ (w :: kpost) ++ [y])%list in H.
        rewrite app_assoc in H. apply app_inj_tail in H. destruct H as [H Hx].
        subst y.
        destruct (IH _ _ _ H) as (pre & post & -> & Hw & Hincl).
        exists pre, (post ++ [x])%list. rewrite <- app_assoc. simpl. auto.
Qed.

(** ** Facts about [max] with a key *)

Section MaxKey.

Context {A K : Type} (gtb : K -> K -> bool) (key : A -> K).
Hypothesis gtb_trans :
  forall a b c, gtb a b = true -> gtb b c = true -> gtb a c = true.
Hypothesis gtb_neg_trans :
  forall a b c, gtb a b = false -> gtb b c = false -> gtb a c = false.

Lemma py_max_key_inv rest best pre post :
  (forall y, In y pre -> gtb (key best) (key y) = true) ->
  (forall y, In y post -> gtb (key y) (key best) = false) ->
  exists pre' post',
    (pre ++ best :: post ++ rest)%list =
    (pre' ++ fold_left (fun b y => if gtb (key y) (key b) then y else b) rest best
          :: post')%list /\
    (forall y, In y pre' ->
       gtb (key (fold_left (fun b y => if gtb (key y) (key b) then y else b) rest best))
           (key y) = true) /\
    (forall y, In y post' ->
       gtb (key y)
           (key (fold_left (fun b y => if gtb (key y) (key b) then y else b) rest best))
       = false).
Proof.
  revert best pre post.
  induction rest as [|y rest IH]; intros best pre post Hpre Hpost; simpl.
  - exists pre, post. rewrite app_nil_r. auto.
  - destruct (gtb (key y) (key best)) eqn:E.
    + destruct (IH y (pre ++ best :: post)%list []) as (pre' & post' & Heq & H1 & H2).
      * intros z Hz. apply in_app_iff in Hz. destruct Hz as [Hz|[<-|Hz]].
        -- eapply gtb_trans; [exact E|]. now apply Hpre.
        -- exact E.
        -- destruct (gtb (key y) (key z)) eqn:E'; [reflexivity|].
           rewrite (gtb_neg_trans _ _ _ E' (Hpost z Hz)) in E. discriminate.
      * intros z [].
      * exists pre', post'. split; [|auto].
        rewrite <- Heq. rewrite <- app_assoc. reflexivity.
    + destruct (IH best pre (post ++ [y])%list) as (pre' & post' & Heq & H1 & H2).
      * assumption.
      * intros z Hz. apply in_app_iff in Hz. destruct Hz as [Hz|[<-|[]]]; auto.
      * exists pre', post'. split; [|auto].
        rewrite <- Heq. rewrite <- app_assoc. reflexivity.
Qed.

(** [max] returns the first element with the largest key. *)
Lemma py_max_key_first x xs :
  exists pre post,
    x :: xs = (pre ++ py_max_key gtb key x xs :: post)%list /\
    (forall y, In y pre -> gtb (key (py_max_key gtb key x xs)) (key y) = true) /\
    (forall y, In y post -> gtb (key y) (key (py_max_key gtb key x xs)) = false).
Proof.
  destruct (py_max_key_inv xs x [] []) as (pre & post & Heq & H1 & H2);
    [intros y []|intros y []|].
  exists pre, post. auto.
Qed.

End MaxKey.

(** ** [Counter] *)

Lemma fold_left_count {X : Type} (xs : list X) (a : nat) :
  fold_left (fun v _ => S v) xs a = (a + length xs)%nat.
Proof.
  revert a. induction xs as [|x xs IH]; intros a; simpl; [lia|].
  rewrite IH. lia.
Qed.

Lemma length_filter_eqb (votes : list string) (l : string) :
  length (filter (fun x => String.eqb x l) votes) = count_occ string_dec votes l.
Proof.
  induction votes as [|x votes IH]; simpl; [reflexivity|].
  destruct (string_dec x l) as [->|Hne].
  - rewrite String.eqb_refl. simpl. now rewrite IH.
  - apply String.eqb_neq in Hne. rewrite Hne. exact IH.
Qed.

Lemma existsb_eqb_In' (votes : list string) (l : string) :
  existsb (fun x => String.eqb x l) votes = true <-> In l votes.
Proof.
  rewrite existsb_exists. split.
  - intros (x & Hx & E). apply String.eqb_eq in E. now subst.
  - intros H. exists l. split; [assumption|apply String.eqb_refl].
Qed.

Lemma Counter_tally votes :
  Counter votes = tally_by (fun x : string => x) (fun (v : nat) _ => S v) O votes [].
Proof. reflexivity. Qed.

Lemma Counter_keys votes : Dict.keys (Counter votes) = seen votes.
Proof. rewrite Counter_tally, keys_tally, map_id. reflexivity. Qed.

Lemma Counter_NoDup votes : NoDup (Dict.keys (Counter votes)).
Proof. rewrite Counter_tally. apply NoDup_tally. constructor. Qed.

Lemma Counter_get votes l :
  Dict.get (Counter votes) l =
  if existsb (fun x => String.eqb x l) votes
  then Some (count_occ string_dec votes l) else None.
Proof.
  rewrite Counter_tally, get_tally. simpl.
  destruct (existsb _ votes); [|reflexivity].
  now rewrite fold_left_count, length_filter_eqb.
Qed.

Lemma Counter_In votes l n :
  In (l, n) (Counter votes) <-> In l votes /\ n = count_occ string_dec votes l.
Proof.
  split.
  - intros H. apply In_get in H; [|apply Counter_NoDup].
    rewrite Counter_get in H.
    destruct (existsb _ votes) eqn:E; [|discriminate].
    apply existsb_eqb_In' in E. injection H as <-. auto.
  - intros [H ->]. apply get_In. rewrite Counter_get.
    apply existsb_eqb_In' in H. now rewrite H.
Qed.

Lemma final_round_nonempty transcript :
  DebateTranscript.final_round transcript <> [] ->
  DebateTranscript.no_responses transcript = false.
Proof.
  unfold DebateTranscript.no_responses, DebateTranscript.final_round, last_or.
  destruct (DebateTranscript.rounds transcript) as [|r rs]; intros H.
  - now contradiction H.
  - destruct (last (r :: rs) []); [now contradiction H|reflexivity].
Qed.


(** ** Rational arithmetic helpers *)

Lemma Qltb_lt a b : Qltb a b = true <-> a < b.
Proof.
  unfold Qltb. rewrite negb_true_iff. split.
  - intros H. apply Qnot_le_lt. intros Hle. apply Qle_bool_iff in Hle. congruence.
  - intros H. destruct (Qle_bool b a) eqn:E; [|reflexivity].
    apply Qle_bool_iff in E. exfalso. apply (Qlt_not_le _ _ H E).
Qed.

Lemma Qltb_ge a b : Qltb a b = false <-> b <= a.
Proof.
  unfold Qltb. rewrite negb_false_iff. apply Qle_bool_iff.
Qed.

Lemma Qgtb_trans (a b c : Q) :
  Qltb b a = true -> Qltb c b = true -> Qltb c a = true.
Proof. rewrite !Qltb_lt. intros H1 H2. eapply Qlt_trans; eassumption. Qed.

Lemma Qgtb_neg_trans (a b c : Q) :
  Qltb b a = false -> Qltb c b = false -> Qltb c a = false.
Proof. rewrite !Qltb_ge. intros H1 H2. eapply Qle_trans; eassumption. Qed.

Lemma fold_Qplus_shift (xs : list Q) (a : Q) :
  fold_left Qplus xs a == a + py_sum xs.
Proof.
  unfold py_sum. revert a. induction xs as [|x xs IH]; intros a; simpl.
  - ring.
  - rewrite IH, (IH (0 + x)). ring.
Qed.

Lemma py_sum_cons (x : Q) (xs : list Q) : py_sum (x :: xs) == x + py_sum xs.
Proof. unfold py_sum at 1. simpl. rewrite fold_Qplus_shift. ring. Qed.

Lemma py_sum_app (xs ys : list Q) : py_sum (xs ++ ys) == py_sum xs + py_sum ys.
Proof.
  induction xs as [|x xs IH]; simpl.
  - unfold py_sum at 2. simpl. ring.
  - rewrite !py_sum_cons, IH. ring.
Qed.

(** ** Weighted vote *)

Lemma sum_values_update (x : Q) (k : string) (c : Dict.t Q) :
  py_sum (Dict.values (Dict.update (fun s => s + x) 0 k c)) ==
  py_sum (Dict.values c) + x.
Proof.
  induction c as [|[k' v] c IH]; simpl.
  - unfold py_sum. simpl. ring.
  - destruct (String.eqb k k'); simpl.
    + rewrite !py_sum_cons. ring.
    + rewrite !py_sum_cons, IH. ring.
Qed.

Lemma sum_values_tally (rs : list PersonaResponse.t) (c : Dict.t Q) :
  py_sum (Dict.values
            (tally_by PersonaResponse.label
                      (fun s r => s + PersonaResponse.confidence r) 0 rs c)) ==
  py_sum (Dict.values c) + py_sum (map PersonaResponse.confidence rs).
Proof.
  revert c. induction rs as [|r rs IH]; intros c; simpl.
  - unfold py_sum at 3. simpl. ring.
  - unfold tally_by in *. simpl. rewrite IH, sum_values_update, py_sum_cons. ring.
Qed.

Lemma tally_NoDup final_round :
  NoDup (Dict.keys (WeightedVoteJudge.tally final_round)).
Proof.
  change (WeightedVoteJudge.tally final_round)
    with (tally_by PersonaResponse.label
                   (fun s r => s + PersonaResponse.confidence r) 0 final_round []).
  apply NoDup_tally. constructor.
Qed.

Lemma tally_In final_round l s :
  In (l, s) (WeightedVoteJudge.tally final_round) <->
  In l (map PersonaResponse.label final_round) /\ s = label_sum final_round l.
Proof.
  change (WeightedVoteJudge.tally final_round)
    with (tally_by PersonaResponse.label
                   (fun s r => s + PersonaResponse.confidence r) 0 final_round []).
  assert (Hex : existsb (fun r => String.eqb (PersonaResponse.label r) l) final_round = true
                <-> In l (map PersonaResponse.label final_round)).
  { rewrite existsb_exists, in_map_iff. split.
    - intros (r & Hr & E). apply String.eqb_eq in E. eauto.
    - intros (r & E & Hr). exists r. split; [assumption|]. now apply String.eqb_eq. }
  split.
  - intros H. apply In_get in H; [|apply NoDup_tally; constructor].
    rewrite get_tally in H.
    destruct (existsb _ final_round) eqn:E; [|discriminate].
    injection H as <-. split; [now apply Hex|reflexivity].
  - intros [H ->]. apply get_In. rewrite get_tally.
    apply Hex in H. rewrite H. reflexivity.
Qed.


(** ** Bayesian aggregation *)

Lemma seen_from_known ks xs :
  (forall x, In x xs -> In x ks) -> seen_from ks xs = ks.
Proof.
  unfold seen_from. induction xs as [|x xs IH]; intros H; simpl; [reflexivity|].
  assert (E : existsb (String.eqb x) ks = true).
  { apply existsb_eqb_In. apply H. now left. }
  rewrite E. apply IH. intros y Hy. apply H. now right.
Qed.

Lemma seen_from_fresh ks xs :
  NoDup xs -> (forall x, In x xs -> ~ In x ks) -> seen_from ks xs = (ks ++ xs)%list.
Proof.
  unfold seen_from. revert ks.
  induction xs as [|x xs IH]; intros ks Hnd H; simpl.
  - now rewrite app_nil_r.
  - inversion Hnd as [|? ? Hx Hnd']; subst.
    destruct (existsb (String.eqb x) ks) eqn:E.
    + apply existsb_eqb_In in E. exfalso. apply (H x); [now left|assumption].
    + rewrite IH; [now rewrite <- app_assoc|assumption|].
      intros y Hy Hin. apply in_app_iff in Hin. destruct Hin as [Hin|[<-|[]]].
      * apply (H y); [now right|assumption].
      * contradiction.
Qed.

Lemma dict_ext {V : Type} (c : Dict.t V) (f : string -> V) :
  (forall k v, In (k, v) c -> v = f k) ->
  c = map (fun k => (k, f k)) (Dict.keys c).
Proof.
  induction c as [|[k v] c IH]; intros H; simpl; [reflexivity|].
  rewrite (H k v) by now left.
  f_equal. apply IH. intros k' v' Hin. apply H. now right.
Qed.

Lemma filter_eqb_NoDup (labels : list string) (l : string) :
  NoDup labels -> In l labels ->
  filter (fun x => String.eqb x l) labels = [l].
Proof.
  induction labels as [|x labels IH]; intros Hnd Hin; [destruct Hin|].
  inversion Hnd as [|? ? Hx Hnd']; subst. simpl.
  destruct (String.eqb x l) eqn:E.
  - apply String.eqb_eq in E. subst x. f_equal.
    apply filter_none. destruct (existsb _ labels) eqn:Ex; [|reflexivity].
    apply existsb_eqb_In' in Ex. contradiction.
  - apply String.eqb_neq in E. destruct Hin as [Hin|Hin]; [congruence|].
    now apply IH.
Qed.

Lemma get_map_keys {V : Type} (f : string -> V) (labels : list string) (l : string) :
  Dict.get (map (fun k => (k, f k)) labels) l =
  if existsb (fun x => String.eqb x l) labels then Some (f l) else None.
Proof.
  induction labels as [|x labels IH]; simpl; [reflexivity|].
  rewrite (String.eqb_sym l x).
  destruct (String.eqb x l) eqn:E; simpl; [|exact IH].
  apply String.eqb_eq in E. now subst.
Qed.

Lemma keys_map_keys {V : Type} (f : string -> V) (labels : list string) :
  Dict.keys (map (fun k => (k, f k)) labels) = labels.
Proof.
  unfold Dict.keys. rewrite map_map. simpl. apply map_id.
Qed.

Section Bayes.

Variable persona_priors : BayesianJudge.Priors.
Variable labels : list string.
Hypothesis labels_NoDup : NoDup labels.

Local Abbreviation F := (BayesianJudge.factor persona_priors labels).
Local Abbreviation inner := (bayes_pass persona_priors labels).

Lemma inner_values (c : Dict.t Q) (r : PersonaResponse.t) (v : string -> Q) :
  (c = [] /\ v = (fun _ => 1)) \/ c = map (fun l => (l, v l)) labels ->
  inner c r = map (fun l => (l, v l * F r l)) labels.
Proof.
  intros Hc.
  assert (Hkeys : Dict.keys (inner c r) = labels).
  { unfold bayes_pass. rewrite keys_tally, map_id.
    destruct Hc as [[-> _]| ->].
    - now apply (seen_from_fresh []).
    - rewrite keys_map_keys. now apply seen_from_known. }
  rewrite (dict_ext (inner c r) (fun l => v l * F r l)); [now rewrite Hkeys|].
  intros k p Hin.
  assert (Hk : In k labels).
  { rewrite <- Hkeys. change k with (fst (k, p)). now apply in_map. }
  apply In_get in Hin.
  2:{ rewrite Hkeys. exact labels_NoDup. }
  unfold bayes_pass in Hin. rewrite get_tally in Hin.
  assert (Ex : existsb (fun x => String.eqb x k) labels = true)
    by now apply existsb_eqb_In'.
  rewrite Ex, (filter_eqb_NoDup _ _ labels_NoDup Hk) in Hin. simpl in Hin.
  injection Hin as <-. f_equal.
  unfold Dict.get_or. destruct Hc as [[-> ->]| ->]; [reflexivity|].
  now rewrite get_map_keys, Ex.
Qed.

Lemma accumulate_from (rs : list PersonaResponse.t) (v : string -> Q) :
  fold_left inner rs (map (fun l => (l, v l)) labels) =
  map (fun l => (l, fold_left (fun p r => p * F r l) rs (v l))) labels.
Proof.
  revert v. induction rs as [|r rs IH]; intros v; simpl; [reflexivity|].
  rewrite (inner_values _ r v) by now right.
  apply (IH (fun l => v l * F r l)).
Qed.

(** The loops of [BayesianJudge.judge] leave, for every label, the product
    over the responses of [max(1e-6, prior * likelihood)]. *)
Lemma accumulate_closed_form (r : PersonaResponse.t) (rs : list PersonaResponse.t) :
  BayesianJudge.accumulate persona_priors labels (r :: rs) =
  map (fun l => (l, fold_left (fun p r => p * F r l) (r :: rs) 1)) labels.
Proof.
  change (BayesianJudge.accumulate persona_priors labels (r :: rs))
    with (fold_left inner rs (inner [] r)).
  rewrite (inner_values [] r (fun _ => 1)) by now left.
  apply (accumulate_from rs (fun l => 1 * F r l)).
Qed.

End Bayes.

Lemma py_max2_lower (a b : Q) : a <= py_max2 a b.
Proof.
  unfold py_max2. destruct (Qltb a b) eqn:E.
  - apply Qltb_lt in E. now apply Qlt_le_weak.
  - apply Qle_refl.
Qed.

Lemma factor_pos pp labels r l : 0 < BayesianJudge.factor pp labels r l.
Proof.
  unfold BayesianJudge.factor.
  eapply Qlt_le_trans; [|apply py_max2_lower]. reflexivity.
Qed.

Lemma fold_product_pos {A : Type} (f : A -> Q) (xs : list A) (v : Q) :
  (forall x, 0 < f x) -> 0 < v -> 0 < fold_left (fun p x => p * f x) xs v.
Proof.
  intros Hf. revert v. induction xs as [|x xs IH]; intros v Hv; simpl; [exact Hv|].
  apply IH. apply Qmult_lt_0_compat; [exact Hv|apply Hf].
Qed.

Lemma bayes_product_pos pp labels rs l : 0 < bayes_product pp labels rs l.
Proof.
  unfold bayes_product.
  apply (fold_product_pos (fun r => BayesianJudge.factor pp labels r l)).
  - intros r. apply factor_pos.
  - reflexivity.
Qed.

Lemma py_sum_map_pos {A : Type} (f : A -> Q) (xs : list A) :
  xs <> [] -> (forall x, 0 < f x) -> 0 < py_sum (map f xs).
Proof.
  intros Hne Hf. destruct xs as [|x xs]; [congruence|]. clear Hne.
  revert x. induction xs as [|y xs IH]; intros x; simpl.
  - rewrite py_sum_cons. unfold py_sum. simpl. rewrite Qplus_0_r. apply Hf.
  - rewrite py_sum_cons. specialize (IH y). simpl in IH.
    rewrite <- (Qplus_0_r 0). apply Qplus_lt_le_compat; [apply Hf|].
    now apply Qlt_le_weak.
Qed.

Lemma py_sum_map_div {A : Type} (f : A -> Q) (t : Q) (xs : list A) :
  py_sum (map (fun x => f x / t) xs) == py_sum (map f xs) / t.
Proof.
  induction xs as [|x xs IH]; simpl.
  - unfold py_sum. simpl. unfold Qdiv. ring.
  - rewrite !py_sum_cons, IH. unfold Qdiv. ring.
Qed.

Lemma float_or_nonzero (x d : Q) : ~ x == 0 -> float_or x d = x.
Proof.
  intros H. unfold float_or. destruct (Qeq_bool x 0) eqn:E; [|reflexivity].
  apply Qeq_bool_iff in E. contradiction.
Qed.

Lemma values_map_keys {V : Type} (f : string -> V) (labels : list string) :
  Dict.values (map (fun k => (k, f k)) labels) = map f labels.
Proof.
  unfold Dict.values. rewrite map_map. reflexivity.
Qed.

Lemma normalise_closed_form pp labels r rs :
  NoDup labels -> labels <> [] ->
  BayesianJudge.normalise (BayesianJudge.accumulate pp labels (r :: rs)) =
  map (fun l => (l, bayes_posterior pp labels (r :: rs) l)) labels.
Proof.
  intros Hnd Hne. rewrite accumulate_closed_form by assumption.
  unfold BayesianJudge.normalise. rewrite values_map_keys.
  fold (bayes_product pp labels (r :: rs)).
  rewrite float_or_nonzero.
  - rewrite map_map. reflexivity.
  - intros H.
    pose proof (py_sum_map_pos (bayes_product pp labels (r :: rs)) labels Hne
                  (bayes_product_pos pp labels (r :: rs))) as Hpos.
    rewrite H in Hpos. discriminate.
Qed.






(** ** The label set and the voting judges *)

(** C10. The verdicts of [MajorityVoteJudge.judge] and of
    [WeightedVoteJudge.judge] are the same for any two values of the [labels]
    argument, and a returned label may lie outside the configured labels:
    with the final round of [Scenario.split_round] and configured labels
    ["allow"; "deny"], the first judge answers ["unsafe"] and the second
    ["safe"]. *)
Theorem voting_judges_ignore_labels :
  (forall transcript labels1 labels2,
     MajorityVoteJudge.judge transcript labels1 =
     MajorityVoteJudge.judge transcript labels2) /\
  (forall transcript labels1 labels2,
     WeightedVoteJudge.judge transcript labels1 =
     WeightedVoteJudge.judge transcript labels2) /\
  (let transcript := Scenario.transcript [Scenario.split_round] in
   let labels := ["allow"; "deny"] in
   DebateTranscript.final_round transcript <> [] /\
   (exists v, MajorityVoteJudge.judge transcript labels = Ok v /\
              Verdict.label v = "unsafe" /\ ~ In (Verdict.label v) labels) /\
   (exists v, WeightedVoteJudge.judge transcript labels = Ok v /\
              Verdict.label v = "safe" /\ ~ In (Verdict.label v) labels)).
Proof.
  split; [reflexivity|]. split; [reflexivity|].
  split; [discriminate|]. split.
  - eexists. split; [vm_compute; reflexivity|]. split; [reflexivity|].
    simpl. intuition discriminate.
  - eexists. split; [vm_compute; reflexivity|]. split; [reflexivity|].
    simpl. intuition discriminate.
Qed.

(** ** Parsing reviewer replies *)

Section Parsing.

Context {RT : Runtime}.

(** When decoding fails or yields something that is not an object, the
    fallback response is returned. *)
Lemma parse_fallback (raw persona_name : string) (labels : option (list string)) :
  (forall fields, json_loads (strip_markdown_fences raw) <> Some (JObj fields)) ->
  _parse_persona_response raw persona_name labels =
  Ok (fallback_response raw persona_name labels).
Proof.
  intros H. unfold _parse_persona_response, safe_json_parse.
  destruct (json_loads (strip_markdown_fences raw)) as [[| | | | |fields]|];
    try reflexivity.
  exfalso. now apply (H fields).
Qed.

(** C8 (divergence). When the reply decodes to an object whose
    ["confidence"] entry is [null], a list or an object,
    [_parse_persona_response] raises [TypeError] instead of returning a
    response. *)
Theorem parse_persona_response_raises
    (raw persona_name : string) (labels : option (list string))
    (fields : Dict.t JSON) (value : JSON) :
  json_loads (strip_markdown_fences raw) = Some (JObj fields) ->
  Dict.get fields "confidence" = Some value ->
  py_float value = Raise TypeError ->
  _parse_persona_response raw persona_name labels = Raise TypeError.
Proof.
  intros Hload Hget Hfloat.
  unfold _parse_persona_response, safe_json_parse. rewrite Hload.
  unfold Dict.get_or. rewrite Hget.
  unfold clamp_confidence. rewrite Hfloat. reflexivity.
Qed.

End Parsing.

Lemma parse_persona_response_raises_witness :
  @_parse_persona_response RefRuntime.runtime null_confidence_reply "reviewer"
    (Some ["safe"; "unsafe"]) = Raise TypeError.
Proof.
  apply (@parse_persona_response_raises RefRuntime.runtime
           null_confidence_reply "reviewer" (Some ["safe"; "unsafe"])
           [("label", JStr "unsafe"); ("confidence", JNull)] JNull).
  - vm_compute. reflexivity.
  - reflexivity.
  - reflexivity.
Defined.

(** The scenario of the literal text [not-json]. *)
Lemma parse_not_json :
  @_parse_persona_response RefRuntime.runtime "not-json" "reviewer"
    (Some ["safe"; "unsafe"]) =
  Ok (fallback_response "not-json" "reviewer" (Some ["safe"; "unsafe"])).
Proof.
  apply (@parse_fallback RefRuntime.runtime). intros fields. vm_compute. discriminate.
Qed.

(** ** Deliberation rounds *)

Lemma bind_Ok {S A B : Type} (m : M S A) (k : A -> M S B) (s s' : S) (b : B) :
  bind m k s = (Ok b, s') ->
  exists a s1, m s = (Ok a, s1) /\ k a s1 = (Ok b, s').
Proof.
  unfold bind. destruct (m s) as [[a|e] s1]; intros H; [|discriminate].
  now exists a, s1.
Qed.

Lemma ret_Ok {S A : Type} (a b : A) (s s' : S) :
  ret a s = (Ok b, s') -> a = b /\ s = s'.
Proof. unfold ret. intros H. now injection H. Qed.

Lemma usage_after_app rs1 rs2 totals :
  usage_after (rs1 ++ rs2) totals = usage_after rs2 (usage_after rs1 totals).
Proof. apply fold_left_app. Qed.

Section Deliberation.

Context {RT : Runtime} {W : World}.
Variable DEFAULT_MODEL : string.
Variable self : DebateEngine.t.
Variables (text : string) (primary_result : ClassificationResult.t)
          (labels : list string) (max_cost_usd : option Q).

Lemma deliberation_loop_spec (n : nat) :
  forall rounds totals s rounds' totals' s',
    DebateEngine.deliberation_loop self n text primary_result labels max_cost_usd
      rounds totals s = (Ok (rounds', totals'), s') ->
    exists extra,
      rounds' = (rounds ++ extra)%list /\
      (length extra <= n)%nat /\
      totals' = usage_after extra totals /\
      (forall pre r post,
          extra = (pre ++ r :: post)%list -> post <> [] ->
          _consensus_reached r = false /\
          over_budget max_cost_usd (snd (usage_after (pre ++ [r]) totals)) = false) /\
      ((length extra < n)%nat ->
       exists pre r,
         extra = (pre ++ [r])%list /\
         (over_budget max_cost_usd (snd totals') = true \/
          _consensus_reached r = true)).
Proof.
  induction n as [|n IH]; intros rounds totals s rounds' totals' s' H.
  - simpl in H. apply ret_Ok in H. destruct H as [H _]. injection H as <- <-.
    exists []. rewrite app_nil_r.
    split; [reflexivity|]. split; [simpl; lia|]. split; [reflexivity|]. split.
    + intros pre r post E. now destruct pre.
    + simpl. lia.
  - simpl in H. apply bind_Ok in H. destruct H as (current & s1 & _ & H).
    assert (Hone : forall pre r post,
               [current] = (pre ++ r :: post)%list -> post <> [] -> False).
    { intros pre r post E Hpost.
      destruct pre as [|p pre']; simpl in E; injection E as _ E.
      - now subst post.
      - now destruct pre'. }
    destruct (over_budget max_cost_usd (snd (add_usage current totals))) eqn:Eb;
      [|destruct (_consensus_reached current) eqn:Ec].
    + apply ret_Ok in H. destruct H as [H _]. injection H as <- <-.
      exists [current].
      split; [reflexivity|]. split; [simpl; lia|]. split; [reflexivity|]. split.
      * intros pre r post E Hpost. exfalso. exact (Hone pre r post E Hpost).
      * intros _. exists [], current. split; [reflexivity|]. now left.
    + apply ret_Ok in H. destruct H as [H _]. injection H as <- <-.
      exists [current].
      split; [reflexivity|]. split; [simpl; lia|]. split; [reflexivity|]. split.
      * intros pre r post E Hpost. exfalso. exact (Hone pre r post E Hpost).
      * intros _. exists [], current. split; [reflexivity|]. now right.
    + apply IH in H. destruct H as (extra & -> & Hlen & -> & Hmid & Hlast).
      exists (current :: extra). split; [now rewrite <- app_assoc|].
      split; [simpl; lia|]. split; [reflexivity|]. split.
      * intros pre r post E Hpost.
        destruct pre as [|p pre']; simpl in E; injection E as <- E.
        -- split; [exact Ec|exact Eb].
        -- apply (Hmid pre' r post E Hpost).
      * intros Hlt. destruct Hlast as (pre & r & -> & Hstop); [simpl in Hlt; lia|].
        exists (current :: pre), r. split; [reflexivity|exact Hstop].
Qed.


End Deliberation.

(** ** The orchestrator *)

Section JuryFacts.

Context {W : World}.
Variable self : Jury.t.

Lemma classify_fast_path (text : string) (s : Jury.State)
    (primary : ClassificationResult.t) (w1 : St) :
  Classifier.classify (Jury.classifier self) text (Jury.world s) = (Ok primary, w1) ->
  escalates self primary = false ->
  Jury.classify self text s =
  (Ok (Jury.fast_path_verdict primary (duration (Jury.world s) w1)),
   Jury.mkState (Jury.incr_fast_path (Jury.incr_total (Jury._stats s)))
                (Jury.calls s ++ [CallClassifier text])%list w1).
Proof.
  intros Hc He. unfold Jury.classify. unfold_monad. simpl.
  rewrite Hc. simpl. unfold escalates in He. rewrite He. simpl.
  reflexivity.
Qed.

(** What any call of [classify] does to the counters, and what it says
    about escalation. *)
Lemma classify_outcome (text : string) (s s' : Jury.State) (r : Res Verdict.t) :
  Jury.classify self text s = (r, s') ->
  (exists e w1,
      Classifier.classify (Jury.classifier self) text (Jury.world s) = (Raise e, w1) /\
      r = Raise e /\ Jury._stats s' = Jury._stats s) \/
  (exists primary w1,
      Classifier.classify (Jury.classifier self) text (Jury.world s) = (Ok primary, w1) /\
      Jury._stats s' =
        (if escalates self primary then Jury.incr_escalated else Jury.incr_fast_path)
          (Jury.incr_total (Jury._stats s)) /\
      (forall v, r = Ok v -> Verdict.was_escalated v = escalates self primary)).
Proof.
  unfold Jury.classify, Jury.debate_and_finish, Jury.judge_and_finish.
  unfold_monad. simpl.
  destruct (Classifier.classify (Jury.classifier self) text (Jury.world s))
    as [[primary|e] w1] eqn:Hc; simpl.
  2:{ intros H. injection H as <- <-. left. exists e, w1. now repeat split. }
  fold (escalates self primary).
  intros H. right. exists primary, w1. split; [reflexivity|].
  destruct (escalates self primary) eqn:He; simpl in H.
  - revert H. split_calls; intros H; injection H as <- <-; simpl;
      (split; [reflexivity|]); intros v Hv; try discriminate;
      injection Hv as <-; reflexivity.
  - injection H as <- <-. simpl. split; [reflexivity|].
    intros v Hv. injection Hv as <-. reflexivity.
Qed.

Lemma classify_cost_guard (text : string) (s : Jury.State)
    (primary : ClassificationResult.t) (w1 w2 w3 : St) (u : unit)
    (transcript : DebateTranscript.t) :
  Classifier.classify (Jury.classifier self) text (Jury.world s) = (Ok primary, w1) ->
  escalates self primary = true ->
  notify_escalation self text primary w1 = (Ok u, w2) ->
  Debater.debate (Jury.debate_engine self) text primary
    (Classifier.labels (Jury.classifier self)) (Jury.max_debate_cost_usd self) w2
    = (Ok transcript, w3) ->
  Jury.cost_guard_trips self transcript = true ->
  Jury.classify self text s =
  (Ok (Jury.cost_guard_verdict primary transcript (duration (Jury.world s) w3)),
   Jury.mkState (Jury.incr_escalated (Jury.incr_total (Jury._stats s)))
                (Jury.calls s ++ [CallClassifier text]
                   ++ escalation_calls self text primary ++ [CallDebate text primary])%list
                w3).
Proof.
  intros Hc He Hn Hd Hg.
  unfold Jury.classify, Jury.debate_and_finish. unfold_monad. simpl.
  rewrite Hc. simpl. unfold escalates in He. rewrite He. simpl.
  unfold notify_escalation, escalation_calls in *.
  destruct (Jury.on_escalation self) as [callback|]; simpl.
  - rewrite Hn. simpl. rewrite Hd. simpl. rewrite Hg. simpl.
    now rewrite <- !app_assoc.
  - unfold ret in Hn. injection Hn as _ <-.
    rewrite Hd. simpl. rewrite Hg. simpl. now rewrite <- !app_assoc.
Qed.

Lemma step_Start (text : string) (s : Jury.State) :
  (exists start primary,
      fst (Jury.step self (Jury.Start text) s) = Jury.Counted text start primary /\
      Jury._stats (snd (Jury.step self (Jury.Start text) s)) =
        Jury.incr_total (Jury._stats s)) \/
  (exists e,
      fst (Jury.step self (Jury.Start text) s) = Jury.Failed e /\
      Jury._stats (snd (Jury.step self (Jury.Start text) s)) = Jury._stats s).
Proof.
  unfold Jury.step, Jury.settle. unfold_monad. simpl.
  destruct (Classifier.classify (Jury.classifier self) text (Jury.world s))
    as [[primary|e] w1]; simpl.
  - left. now exists (perf_counter (Jury.world s)), primary.
  - right. now exists e.
Qed.

Lemma step_Counted (text : string) (start : Q) (primary : ClassificationResult.t)
    (s : Jury.State) :
  resting (fst (Jury.step self (Jury.Counted text start primary) s)) /\
  Jury._stats (snd (Jury.step self (Jury.Counted text start primary) s)) =
    (if escalates self primary then Jury.incr_escalated else Jury.incr_fast_path)
      (Jury._stats s).
Proof.
  unfold Jury.step, Jury.settle. unfold_monad. simpl.
  fold (escalates self primary).
  destruct (escalates self primary); simpl; [|now split].
  split_calls; now split.
Qed.

Lemma step_resting (task : Jury.Task) (s : Jury.State) :
  resting task ->
  (forall text, task <> Jury.Start text) ->
  resting (fst (Jury.step self task s)) /\
  Jury._stats (snd (Jury.step self task s)) = Jury._stats s.
Proof.
  intros Hr Hs. destruct task as [text|text start primary|text start primary|
                                  start primary transcript|v|e];
    try (now split).
  - now contradiction (Hs text).
  - unfold Jury.step, Jury.settle. unfold_monad. simpl. split_calls; now split.
  - unfold Jury.step, Jury.settle, Jury.judge_and_finish. unfold_monad. simpl.
    split_calls; now split.
Qed.

Lemma balanced_incr (st : JuryStats.t) (b : bool) :
  Jury.balanced st ->
  Jury.balanced ((if b then Jury.incr_escalated else Jury.incr_fast_path)
                   (Jury.incr_total st)).
Proof.
  unfold Jury.balanced. destruct st as [t f e], b; simpl; lia.
Qed.

Lemma resume_balanced (task : Jury.Task) (s : Jury.State) :
  resting task -> Jury.balanced (Jury._stats s) ->
  resting (fst (Jury.resume self task s)) /\
  Jury.balanced (Jury._stats (snd (Jury.resume self task s))).
Proof.
  intros Hr Hb.
  destruct task as [text|text start primary|text start primary|
                    start primary transcript|v|e].
  - unfold Jury.resume.
    destruct (step_Start text s) as [(start & primary & Ht & Hs)|(e & Ht & Hs)];
      destruct (Jury.step self (Jury.Start text) s) as [task' s1];
      simpl in Ht, Hs; subst task'.
    + destruct (step_Counted text start primary s1) as [Hr' Hs'].
      split; [exact Hr'|]. rewrite Hs', Hs. now apply balanced_incr.
    + simpl. split; [exact I|]. now rewrite Hs.
  - destruct Hr.
  - destruct (step_resting (Jury.Debating text start primary) s Hr) as [H1 H2];
      [discriminate|]. unfold Jury.resume. now rewrite H2.
  - destruct (step_resting (Jury.Judging start primary transcript) s Hr) as [H1 H2];
      [discriminate|]. unfold Jury.resume. now rewrite H2.
  - now split.
  - now split.
Qed.

Lemma Forall_replace_nth {A : Type} (P : A -> Prop) (i : nat) (x : A) (xs : list A) :
  P x -> Forall P xs -> Forall P (Jury.replace_nth i x xs).
Proof.
  intros Hx H. revert i. induction H as [|y ys Hy Hys IH]; intros [|i]; simpl;
    constructor; auto.
Qed.

Lemma schedule_step_balanced (concurrency : Z) (i : nat)
    (tasks : list Jury.Task) (s : Jury.State) :
  Forall resting tasks -> Jury.balanced (Jury._stats s) ->
  Forall resting (fst (Jury.schedule_step self concurrency i (tasks, s))) /\
  Jury.balanced (Jury._stats (snd (Jury.schedule_step self concurrency i (tasks, s)))).
Proof.
  intros Hall Hb. unfold Jury.schedule_step.
  destruct (nth_error tasks i) as [task|] eqn:En; [|now split].
  assert (Hr : resting task).
  { apply nth_error_In in En. rewrite Forall_forall in Hall. now apply Hall. }
  pose proof (resume_balanced task s Hr Hb) as [H1 H2].
  assert (Hgo : let '(task', s') := Jury.resume self task s in
                Forall resting (Jury.replace_nth i task' tasks) /\
                Jury.balanced (Jury._stats s')).
  { destruct (Jury.resume self task s) as [task' s']. simpl in H1, H2.
    split; [now apply Forall_replace_nth|exact H2]. }
  destruct task as [text|text start primary|text start primary|
                    start primary transcript|v|e];
    try (destruct (Jury.resume self _ s) as [task' s']; exact Hgo).
  destruct (Z.of_nat (Jury.in_flight tasks) <? Z.max 1 concurrency)%Z.
  - destruct (Jury.resume self _ s) as [task' s']. exact Hgo.
  - now split.
Qed.

(** Four moves take a call from its start to its end, with the result and
    the final state of [classify]. *)
Lemma run_classify (text : string) (s : Jury.State) :
  exists r,
    Jury.result_of (fst (Jury.run self 4 (Jury.Start text) s)) = Some r /\
    Jury.classify self text s = (r, snd (Jury.run self 4 (Jury.Start text) s)).
Proof.
  unfold Jury.run, Jury.step, Jury.settle, Jury.classify, Jury.debate_and_finish,
    Jury.judge_and_finish.
  unfold_monad. cbn.
  destruct (Classifier.classify (Jury.classifier self) text (Jury.world s))
    as [[primary|e] w1]; cbn; [|eexists; split; reflexivity].
  destruct (Jury._should_escalate self primary && negb (is_empty (Jury.personas self)));
    cbn; [|eexists; split; reflexivity].
  destruct (Jury.on_escalation self) as [callback|]; cbn.
  - destruct (callback text primary w1) as [[u|e] w2]; cbn;
      [|eexists; split; reflexivity].
    destruct (Debater.debate (Jury.debate_engine self) text primary
                (Classifier.labels (Jury.classifier self))
                (Jury.max_debate_cost_usd self) w2) as [[transcript|e] w3]; cbn;
      [|eexists; split; reflexivity].
    destruct (Jury.cost_guard_trips self transcript); cbn;
      [eexists; split; reflexivity|].
    split_calls; eexists; split; reflexivity.
  - destruct (Debater.debate (Jury.debate_engine self) text primary
                (Classifier.labels (Jury.classifier self))
                (Jury.max_debate_cost_usd self) w1) as [[transcript|e] w3]; cbn;
      [|eexists; split; reflexivity].
    destruct (Jury.cost_guard_trips self transcript); cbn;
      [eexists; split; reflexivity|].
    split_calls; eexists; split; reflexivity.
Qed.

Lemma classify_batch_balanced (texts : list string) (concurrency : Z)
    (sched : list nat) (s : Jury.State) :
  Jury.balanced (Jury._stats s) ->
  Forall resting (fst (Jury.classify_batch self texts concurrency sched s)) /\
  Jury.balanced (Jury._stats (snd (Jury.classify_batch self texts concurrency sched s))).
Proof.
  intros Hb. unfold Jury.classify_batch.
  assert (H0 : Forall resting (map Jury.Start texts)).
  { apply Forall_forall. intros task Hin. apply in_map_iff in Hin.
    destruct Hin as (text & <- & _). exact I. }
  revert H0 Hb. generalize (map Jury.Start texts) as tasks. revert s.
  induction sched as [|i sched IH]; intros s tasks H0 Hb; [now split|].
  cbn [fold_left].
  destruct (schedule_step_balanced concurrency i tasks s H0 Hb) as [H1 H2].
  destruct (Jury.schedule_step self concurrency i (tasks, s)) as [tasks' s'].
  now apply IH.
Qed.

Lemma float_or_zero (c : Q) : float_or c 0 == c.
Proof.
  unfold float_or. destruct (Qeq_bool c 0) eqn:E; [|reflexivity].
  apply Qeq_bool_iff in E. now rewrite E.
Qed.

Lemma step_counters (task : Jury.Task) (s : Jury.State) :
  counters_at task (Jury._stats s) ->
  counters_at (fst (Jury.step self task s)) (Jury._stats (snd (Jury.step self task s))).
Proof.
  intros H.
  destruct task as [text|text start primary|text start primary|
                    start primary transcript|v|e].
  - destruct (step_Start text s) as [(start & primary & -> & ->)|(e & -> & ->)].
    + simpl in *. unfold Jury.balanced in H.
      destruct (Jury._stats s) as [t f e]. simpl in *. lia.
    + exact H.
  - destruct (step_Counted text start primary s) as [Hr ->].
    assert (Hb : Jury.balanced
                   ((if escalates self primary then Jury.incr_escalated
                     else Jury.incr_fast_path) (Jury._stats s))).
    { simpl in H. unfold Jury.balanced.
      destruct (Jury._stats s) as [t f e], (escalates self primary); simpl in *; lia. }
    destruct (fst (Jury.step self (Jury.Counted text start primary) s));
      try exact Hb. destruct Hr.
  - destruct (step_resting (Jury.Debating text start primary) s I) as [Hr ->];
      [discriminate|].
    destruct (fst (Jury.step self (Jury.Debating text start primary) s));
      try exact H. destruct Hr.
  - destruct (step_resting (Jury.Judging start primary transcript) s I) as [Hr ->];
      [discriminate|].
    destruct (fst (Jury.step self (Jury.Judging start primary transcript) s));
      try exact H. destruct Hr.
  - exact H.
  - exact H.
Qed.

Lemma run_counters (n : nat) (task : Jury.Task) (s : Jury.State) :
  counters_at task (Jury._stats s) ->
  counters_at (fst (Jury.run self n task s)) (Jury._stats (snd (Jury.run self n task s))).
Proof.
  revert task s. induction n as [|n IH]; intros task s H; [exact H|].
  cbn [Jury.run]. pose proof (step_counters task s H) as H'.
  destruct (Jury.step self task s) as [task' s']. now apply IH.
Qed.

(** C1 (amended). Once the classifier has answered, [Jury.classify]
    escalates exactly when the decision of [_should_escalate] is positive
    and at least one persona is configured. The decision is the override's
    value when an override is configured, without looking at the threshold,
    and otherwise the strict comparison [confidence < threshold], so that
    equality does not escalate. Escalation shows in the [escalated] and
    [fast_path] counters and in the [was_escalated] field of a returned
    verdict. *)
Theorem classify_escalates_iff (text : string) (s s' : Jury.State)
    (r : Res Verdict.t) (primary : ClassificationResult.t) (w1 : St) :
  Classifier.classify (Jury.classifier self) text (Jury.world s) = (Ok primary, w1) ->
  Jury.classify self text s = (r, s') ->
  let confidence := ClassificationResult.confidence primary in
  let decision := Jury._should_escalate self primary in
  (forall override,
      Jury.escalation_override self = Some override -> decision = override primary) /\
  (Jury.escalation_override self = None ->
   (decision = true <-> confidence < Jury.threshold self) /\
   (confidence == Jury.threshold self -> decision = false)) /\
  let escalated := decision && negb (is_empty (Jury.personas self)) in
  (escalated = true <-> decision = true /\ Jury.personas self <> []) /\
  JuryStats.escalated (Jury._stats s') =
    (JuryStats.escalated (Jury._stats s) + (if escalated then 1 else 0))%Z /\
  JuryStats.fast_path (Jury._stats s') =
    (JuryStats.fast_path (Jury._stats s) + (if escalated then 0 else 1))%Z /\
  (forall v, r = Ok v -> Verdict.was_escalated v = escalated).
Proof.
  intros Hc H confidence decision. subst confidence decision.
  split; [|split].
  - intros override Ho. unfold Jury._should_escalate. now rewrite Ho.
  - intros Ho. unfold Jury._should_escalate. rewrite Ho. split.
    + apply Qltb_lt.
    + intros E. apply Qltb_ge. rewrite E. apply Qle_refl.
  - cbv zeta. split.
    + rewrite andb_true_iff, negb_true_iff.
      destruct (Jury.personas self); simpl; intuition congruence.
    + apply classify_outcome in H.
      destruct H as [(e & w & Hc' & _)|(primary' & w & Hc' & Hs & Hv)];
        rewrite Hc in Hc'; [discriminate|].
      injection Hc' as <- <-. unfold escalates in Hs, Hv.
      split; [|split; [|exact Hv]]; rewrite Hs;
        destruct (Jury._should_escalate self primary
                  && negb (is_empty (Jury.personas self)));
        destruct (Jury._stats s); simpl; lia.
Qed.

(** C2. When the classifier has answered and either no escalation is
    decided or no persona is configured, [Jury.classify] returns the
    fast-path verdict: label and confidence of the primary result,
    [was_escalated = False], no transcript, strategy ["primary_classifier"],
    the primary result's cost or 0; [fast_path] and [total] grow by one,
    [escalated] stays, and neither debate nor judge is called. *)
Theorem classify_fast_path_verdict (text : string) (s : Jury.State)
    (primary : ClassificationResult.t) (w1 : St) :
  Classifier.classify (Jury.classifier self) text (Jury.world s) = (Ok primary, w1) ->
  Jury._should_escalate self primary = false \/ Jury.personas self = [] ->
  exists v s',
    Jury.classify self text s = (Ok v, s') /\
    Verdict.label v = ClassificationResult.label primary /\
    Verdict.confidence v = ClassificationResult.confidence primary /\
    Verdict.was_escalated v = false /\
    Verdict.debate_transcript v = None /\
    Verdict.judge_strategy v = "primary_classifier" /\
    Verdict.primary_result v = primary /\
    (exists cost,
        Verdict.total_cost_usd v = Some cost /\
        cost == match ClassificationResult.cost_usd primary with
                | Some c => c
                | None => 0
                end) /\
    JuryStats.fast_path (Jury._stats s') = (JuryStats.fast_path (Jury._stats s) + 1)%Z /\
    JuryStats.total (Jury._stats s') = (JuryStats.total (Jury._stats s) + 1)%Z /\
    JuryStats.escalated (Jury._stats s') = JuryStats.escalated (Jury._stats s) /\
    Jury.calls s' = (Jury.calls s ++ [CallClassifier text])%list.
Proof.
  intros Hc Hno.
  assert (He : escalates self primary = false).
  { unfold escalates. destruct Hno as [-> | ->]; [reflexivity|].
    simpl. apply andb_false_r. }
  eexists. eexists. split; [exact (classify_fast_path text s primary w1 Hc He)|].
  simpl. repeat (split; [reflexivity|]). split; [|now repeat split].
  eexists. split; [reflexivity|].
  destruct (ClassificationResult.cost_usd primary) as [c|]; simpl.
  - apply float_or_zero.
  - reflexivity.
Qed.

(** C3. When a call has escalated, a maximum debate cost is configured and
    the cost of the transcript returned by the debate exceeds it,
    [Jury.classify] returns the primary label and confidence under the
    strategy ["cost_guard_primary_fallback"], with [was_escalated = True],
    the transcript and its cost. The call ends in the world the debate left
    and records no call of the judge. *)
Theorem classify_cost_guard_verdict (text : string) (s : Jury.State)
    (primary : ClassificationResult.t) (w1 w2 w3 : St) (u : unit)
    (transcript : DebateTranscript.t) (limit cost : Q) :
  Classifier.classify (Jury.classifier self) text (Jury.world s) = (Ok primary, w1) ->
  Jury._should_escalate self primary = true ->
  Jury.personas self <> [] ->
  notify_escalation self text primary w1 = (Ok u, w2) ->
  Debater.debate (Jury.debate_engine self) text primary
    (Classifier.labels (Jury.classifier self)) (Jury.max_debate_cost_usd self) w2
    = (Ok transcript, w3) ->
  Jury.max_debate_cost_usd self = Some limit ->
  DebateTranscript.total_cost_usd transcript = Some cost ->
  limit < cost ->
  exists v s',
    Jury.classify self text s = (Ok v, s') /\
    Verdict.label v = ClassificationResult.label primary /\
    Verdict.confidence v = ClassificationResult.confidence primary /\
    Verdict.judge_strategy v = "cost_guard_primary_fallback" /\
    Verdict.was_escalated v = true /\
    Verdict.total_cost_usd v = Some cost /\
    Verdict.debate_transcript v = Some transcript /\
    Verdict.primary_result v = primary /\
    Jury.world s' = w3 /\
    In (CallDebate text primary) (Jury.calls s') /\
    (forall t, In (CallJudge t) (Jury.calls s') -> In (CallJudge t) (Jury.calls s)).
Proof.
  intros Hc Hd Hp Hn Hdeb Hmax Hcost Hlt.
  assert (He : escalates self primary = true).
  { unfold escalates. rewrite Hd. destruct (Jury.personas self); [congruence|reflexivity]. }
  assert (Hg : Jury.cost_guard_trips self transcript = true).
  { unfold Jury.cost_guard_trips. rewrite Hmax, Hcost. now apply Qltb_lt. }
  eexists. eexists.
  split; [exact (classify_cost_guard text s primary w1 w2 w3 u transcript
                   Hc He Hn Hdeb Hg)|].
  simpl. repeat (split; [reflexivity|]). split; [exact Hcost|].
  repeat (split; [reflexivity|]). split.
  - apply in_or_app. right. right. apply in_or_app. right. now left.
  - intros t Hin. apply in_app_or in Hin. destruct Hin as [Hin|Hin]; [exact Hin|].
    simpl in Hin. destruct Hin as [Hin|Hin]; [discriminate|].
    apply in_app_or in Hin. destruct Hin as [Hin|[Hin|[]]]; [|discriminate].
    unfold escalation_calls in Hin.
    destruct (Jury.on_escalation self); simpl in Hin;
      [destruct Hin as [Hin|[]]; discriminate|destruct Hin].
Qed.


End JuryFacts.

(** ** Scenarios *)

Lemma classify_escalates_iff_witness :
  exists r s',
    Jury.classify
      (Script.jury (Scenario.primary "unsafe" (1 # 10)) [Script.persona "p1"] None)
      "text" Script.fresh = (r, s') /\
    JuryStats.escalated (Jury._stats s') = 1%Z.
Proof.
  destruct (Jury.classify
              (Script.jury (Scenario.primary "unsafe" (1 # 10)) [Script.persona "p1"] None)
              "text" Script.fresh) as [r s'] eqn:E.
  exists r, s'. split; [reflexivity|].
  destruct (classify_escalates_iff
              (Script.jury (Scenario.primary "unsafe" (1 # 10)) [Script.persona "p1"] None)
              "text" Script.fresh s' r (Scenario.primary "unsafe" (1 # 10)) 1%nat
              eq_refl E) as (_ & _ & _ & H & _).
  exact H.
Defined.

(** C1 (counterexample). Without personas a confidence of 0.1 under the
    threshold 0.7, with no override, does not escalate: the verdict comes
    from the fast path and [escalated] stays 0. *)
Lemma classify_without_personas_never_escalates :
  let primary := Scenario.primary "unsafe" (1 # 10) in
  let jury := Script.jury primary [] None in
  Jury.escalation_override jury = None /\
  ClassificationResult.confidence primary < Jury.threshold jury /\
  exists v s',
    Jury.classify jury "text" Script.fresh = (Ok v, s') /\
    Verdict.was_escalated v = false /\
    Verdict.judge_strategy v = "primary_classifier" /\
    JuryStats.escalated (Jury._stats s') = 0%Z /\
    JuryStats.fast_path (Jury._stats s') = 1%Z.
Proof.
  split; [reflexivity|]. split; [reflexivity|].
  eexists. eexists. split; [vm_compute; reflexivity|].
  repeat split.
Qed.

Lemma classify_fast_path_verdict_witness :
  exists v s',
    Jury.classify (Script.jury (Scenario.primary "safe" (95 # 100)) [] None)
      "text" Script.fresh = (Ok v, s') /\
    Verdict.label v = "safe" /\
    Verdict.confidence v = 95 # 100 /\
    Verdict.was_escalated v = false /\
    Verdict.debate_transcript v = None.
Proof.
  destruct (classify_fast_path_verdict
              (Script.jury (Scenario.primary "safe" (95 # 100)) [] None)
              "text" Script.fresh (Scenario.primary "safe" (95 # 100)) 1%nat)
    as (v & s' & H & Hl & Hc & Hw & Ht & _).
  - reflexivity.
  - right. reflexivity.
  - exists v, s'. repeat split; assumption.
Defined.

Lemma classify_cost_guard_verdict_witness :
  exists v s',
    Jury.classify
      (Script.jury (Scenario.primary "unsafe" (1 # 10))
                   [Script.persona "p1"; Script.persona "p2"] (Some (1 # 1000)))
      "text" Script.fresh = (Ok v, s') /\
    Verdict.label v = "unsafe" /\
    Verdict.judge_strategy v = "cost_guard_primary_fallback" /\
    forall t, ~ In (CallJudge t) (Jury.calls s').
Proof.
  set (primary := Scenario.primary "unsafe" (1 # 10)).
  set (jury := Script.jury primary [Script.persona "p1"; Script.persona "p2"]
                           (Some (1 # 1000))).
  destruct (Debater.debate (Jury.debate_engine jury) "text" primary
              (Classifier.labels (Jury.classifier jury))
              (Jury.max_debate_cost_usd jury) 1%nat) as [[transcript|e] w3] eqn:E.
  - destruct (classify_cost_guard_verdict jury "text" Script.fresh primary
                1%nat 1%nat w3 tt transcript (1 # 1000) (200 # 10000))
      as (v & s' & H & Hl & _ & Hj & _ & _ & _ & _ & _ & _ & Hcalls).
    + reflexivity.
    + reflexivity.
    + discriminate.
    + reflexivity.
    + exact E.
    + reflexivity.
    + vm_compute in E. injection E as <- _. reflexivity.
    + reflexivity.
    + exists v, s'. split; [exact H|]. split; [exact Hl|]. split; [exact Hj|].
      intros t Hin. exact (Hcalls t Hin).
  - vm_compute in E. discriminate E.
Defined.





(** * Further properties of the code *)

(** ** Confidence values *)

Lemma clamp_bounds (x : Q) : 0 <= clamp x <= 1.
Proof.
  unfold clamp, py_max2, py_min2.
  destruct (Qltb x 1) eqn:E1.
  - apply Qltb_lt in E1. destruct (Qltb 0 x) eqn:E0.
    + apply Qltb_lt in E0. lra.
    + lra.
  - assert (E0 : Qltb 0 1 = true) by reflexivity. rewrite E0. lra.
Qed.

(** X1. [clamp_confidence] lands in [0, 1]: values inside the interval are
    kept, values below it become 0 and values above it become 1, so that
    clamping twice changes nothing. *)
Theorem clamp_range (x : Q) :
  0 <= clamp x <= 1 /\
  (0 <= x <= 1 -> clamp x == x) /\
  (x < 0 -> clamp x == 0) /\
  (1 < x -> clamp x == 1) /\
  clamp (clamp x) == clamp x.
Proof.
  assert (H : 0 <= clamp x <= 1 /\
              (0 <= x <= 1 -> clamp x == x) /\
              (x < 0 -> clamp x == 0) /\
              (1 < x -> clamp x == 1)).
  { unfold clamp, py_max2, py_min2.
    destruct (Qltb x 1) eqn:E1.
    - apply Qltb_lt in E1. destruct (Qltb 0 x) eqn:E0.
      + apply Qltb_lt in E0. repeat split; try lra; intros; lra.
      + apply Qltb_ge in E0. repeat split; try lra; intros; lra.
    - apply Qltb_ge in E1. assert (E0 : Qltb 0 1 = true) by reflexivity.
      rewrite E0. repeat split; try lra; intros; lra. }
  destruct H as (Hr & Hin & Hlo & Hhi).
  split; [exact Hr|]. split; [exact Hin|]. split; [exact Hlo|]. split; [exact Hhi|].
  unfold clamp at 1. unfold py_max2, py_min2.
  destruct (Qltb (clamp x) 1) eqn:E1.
  - destruct (Qltb 0 (clamp x)) eqn:E0; [reflexivity|].
    apply Qltb_ge in E0. lra.
  - apply Qltb_ge in E1. assert (E0 : Qltb 0 1 = true) by reflexivity.
    rewrite E0. lra.
Qed.

Lemma clamp_range_witness :
  clamp (1 # 2) == 1 # 2 /\ clamp (- (3)) == 0 /\ clamp 7 == 1.
Proof.
  destruct (clamp_range (1 # 2)) as (_ & H1 & _).
  destruct (clamp_range (- (3))) as (_ & _ & H2 & _).
  destruct (clamp_range 7) as (_ & _ & _ & H3 & _).
  split; [apply H1; split; discriminate|].
  split; [apply H2; reflexivity|apply H3; reflexivity].
Defined.

(** ** Responses *)

Section ParsingMore.

Context {RT : Runtime}.

Lemma clamp_confidence_Ok (value : JSON) (q : Q) :
  clamp_confidence value = Ok q -> 0 <= q <= 1.
Proof.
  unfold clamp_confidence. destruct (py_float value) as [x|e]; simpl; [|discriminate].
  intros H. injection H as <-. apply clamp_bounds.
Qed.

Lemma parse_response_Ok (raw persona_name : string) (labels : option (list string))
    (response : PersonaResponse.t) :
  _parse_persona_response raw persona_name labels = Ok response ->
  PersonaResponse.persona_name response = persona_name /\
  0 <= PersonaResponse.confidence response <= 1 /\
  PersonaResponse.raw_response response = None /\
  PersonaResponse.tokens_used response = 0%Z.
Proof.
  unfold _parse_persona_response.
  destruct (safe_json_parse (strip_markdown_fences raw)) as [payload|].
  - intros H.
    destruct (clamp_confidence (Dict.get_or payload "confidence" (JNum 0)))
      as [q|e] eqn:Ec; simpl in H; [|discriminate].
    destruct (str_items (Dict.get_or payload "key_factors" (JArr [])))
      as [items|e]; simpl in H; [|discriminate].
    injection H as <-. simpl. apply clamp_confidence_Ok in Ec. now repeat split.
  - intros H. injection H as <-. simpl.
    split; [reflexivity|]. split; [split; discriminate|]. now split.
Qed.

(** X2. Whatever the reply, a response returned by
    [_parse_persona_response] carries the given persona name, a confidence in
    [0, 1], no raw reply and no tokens; and the call raises only when the
    reply decoded to an object. *)
Theorem parse_persona_response_returns
    (raw persona_name : string) (labels : option (list string)) :
  (forall response,
      _parse_persona_response raw persona_name labels = Ok response ->
      PersonaResponse.persona_name response = persona_name /\
      0 <= PersonaResponse.confidence response <= 1 /\
      PersonaResponse.raw_response response = None /\
      PersonaResponse.tokens_used response = 0%Z) /\
  (forall e,
      _parse_persona_response raw persona_name labels = Raise e ->
      exists payload,
        safe_json_parse (strip_markdown_fences raw) = Some payload /\
        (clamp_confidence (Dict.get_or payload "confidence" (JNum 0)) = Raise e \/
         str_items (Dict.get_or payload "key_factors" (JArr [])) = Raise e)).
Proof.
  split; [intros response; apply parse_response_Ok|].
  unfold _parse_persona_response.
  destruct (safe_json_parse (strip_markdown_fences raw)) as [payload|].
  - intros e H. exists payload. split; [reflexivity|].
    destruct (clamp_confidence (Dict.get_or payload "confidence" (JNum 0)))
      as [q|e']; simpl in H; [|left; injection H as ->; reflexivity].
    destruct (str_items (Dict.get_or payload "key_factors" (JArr [])))
      as [items|e']; simpl in H; [discriminate|right; injection H as ->; reflexivity].
  - intros e H. discriminate.
Qed.

End ParsingMore.

Lemma parse_persona_response_returns_witness :
  exists response,
    @_parse_persona_response RefRuntime.runtime Script.safe_reply "p1"
      (Some ["safe"; "unsafe"]) = Ok response /\
    PersonaResponse.persona_name response = "p1" /\
    0 <= PersonaResponse.confidence response <= 1.
Proof.
  destruct (@_parse_persona_response RefRuntime.runtime Script.safe_reply "p1"
              (Some ["safe"; "unsafe"])) as [response|e] eqn:E.
  - exists response. split; [reflexivity|].
    destruct (@parse_persona_response_returns RefRuntime.runtime Script.safe_reply
                "p1" (Some ["safe"; "unsafe"])) as [H _].
    destruct (H response E) as (Hn & Hc & _). now split.
  - vm_compute in E. discriminate E.
Defined.

(** ** Rounds of a debate *)

Lemma mapM_Forall2 {S A B : Type} (f : A -> M S B) (P : A -> B -> Prop) :
  (forall x s y s', f x s = (Ok y, s') -> P x y) ->
  forall xs s ys s', mapM f xs s = (Ok ys, s') -> Forall2 P xs ys.
Proof.
  intros Hf. induction xs as [|x xs IH]; intros s ys s' H; simpl in H.
  - apply ret_Ok in H. destruct H as [<- _]. constructor.
  - apply bind_Ok in H. destruct H as (y & s1 & Hy & H).
    apply bind_Ok in H. destruct H as (ys' & s2 & Hys & H).
    apply ret_Ok in H. destruct H as [<- _].
    constructor; [now apply Hf in Hy|now apply IH in Hys].
Qed.

Lemma add_usage_app (xs ys : list PersonaResponse.t) (totals : Z * Q) :
  add_usage (xs ++ ys) totals = add_usage ys (add_usage xs totals).
Proof. apply fold_left_app. Qed.

Section EngineMore.

Context {RT : Runtime} {W : World}.
Variable DEFAULT_MODEL : string.
Variable self : DebateEngine.t.
Variables (text : string) (primary_result : ClassificationResult.t)
          (labels : list string).

Lemma call_persona_answers persona prompt s response s' :
  DebateEngine._call_persona self persona prompt labels s = (Ok response, s') ->
  answers persona response.
Proof.
  unfold DebateEngine._call_persona. intros H.
  apply bind_Ok in H. destruct H as (payload & s1 & _ & H).
  apply bind_Ok in H. destruct H as (parsed & s2 & Hp & H).
  apply ret_Ok in H. destruct H as [<- _].
  unfold lift in Hp. injection Hp as Hp _.
  destruct (parse_response_Ok _ _ _ _ Hp) as (Hn & Hc & _).
  unfold answers. simpl. split; [exact Hn|]. split; [exact Hc|].
  split; discriminate.
Qed.

Lemma run_round_answers prior s round s' :
  DebateEngine._run_round self text primary_result labels prior s = (Ok round, s') ->
  Forall2 answers (DebateEngine.personas self) round.
Proof.
  apply mapM_Forall2. intros persona s0 y s1.
  unfold DebateEngine._query_persona. apply call_persona_answers.
Qed.

Lemma run_deliberation_round_answers prior s round s' :
  DebateEngine._run_deliberation_round self text primary_result labels prior s
    = (Ok round, s') ->
  Forall2 answers (DebateEngine.personas self) round.
Proof.
  apply mapM_Forall2. intros persona s0 y s1.
  unfold DebateEngine._query_persona_deliberation. apply call_persona_answers.
Qed.

Lemma sequential_loop_spec (max_cost_usd : option Q) (todo : list Persona.t) :
  forall responses totals s responses' totals' s',
    DebateEngine.sequential_loop self todo text primary_result labels max_cost_usd
      responses totals s = (Ok (responses', totals'), s') ->
    exists asked rest new,
      todo = (asked ++ rest)%list /\
      responses' = (responses ++ new)%list /\
      Forall2 answers asked new /\
      totals' = add_usage new totals /\
      (todo <> [] -> new <> []) /\
      (rest <> [] -> over_budget max_cost_usd (snd totals') = true) /\
      (forall pre r post,
          new = (pre ++ r :: post)%list -> post <> [] ->
          over_budget max_cost_usd (snd (add_usage (pre ++ [r]) totals)) = false).
Proof.
  induction todo as [|persona todo IH]; intros responses totals s responses' totals' s' H.
  - simpl in H. apply ret_Ok in H. destruct H as [H _]. injection H as <- <-.
    exists [], [], [].
    split; [reflexivity|]. split; [now rewrite app_nil_r|]. split; [constructor|].
    split; [reflexivity|]. split; [congruence|]. split; [congruence|].
    intros pre r post E. now destruct pre.
  - cbn [DebateEngine.sequential_loop] in H.
    apply bind_Ok in H. destruct H as (response & s1 & Hq & H).
    assert (Ha : answers persona response).
    { unfold DebateEngine._query_persona in Hq. now apply call_persona_answers in Hq. }
    destruct (over_budget max_cost_usd (snd (add_usage [response] totals))) eqn:Eb.
    + apply ret_Ok in H. destruct H as [H _]. injection H as <- <-.
      exists [persona], todo, [response].
      split; [reflexivity|]. split; [reflexivity|].
      split; [constructor; [exact Ha|constructor]|].
      split; [reflexivity|]. split; [discriminate|]. split; [intros _; exact Eb|].
      intros pre r post E Hpost. exfalso.
      destruct pre as [|p pre']; simpl in E; injection E as _ E.
      * now subst post.
      * now destruct pre'.
    + apply IH in H.
      destruct H as (asked & rest & new & -> & -> & Hall & -> & _ & Hrest & Hmid).
      exists (persona :: asked), rest, (response :: new).
      split; [reflexivity|]. split; [now rewrite <- app_assoc|].
      split; [now constructor|]. split; [reflexivity|]. split; [discriminate|].
      split; [exact Hrest|].
      intros pre r post E Hpost.
      destruct pre as [|p pre']; simpl in E; injection E as <- E.
      * exact Eb.
      * apply (Hmid pre' r post E Hpost).
Qed.

Lemma deliberation_loop_answers (max_cost_usd : option Q) (n : nat) :
  forall rounds totals s rounds' totals' s',
    DebateEngine.deliberation_loop self n text primary_result labels max_cost_usd
      rounds totals s = (Ok (rounds', totals'), s') ->
    Forall (Forall2 answers (DebateEngine.personas self)) rounds ->
    Forall (Forall2 answers (DebateEngine.personas self)) rounds'.
Proof.
  induction n as [|n IH]; intros rounds totals s rounds' totals' s' H Hall.
  - simpl in H. apply ret_Ok in H. destruct H as [H _]. now injection H as <- _.
  - simpl in H. apply bind_Ok in H. destruct H as (current & s1 & Hc & H).
    apply run_deliberation_round_answers in Hc.
    assert (Hall' : Forall (Forall2 answers (DebateEngine.personas self))
                           (rounds ++ [current])).
    { apply Forall_app. split; [exact Hall|]. now constructor. }
    destruct (over_budget max_cost_usd (snd (add_usage current totals)));
      [|destruct (_consensus_reached current)].
    + apply ret_Ok in H. destruct H as [H _]. now injection H as <- _.
    + apply ret_Ok in H. destruct H as [H _]. now injection H as <- _.
    + now apply IH in H.
Qed.

(** X3. Without personas [debate] returns, in every mode and whatever the
    cost ceiling, a transcript with no round, no tokens, cost 0 and no
    summary, and leaves the outside world as it found it: the completion
    service is not consulted. *)
Theorem debate_without_personas (max_cost_usd : option Q) (s : St) :
  DebateEngine.personas self = [] ->
  exists duration_ms,
    DebateEngine.debate DEFAULT_MODEL self text primary_result labels max_cost_usd s =
    (Ok (DebateTranscript.mk text primary_result [] duration_ms 0 (Some 0) None), s).
Proof.
  intros Hp. unfold DebateEngine.debate. rewrite Hp. simpl is_empty. cbv iota.
  unfold bind, now, elapsed_ms, ret. simpl. eexists. reflexivity.
Qed.




End EngineMore.

(** ** Further scripted cases *)

Lemma debate_without_personas_witness :
  exists duration_ms,
    Cases.debate INDEPENDENT [] (Some 1) 0%nat =
    (Ok (DebateTranscript.mk "text" (Scenario.primary "unsafe" (1 # 10)) []
           duration_ms 0 (Some 0) None), 0%nat).
Proof.
  apply (@debate_without_personas RefRuntime.runtime Script.world "model"
           (Cases.engine INDEPENDENT [])). reflexivity.
Defined.




(** ** Consensus *)

Lemma nodup_length_1 (xs : list string) :
  length (nodup string_dec xs) = 1%nat <->
  xs <> [] /\ forall x y, In x xs -> In y xs -> x = y.
Proof.
  split.
  - intros H. destruct (nodup string_dec xs) as [|a [|b l]] eqn:E; try discriminate.
    assert (Hall : forall x, In x xs -> x = a).
    { intros x Hx. apply (nodup_In string_dec) in Hx. rewrite E in Hx.
      destruct Hx as [<-|[]]. reflexivity. }
    split.
    + intros ->. discriminate.
    + intros x y Hx Hy. rewrite (Hall x Hx), (Hall y Hy). reflexivity.
  - intros [Hne Hall]. destruct xs as [|a xs]; [congruence|].
    pose proof (NoDup_nodup string_dec (a :: xs)) as Hnd.
    assert (Ha : In a (nodup string_dec (a :: xs))).
    { apply nodup_In. now left. }
    destruct (nodup string_dec (a :: xs)) as [|b [|c l]] eqn:E.
    + destruct Ha.
    + reflexivity.
    + exfalso.
      assert (Hb : In b (a :: xs)).
      { apply (nodup_In string_dec). rewrite E. now left. }
      assert (Hc : In c (a :: xs)).
      { apply (nodup_In string_dec). rewrite E. right. now left. }
      specialize (Hall b c Hb Hc). subst c.
      inversion Hnd as [|? ? Hnot _]. apply Hnot. now left.
Qed.

(** X7. [_consensus_reached] holds exactly for a round that is not empty
    and whose responses all carry the same label; confidences play no part. *)
Theorem consensus_reached_iff (round_responses : list PersonaResponse.t) :
  _consensus_reached round_responses = true <->
  round_responses <> [] /\
  forall r r', In r round_responses -> In r' round_responses ->
               PersonaResponse.label r = PersonaResponse.label r'.
Proof.
  unfold _consensus_reached. rewrite andb_true_iff, Nat.eqb_eq, nodup_length_1.
  split.
  - intros (_ & Hne & Hall). split.
    + intros ->. now apply Hne.
    + intros r r' Hr Hr'. apply Hall; now apply in_map.
  - intros (Hne & Hall). split; [|split].
    + destruct round_responses; [congruence|reflexivity].
    + destruct round_responses; [congruence|discriminate].
    + intros x y Hx Hy. apply in_map_iff in Hx, Hy.
      destruct Hx as (r & <- & Hr), Hy as (r' & <- & Hr'). now apply Hall.
Qed.

(** ** The orchestrator: judged calls and failures *)

Section JuryMore.

Context {W : World}.
Variable self : Jury.t.

(** X8. When a call has escalated, the debate has returned a transcript that
    does not trip the cost guard and the judge has returned a verdict,
    [Jury.classify] returns the judge's label, confidence, reasoning and
    strategy name, and overwrites the rest: [was_escalated = True], the
    primary result of this call, the debate's transcript, and the
    transcript's cost when the judge gave none. The judge is called once, on
    that transcript, and the verdict callback receives the returned
    verdict. *)
Theorem classify_judged_verdict (text : string) (s : Jury.State)
    (primary : ClassificationResult.t) (w1 w2 w3 w4 w5 : St) (u u' : unit)
    (transcript : DebateTranscript.t) (judged : Verdict.t) :
  Classifier.classify (Jury.classifier self) text (Jury.world s) = (Ok primary, w1) ->
  escalates self primary = true ->
  notify_escalation self text primary w1 = (Ok u, w2) ->
  Debater.debate (Jury.debate_engine self) text primary
    (Classifier.labels (Jury.classifier self)) (Jury.max_debate_cost_usd self) w2
    = (Ok transcript, w3) ->
  Jury.cost_guard_trips self transcript = false ->
  JudgeStrategy.judge (Jury.judge self) transcript
    (Classifier.labels (Jury.classifier self)) w3 = (Ok judged, w4) ->
  let verdict := Jury.adopt_verdict judged primary transcript (duration (Jury.world s) w4) in
  notify_verdict self verdict w4 = (Ok u', w5) ->
  Jury.classify self text s =
    (Ok verdict,
     Jury.mkState (Jury.incr_escalated (Jury.incr_total (Jury._stats s)))
       (Jury.calls s ++ [CallClassifier text] ++ escalation_calls self text primary
          ++ [CallDebate text primary; CallJudge transcript]
          ++ verdict_calls self verdict)%list
       w5) /\
  Verdict.label verdict = Verdict.label judged /\
  Verdict.confidence verdict = Verdict.confidence judged /\
  Verdict.reasoning verdict = Verdict.reasoning judged /\
  Verdict.judge_strategy verdict = Verdict.judge_strategy judged /\
  Verdict.was_escalated verdict = true /\
  Verdict.primary_result verdict = primary /\
  Verdict.debate_transcript verdict = Some transcript /\
  Verdict.total_cost_usd verdict =
    match Verdict.total_cost_usd judged with
    | Some cost => Some cost
    | None => DebateTranscript.total_cost_usd transcript
    end.
Proof.
  intros Hc He Hn Hd Hg Hj verdict Hv.
  split; [|now repeat split].
  unfold Jury.classify, Jury.debate_and_finish, Jury.judge_and_finish.
  unfold_monad. simpl.
  rewrite Hc. simpl. unfold escalates in He. rewrite He. simpl.
  unfold notify_escalation, escalation_calls, notify_verdict, verdict_calls in *.
  fold (duration (Jury.world s) w4). fold verdict.
  destruct (Jury.on_escalation self) as [callback|]; simpl.
  - rewrite Hn. simpl. rewrite Hd. simpl. rewrite Hg. simpl. rewrite Hj. simpl.
    fold (duration (Jury.world s) w4). fold verdict.
    destruct (Jury.on_verdict self) as [callback'|]; simpl.
    + rewrite Hv. simpl. now rewrite <- !app_assoc.
    + unfold ret in Hv. injection Hv as _ <-. now rewrite <- !app_assoc.
  - unfold ret in Hn. injection Hn as _ <-.
    rewrite Hd. simpl. rewrite Hg. simpl. rewrite Hj. simpl.
    fold (duration (Jury.world s) w4). fold verdict.
    destruct (Jury.on_verdict self) as [callback'|]; simpl.
    + rewrite Hv. simpl. now rewrite <- !app_assoc.
    + unfold ret in Hv. injection Hv as _ <-. now rewrite <- !app_assoc.
Qed.


End JuryMore.

Lemma classify_judged_verdict_witness :
  exists v s',
    Jury.classify (Script.jury (Scenario.primary "unsafe" (1 # 10)) Cases.pair None)
      "text" Script.fresh = (Ok v, s') /\
    Verdict.label v = "safe" /\
    Verdict.was_escalated v = true.
Proof.
  set (primary := Scenario.primary "unsafe" (1 # 10)).
  set (jury := Script.jury primary Cases.pair None).
  destruct (Debater.debate (Jury.debate_engine jury) "text" primary
              (Classifier.labels (Jury.classifier jury))
              (Jury.max_debate_cost_usd jury) 1%nat) as [[transcript|e] w3] eqn:E.
  - destruct (JudgeStrategy.judge (Jury.judge jury) transcript
                (Classifier.labels (Jury.classifier jury)) w3)
      as [[judged|e] w4] eqn:EJ.
    + destruct (classify_judged_verdict jury "text" Script.fresh primary
                  1%nat 1%nat w3 w4 w4 tt tt transcript judged)
        as (H & Hl & _ & _ & _ & Hw & _).
      * reflexivity.
      * reflexivity.
      * reflexivity.
      * exact E.
      * reflexivity.
      * exact EJ.
      * reflexivity.
      * eexists. eexists. split; [exact H|]. split; [|exact Hw].
        rewrite Hl. vm_compute in E. injection E as <- <-.
        vm_compute in EJ. injection EJ as <- _. reflexivity.
    + vm_compute in E. injection E as <- <-. vm_compute in EJ. discriminate EJ.
  - vm_compute in E. discriminate E.
Defined.


(** ** Counters and rates *)

Section BatchMore.

Context {W : World}.
Variable self : Jury.t.

Lemma counted_incr (st : JuryStats.t) (b : bool) :
  counted st ->
  counted ((if b then Jury.incr_escalated else Jury.incr_fast_path) (Jury.incr_total st)).
Proof.
  unfold counted, Jury.balanced. destruct st as [t f e], b; simpl; lia.
Qed.

Lemma resume_stats (task : Jury.Task) (s : Jury.State) :
  resting task ->
  resting (fst (Jury.resume self task s)) /\
  (Jury._stats (snd (Jury.resume self task s)) = Jury._stats s \/
   exists b : bool,
     Jury._stats (snd (Jury.resume self task s)) =
     (if b then Jury.incr_escalated else Jury.incr_fast_path)
       (Jury.incr_total (Jury._stats s))).
Proof.
  intros Hr.
  destruct task as [text|text start primary|text start primary|
                    start primary transcript|v|e].
  - unfold Jury.resume.
    destruct (step_Start self text s) as [(start & primary & Ht & Hs)|(e & Ht & Hs)];
      destruct (Jury.step self (Jury.Start text) s) as [task' s1];
      simpl in Ht, Hs; subst task'.
    + destruct (step_Counted self text start primary s1) as [Hr' Hs'].
      split; [exact Hr'|]. right. exists (escalates self primary).
      now rewrite Hs', Hs.
    + simpl. split; [exact I|]. now left.
  - destruct Hr.
  - destruct (step_resting self (Jury.Debating text start primary) s Hr) as [H1 H2];
      [discriminate|]. unfold Jury.resume. split; [exact H1|now left].
  - destruct (step_resting self (Jury.Judging start primary transcript) s Hr) as [H1 H2];
      [discriminate|]. unfold Jury.resume. split; [exact H1|now left].
  - split; [exact I|now left].
  - split; [exact I|now left].
Qed.

Lemma length_replace_nth {A : Type} (i : nat) (x : A) (xs : list A) :
  length (Jury.replace_nth i x xs) = length xs.
Proof.
  revert i. induction xs as [|y xs IH]; intros [|i]; simpl; auto.
Qed.

Lemma in_flight_replace (i : nat) (task task' : Jury.Task) (tasks : list Jury.Task) :
  nth_error tasks i = Some task ->
  (Jury.in_flight (Jury.replace_nth i task' tasks) + (if holds_slot task then 1 else 0) =
   Jury.in_flight tasks + (if holds_slot task' then 1 else 0))%nat.
Proof.
  revert i. induction tasks as [|t tasks IH]; intros [|i] H; simpl in H; try discriminate.
  - injection H as ->. unfold Jury.in_flight. simpl.
    fold (holds_slot task) (holds_slot task').
    destruct (holds_slot task), (holds_slot task'); simpl; lia.
  - specialize (IH i H). unfold Jury.in_flight in *. simpl.
    fold (holds_slot t). destruct (holds_slot t); simpl; lia.
Qed.

Lemma resume_slot (task : Jury.Task) (s : Jury.State) :
  holds_slot (fst (Jury.resume self task s)) = true ->
  (exists text, task = Jury.Start text) \/ holds_slot task = true.
Proof.
  destruct task; simpl; intros H; try (now right); try discriminate.
  left. now eexists.
Qed.

Lemma schedule_step_facts (concurrency : Z) (i : nat)
    (tasks : list Jury.Task) (s : Jury.State) :
  Forall resting tasks ->
  (Z.of_nat (Jury.in_flight tasks) <= Z.max 1 concurrency)%Z ->
  let b := Jury.schedule_step self concurrency i (tasks, s) in
  Forall resting (fst b) /\
  length (fst b) = length tasks /\
  (Z.of_nat (Jury.in_flight (fst b)) <= Z.max 1 concurrency)%Z /\
  (Jury._stats (snd b) = Jury._stats s \/
   exists flag : bool,
     Jury._stats (snd b) =
     (if flag then Jury.incr_escalated else Jury.incr_fast_path)
       (Jury.incr_total (Jury._stats s))).
Proof.
  intros Hall Hcap. unfold Jury.schedule_step.
  destruct (nth_error tasks i) as [task|] eqn:En; [|simpl; auto].
  assert (Hr : resting task).
  { apply nth_error_In in En. rewrite Forall_forall in Hall. now apply Hall. }
  destruct (resume_stats task s Hr) as [Hr' Hs].
  pose proof (in_flight_replace i task (fst (Jury.resume self task s)) tasks En) as Hfl.
  pose proof (resume_slot task s) as Hslot.
  assert (Hgo : (exists text, task = Jury.Start text) \/
                (Jury.in_flight (Jury.replace_nth i (fst (Jury.resume self task s)) tasks)
                 <= Jury.in_flight tasks)%nat ->
                ((exists text, task = Jury.Start text) ->
                 (Z.of_nat (Jury.in_flight tasks) < Z.max 1 concurrency)%Z) ->
                let b := (Jury.replace_nth i (fst (Jury.resume self task s)) tasks,
                          snd (Jury.resume self task s)) in
                Forall resting (fst b) /\
                length (fst b) = length tasks /\
                (Z.of_nat (Jury.in_flight (fst b)) <= Z.max 1 concurrency)%Z /\
                (Jury._stats (snd b) = Jury._stats s \/
                 exists flag : bool,
                   Jury._stats (snd b) =
                   (if flag then Jury.incr_escalated else Jury.incr_fast_path)
                     (Jury.incr_total (Jury._stats s)))).
  { intros Hcase Hfree. simpl.
    split; [now apply Forall_replace_nth|]. split; [apply length_replace_nth|].
    split; [|exact Hs].
    destruct Hcase as [Hstart|Hle]; [|lia].
    specialize (Hfree Hstart). destruct Hstart as [text ->].
    change (holds_slot (Jury.Start text)) with false in Hfl.
    destruct (holds_slot (fst (Jury.resume self (Jury.Start text) s))); lia. }
  assert (Hle : holds_slot task = true \/ (forall text, task <> Jury.Start text) ->
                (Jury.in_flight (Jury.replace_nth i (fst (Jury.resume self task s)) tasks)
                 <= Jury.in_flight tasks)%nat).
  { intros Hc.
    destruct (holds_slot task) eqn:Et.
    - destruct (holds_slot (fst (Jury.resume self task s))); lia.
    - destruct (holds_slot (fst (Jury.resume self task s))) eqn:Et'; [|lia].
      destruct (Hslot eq_refl) as [[text ->]|Ht]; [|congruence].
      destruct Hc as [Hc|Hc]; [discriminate|]. now contradiction (Hc text). }
  destruct task as [text|text start primary|text start primary|
                    start primary transcript|v|e].
  - destruct (Z.of_nat (Jury.in_flight tasks) <? Z.max 1 concurrency)%Z eqn:Ef.
    + apply Z.ltb_lt in Ef.
      destruct (Jury.resume self (Jury.Start text) s) as [task' s'] eqn:Er.
      apply Hgo; [left; now eexists|intros _; exact Ef].
    + simpl. auto.
  - destruct Hr.
  - destruct (Jury.resume self (Jury.Debating text start primary) s) as [task' s'] eqn:Er.
    apply Hgo; [right; apply Hle; now left|intros [t Ht]; discriminate].
  - destruct (Jury.resume self (Jury.Judging start primary transcript) s)
      as [task' s'] eqn:Er.
    apply Hgo; [right; apply Hle; now left|intros [t Ht]; discriminate].
  - destruct (Jury.resume self (Jury.Finished v) s) as [task' s'] eqn:Er.
    apply Hgo; [right; apply Hle; right; discriminate|intros [t Ht]; discriminate].
  - destruct (Jury.resume self (Jury.Failed e) s) as [task' s'] eqn:Er.
    apply Hgo; [right; apply Hle; right; discriminate|intros [t Ht]; discriminate].
Qed.

Lemma in_flight_Start (texts : list string) :
  Jury.in_flight (map Jury.Start texts) = 0%nat.
Proof.
  unfold Jury.in_flight. induction texts as [|text texts IH]; simpl; auto.
Qed.

Lemma classify_batch_facts (P : JuryStats.t -> Prop) (texts : list string)
    (concurrency : Z) (sched : list nat) (s : Jury.State) :
  (forall st (flag : bool),
      P st ->
      P ((if flag then Jury.incr_escalated else Jury.incr_fast_path) (Jury.incr_total st))) ->
  P (Jury._stats s) ->
  let b := Jury.classify_batch self texts concurrency sched s in
  length (fst b) = length texts /\
  (Z.of_nat (Jury.in_flight (fst b)) <= Z.max 1 concurrency)%Z /\
  P (Jury._stats (snd b)).
Proof.
  intros HP H0. unfold Jury.classify_batch.
  assert (Hrest : Forall resting (map Jury.Start texts)).
  { apply Forall_forall. intros task Hin. apply in_map_iff in Hin.
    destruct Hin as (text & <- & _). exact I. }
  assert (Hfl : (Z.of_nat (Jury.in_flight (map Jury.Start texts)) <= Z.max 1 concurrency)%Z).
  { rewrite in_flight_Start. lia. }
  rewrite <- (length_map Jury.Start texts).
  revert Hrest Hfl H0. generalize (map Jury.Start texts) as tasks. revert s.
  induction sched as [|i sched IH]; intros s tasks Hrest Hfl H0; [simpl; auto|].
  cbn [fold_left].
  destruct (schedule_step_facts concurrency i tasks s Hrest Hfl) as (H1 & H2 & H3 & H4).
  destruct (Jury.schedule_step self concurrency i (tasks, s)) as [tasks' s'].
  simpl in H1, H2, H3, H4. rewrite <- H2.
  apply IH; [exact H1|exact H3|].
  destruct H4 as [-> | [flag ->]]; [exact H0|now apply HP].
Qed.



End BatchMore.

(** ** Judges on any transcript *)

Lemma fallback_judged_from transcript strategy :
  judged_from transcript strategy (_fallback_verdict transcript strategy).
Proof. unfold judged_from. simpl. now repeat split. Qed.

Lemma responses_present transcript :
  DebateTranscript.no_responses transcript = false ->
  exists r rs, DebateTranscript.final_round transcript = r :: rs.
Proof.
  unfold DebateTranscript.no_responses. intros H.
  apply orb_false_iff in H. destruct H as [_ H].
  destruct (DebateTranscript.final_round transcript) as [|r rs]; [discriminate|].
  now exists r, rs.
Qed.

(** X12. [MajorityVoteJudge.judge] and [WeightedVoteJudge.judge] return a
    verdict for every transcript and every label list: the lookups on the
    tallies cannot fail. The verdict carries the strategy's name,
    [was_escalated = True] and the transcript with its primary result,
    duration and cost; for a transcript without responses it is the primary
    result's label and confidence. *)
Theorem voting_judges_total (transcript : DebateTranscript.t) (labels : list string) :
  (exists v, MajorityVoteJudge.judge transcript labels = Ok v /\
             judged_from transcript "majority_vote" v) /\
  (exists v, WeightedVoteJudge.judge transcript labels = Ok v /\
             judged_from transcript "weighted_vote" v).
Proof.
  split.
  - unfold MajorityVoteJudge.judge.
    destruct (DebateTranscript.no_responses transcript) eqn:En.
    + eexists. split; [reflexivity|apply fallback_judged_from].
    + destruct (responses_present _ En) as (r & rs & Hfr). rewrite Hfr.
      unfold MajorityVoteJudge.most_common_1.
      destruct (Counter (map PersonaResponse.label (r :: rs))) as [|item items] eqn:EC.
      { exfalso.
        assert (H : In (PersonaResponse.label r,
                        count_occ string_dec (map PersonaResponse.label (r :: rs))
                                  (PersonaResponse.label r))
                       (Counter (map PersonaResponse.label (r :: rs)))).
        { apply Counter_In. split; [now left|reflexivity]. }
        rewrite EC in H. destruct H. }
      simpl res_bind.
      destruct (py_max_key _ snd item items) as [winner winner_count].
      eexists. split; [reflexivity|].
      unfold judged_from. rewrite En. simpl.
      repeat (split; [reflexivity|]). intros Hn. discriminate Hn.
  - unfold WeightedVoteJudge.judge.
    destruct (DebateTranscript.no_responses transcript) eqn:En.
    + eexists. split; [reflexivity|apply fallback_judged_from].
    + destruct (responses_present _ En) as (r & rs & Hfr). rewrite Hfr.
      unfold WeightedVoteJudge.argmax.
      destruct (WeightedVoteJudge.tally (r :: rs)) as [|item items] eqn:ET.
      { exfalso.
        assert (H : In (PersonaResponse.label r, label_sum (r :: rs) (PersonaResponse.label r))
                       (WeightedVoteJudge.tally (r :: rs))).
        { apply tally_In. split; [now left|reflexivity]. }
        rewrite ET in H. destruct H. }
      simpl res_bind.
      eexists. split; [reflexivity|].
      unfold judged_from. rewrite En. simpl.
      repeat (split; [reflexivity|]). intros Hn. discriminate Hn.
Qed.

Lemma update_nonempty {V : Type} (f : V -> V) (dflt : V) (k : string) (d : Dict.t V) :
  Dict.update f dflt k d <> [].
Proof.
  destruct d as [|[k' v] d]; simpl; [discriminate|].
  destruct (String.eqb k k'); discriminate.
Qed.

Lemma accumulate_nonempty pp labels (r : PersonaResponse.t) rs :
  labels <> [] -> BayesianJudge.accumulate pp labels (r :: rs) <> [].
Proof.
  intros Hl. unfold BayesianJudge.accumulate.
  assert (Hinner : forall (response : PersonaResponse.t) (c : Dict.t Q),
             fold_left
               (fun posterior label =>
                  Dict.update (fun p => p * BayesianJudge.factor pp labels response label)
                              1 label posterior)
               labels c <> []).
  { intros response c.
    destruct labels as [|l ls] using rev_ind; [congruence|].
    rewrite fold_left_app. simpl. apply update_nonempty. }
  destruct (@exists_last _ (r :: rs)) as (xs & x & ->); [discriminate|].
  rewrite fold_left_app. simpl. apply Hinner.
Qed.

(** X13. [BayesianJudge.judge] raises exactly when the final round has
    responses and the label list is empty, and then it raises [ValueError];
    in every other case, duplicated labels included, it returns a verdict
    that carries the strategy's name, [was_escalated = True] and the
    transcript with its primary result, duration and cost. *)
Theorem bayesian_judge_total (persona_priors : BayesianJudge.Priors)
    (transcript : DebateTranscript.t) (labels : list string) :
  (DebateTranscript.no_responses transcript = false /\ labels = [] ->
   BayesianJudge.judge persona_priors transcript labels = Raise ValueError) /\
  (DebateTranscript.no_responses transcript = true \/ labels <> [] ->
   exists v, BayesianJudge.judge persona_priors transcript labels = Ok v /\
             judged_from transcript "bayesian" v).
Proof.
  unfold BayesianJudge.judge. split.
  - intros [En ->]. rewrite En.
    destruct (responses_present _ En) as (r & rs & ->).
    assert (E : BayesianJudge.accumulate persona_priors [] (r :: rs) = []).
    { unfold BayesianJudge.accumulate. simpl.
      induction rs as [|r' rs IH]; simpl; [reflexivity|exact IH]. }
    rewrite E. reflexivity.
  - intros H. destruct (DebateTranscript.no_responses transcript) eqn:En.
    + eexists. split; [reflexivity|apply fallback_judged_from].
    + destruct H as [H|Hl]; [discriminate|].
      destruct (responses_present _ En) as (r & rs & ->).
      pose proof (accumulate_nonempty persona_priors labels r rs Hl) as Hne.
      unfold BayesianJudge.normalise, BayesianJudge.argmax.
      destruct (BayesianJudge.accumulate persona_priors labels (r :: rs))
        as [|item items]; [congruence|].
      simpl res_bind. eexists. split; [reflexivity|].
      unfold judged_from. rewrite En. simpl.
      repeat (split; [reflexivity|]). intros Hn. discriminate Hn.
Qed.

Lemma bayesian_judge_total_witness :
  BayesianJudge.judge [] (Scenario.transcript [Scenario.certain_round]) []
    = Raise ValueError /\
  exists v,
    BayesianJudge.judge [] (Scenario.transcript [Scenario.certain_round]) ["a"; "a"]
      = Ok v.
Proof.
  split.
  - apply (bayesian_judge_total [] (Scenario.transcript [Scenario.certain_round]) []).
    split; reflexivity.
  - destruct (bayesian_judge_total [] (Scenario.transcript [Scenario.certain_round])
                ["a"; "a"]) as [_ H].
    destruct H as (v & Hv & _); [right; discriminate|].
    now exists v.
Defined.

(** ** Confidence of aggregated verdicts *)

Lemma fold_conf_sum (xs : list PersonaResponse.t) (a : Q) :
  fold_left (fun s r => s + PersonaResponse.confidence r) xs a ==
  a + py_sum (map PersonaResponse.confidence xs).
Proof.
  revert a. induction xs as [|x xs IH]; intros a; simpl.
  - unfold py_sum. simpl. ring.
  - rewrite IH, py_sum_cons. ring.
Qed.

Lemma py_sum_nonneg (xs : list Q) : (forall x, In x xs -> 0 <= x) -> 0 <= py_sum xs.
Proof.
  induction xs as [|x xs IH]; intros H.
  - unfold py_sum. simpl. apply Qle_refl.
  - rewrite py_sum_cons.
    assert (0 <= x) by (apply H; now left).
    assert (0 <= py_sum xs) by (apply IH; intros y Hy; apply H; now right).
    lra.
Qed.

Lemma label_sum_bounds (final_round : list PersonaResponse.t) (label : string) :
  (forall r, In r final_round -> 0 <= PersonaResponse.confidence r) ->
  0 <= label_sum final_round label <=
  py_sum (map PersonaResponse.confidence final_round).
Proof.
  intros H. unfold label_sum. rewrite fold_conf_sum.
  induction final_round as [|r rs IH]; simpl.
  - unfold py_sum. simpl. lra.
  - assert (Hr : 0 <= PersonaResponse.confidence r) by (apply H; now left).
    assert (IH' : 0 <= 0 + py_sum (map PersonaResponse.confidence
                    (filter (fun r0 => String.eqb (PersonaResponse.label r0) label) rs))
                  <= py_sum (map PersonaResponse.confidence rs)).
    { apply IH. intros r0 Hr0. apply H. now right. }
    destruct (String.eqb (PersonaResponse.label r) label); simpl;
      rewrite ?py_sum_cons; lra.
Qed.

(** X14. When the final round is not empty and none of its confidences is
    negative, the confidence of [WeightedVoteJudge.judge]'s verdict lies in
    [0, 1]. *)
Theorem weighted_vote_confidence_range (transcript : DebateTranscript.t)
    (labels : list string) (v : Verdict.t) :
  DebateTranscript.final_round transcript <> [] ->
  (forall r, In r (DebateTranscript.final_round transcript) ->
             0 <= PersonaResponse.confidence r) ->
  WeightedVoteJudge.judge transcript labels = Ok v ->
  0 <= Verdict.confidence v <= 1.
Proof.
  intros Hne Hpos H. unfold WeightedVoteJudge.judge in H.
  rewrite (final_round_nonempty _ Hne) in H.
  set (final_round := DebateTranscript.final_round transcript) in *.
  unfold WeightedVoteJudge.argmax in H.
  destruct (WeightedVoteJudge.tally final_round) as [|item items] eqn:ET;
    [discriminate|].
  simpl res_bind in H.
  destruct (py_max_key_first (fun a b : Q => Qltb b a) (@snd string Q)
              Qgtb_trans Qgtb_neg_trans item items)
    as (cpre & cpost & Hsplit & _ & _).
  destruct (py_max_key (fun a b : Q => Qltb b a) snd item items) as [winner sw] eqn:EW.
  rewrite <- ET in Hsplit.
  assert (HinW : In (winner, sw) (WeightedVoteJudge.tally final_round)).
  { rewrite Hsplit. apply in_app_iff. right. now left. }
  assert (Hget : Dict.get_or (item :: items) winner 0 = sw).
  { rewrite <- ET. unfold Dict.get_or.
    rewrite (In_get _ _ _ (tally_NoDup final_round) HinW). reflexivity. }
  apply tally_In in HinW. destruct HinW as [_ Hsw].
  assert (Htotal : py_sum (Dict.values (item :: items)) ==
                   py_sum (map PersonaResponse.confidence final_round)).
  { rewrite <- ET.
    change (WeightedVoteJudge.tally final_round)
      with (tally_by PersonaResponse.label
                     (fun s r => s + PersonaResponse.confidence r) 0 final_round []).
    rewrite sum_values_tally. unfold py_sum at 1. simpl. ring. }
  destruct (label_sum_bounds final_round winner Hpos) as [Hlo Hhi].
  rewrite <- Hsw in Hlo, Hhi. rewrite <- Htotal in Hhi.
  injection H as <-. cbn [Verdict.confidence fst]. rewrite Hget.
  set (tot := py_sum (Dict.values (item :: items))) in *.
  change (py_sum (snd item :: Dict.values items)) with tot.
  unfold float_or. destruct (Qeq_bool tot 0) eqn:E.
  - apply Qeq_bool_iff in E. rewrite E in Hhi.
    split.
    + apply Qle_shift_div_l; [reflexivity|]. lra.
    + apply Qle_shift_div_r; [reflexivity|]. lra.
  - apply Qeq_bool_neq in E.
    assert (Htpos : 0 < tot).
    { destruct (Qlt_le_dec 0 tot) as [Hlt|Hle]; [exact Hlt|].
      exfalso. apply E. lra. }
    split.
    + apply Qle_shift_div_l; [exact Htpos|]. lra.
    + apply Qle_shift_div_r; [exact Htpos|]. lra.
Qed.

Lemma weighted_vote_confidence_range_witness :
  exists v,
    WeightedVoteJudge.judge (Scenario.transcript [Scenario.split_round]) [] = Ok v /\
    0 <= Verdict.confidence v <= 1.
Proof.
  destruct (WeightedVoteJudge.judge (Scenario.transcript [Scenario.split_round]) [])
    as [v|e] eqn:E.
  - exists v. split; [reflexivity|].
    apply (weighted_vote_confidence_range
             (Scenario.transcript [Scenario.split_round]) [] v).
    + discriminate.
    + intros r Hr. simpl in Hr.
      destruct Hr as [<-|[<-|[<-|[]]]]; discriminate.
    + exact E.
  - vm_compute in E. discriminate E.
Defined.

Lemma py_sum_le_bound {A : Type} (f : A -> Q) (bound : Q) (xs : list A) :
  (forall x, In x xs -> f x <= bound) ->
  py_sum (map f xs) <= Qlen xs * bound.
Proof.
  unfold Qlen. induction xs as [|x xs IH]; intros H.
  - unfold py_sum. simpl. change (inject_Z 0) with 0. lra.
  - simpl map. rewrite py_sum_cons.
    assert (Hx : f x <= bound) by (apply H; now left).
    assert (IH' : py_sum (map f xs) <= inject_Z (Z.of_nat (length xs)) * bound).
    { apply IH. intros y Hy. apply H. now right. }
    simpl length. rewrite Nat2Z.inj_succ. unfold Z.succ. rewrite inject_Z_plus.
    setoid_replace ((inject_Z (Z.of_nat (length xs)) + inject_Z 1) * bound)
      with (inject_Z (Z.of_nat (length xs)) * bound + bound) by ring.
    set (p := inject_Z (Z.of_nat (length xs)) * bound) in *. lra.
Qed.

Lemma py_sum_ge_member {A : Type} (f : A -> Q) (x : A) (xs : list A) :
  (forall y, In y xs -> 0 <= f y) -> In x xs -> f x <= py_sum (map f xs).
Proof.
  induction xs as [|y xs IH]; intros Hpos Hin; [destruct Hin|].
  simpl map. rewrite py_sum_cons.
  assert (Hy : 0 <= f y) by (apply Hpos; now left).
  assert (Hs : 0 <= py_sum (map f xs)).
  { apply py_sum_nonneg. intros q Hq. apply in_map_iff in Hq.
    destruct Hq as (z & <- & Hz). apply Hpos. now right. }
  destruct Hin as [->|Hin]; [lra|].
  assert (f x <= py_sum (map f xs)).
  { apply IH; [|exact Hin]. intros z Hz. apply Hpos. now right. }
  lra.
Qed.

Lemma bayes_posterior_sum pp labels final_round :
  labels <> [] ->
  py_sum (map (bayes_posterior pp labels final_round) labels) == 1.
Proof.
  intros Hl. unfold bayes_posterior. rewrite py_sum_map_div.
  apply Qmult_inv_r. intros H.
  pose proof (py_sum_map_pos (bayes_product pp labels final_round) labels Hl
                (bayes_product_pos pp labels final_round)) as Hpos.
  rewrite H in Hpos. discriminate.
Qed.

Lemma bayes_posterior_pos pp labels final_round l :
  labels <> [] -> 0 < bayes_posterior pp labels final_round l.
Proof.
  intros Hl. unfold bayes_posterior.
  apply Qlt_shift_div_l.
  - apply py_sum_map_pos; [exact Hl|]. intros x. apply bayes_product_pos.
  - rewrite Qmult_0_l. apply bayes_product_pos.
Qed.

(** The winner of [BayesianJudge.judge] has the greatest normalised
    posterior, which is the verdict's confidence. *)
Lemma bayesian_winner pp transcript labels v :
  DebateTranscript.final_round transcript <> [] ->
  labels <> [] -> NoDup labels ->
  BayesianJudge.judge pp transcript labels = Ok v ->
  let posterior := bayes_posterior pp labels (DebateTranscript.final_round transcript) in
  In (Verdict.label v) labels /\
  (forall l, In l labels -> posterior l <= posterior (Verdict.label v)) /\
  Verdict.confidence v = posterior (Verdict.label v).
Proof.
  intros Hne Hlab Hnd H posterior. unfold BayesianJudge.judge in H.
  rewrite (final_round_nonempty _ Hne) in H.
  assert (Hnorm : BayesianJudge.normalise
                    (BayesianJudge.accumulate pp labels
                       (DebateTranscript.final_round transcript)) =
                  map (fun l => (l, posterior l)) labels).
  { unfold posterior.
    destruct (DebateTranscript.final_round transcript) as [|r rs]; [congruence|].
    now apply normalise_closed_form. }
  rewrite Hnorm in H. unfold BayesianJudge.argmax in H.
  destruct labels as [|l0 ls] eqn:EL; [congruence|]. rewrite <- EL in *.
  assert (Hmap : map (fun l => (l, posterior l)) labels =
                 (l0, posterior l0) :: map (fun l => (l, posterior l)) ls).
  { rewrite EL. reflexivity. }
  rewrite Hmap in H. simpl res_bind in H.
  destruct (py_max_key_first (fun a b : Q => Qltb b a) (@snd string Q)
              Qgtb_trans Qgtb_neg_trans (l0, posterior l0)
              (map (fun l => (l, posterior l)) ls))
    as (cpre & cpost & Hsplit & Hpre & Hpost).
  destruct (py_max_key (fun a b : Q => Qltb b a) snd (l0, posterior l0)
              (map (fun l => (l, posterior l)) ls)) as [winner pw] eqn:EW.
  simpl in Hpre, Hpost. rewrite <- Hmap in Hsplit.
  apply map_eq_app in Hsplit. destruct Hsplit as (pre & rest & Hl & Hcpre & Hrest).
  destruct rest as [|w post]; [discriminate|]. simpl in Hrest.
  injection Hrest as Hw Hpw Hcpost. subst w pw.
  assert (HinW : In winner labels).
  { rewrite Hl. apply in_app_iff. right. now left. }
  assert (Hget : Dict.get_or (map (fun l => (l, posterior l)) labels) winner 1
                 = posterior winner).
  { unfold Dict.get_or. rewrite get_map_keys.
    now rewrite (proj2 (existsb_eqb_In' _ _) HinW). }
  cbn [fst] in H. rewrite <- Hmap, Hget in H. injection H as <-.
  cbn [Verdict.label Verdict.confidence].
  split; [exact HinW|]. split; [|reflexivity].
  intros l Hin. rewrite Hl in Hin. apply in_app_iff in Hin.
  destruct Hin as [Hin|[<-|Hin]].
  - apply Qlt_le_weak.
    apply (in_map (fun l => (l, posterior l))) in Hin. rewrite Hcpre in Hin.
    apply Hpre in Hin. simpl in Hin. now apply Qltb_lt in Hin.
  - apply Qle_refl.
  - apply (in_map (fun l => (l, posterior l))) in Hin. rewrite Hcpost in Hin.
    apply Hpost in Hin. simpl in Hin. now apply Qltb_ge in Hin.
Qed.



(** ** Threshold calibration ([calibration/optimizer.py]) *)

Lemma Qltb_trans (a b c : Q) :
  Qltb a b = true -> Qltb b c = true -> Qltb a c = true.
Proof. rewrite !Qltb_lt. intros H1 H2. eapply Qlt_trans; eassumption. Qed.

Lemma Qltb_neg_trans (a b c : Q) :
  Qltb a b = false -> Qltb b c = false -> Qltb a c = false.
Proof. rewrite !Qltb_ge. intros H1 H2. eapply Qle_trans; eassumption. Qed.

Section Calibration.

Context {W : World}.
Variables (n_texts : nat) (error_cost escalation_cost : Q).
Variable pairs : list (ClassificationResult.t * string).

Local Abbreviation row_of t :=
  (ThresholdCalibrator.row n_texts error_cost escalation_cost t pairs).
Local Abbreviation cost_of t := (ThresholdCalibrator.total_cost (row_of t)).
Local Abbreviation step :=
  (ThresholdCalibrator.sweep_step n_texts error_cost escalation_cost pairs).

Lemma sweep_from (cs : list Q) (rows : list ThresholdCalibrator._CalibrationRow)
    (best : Q) :
  fold_left step cs (rows, best, Some (cost_of best)) =
  ((rows ++ map (fun t => row_of t) cs)%list,
   py_max_key (fun a b : Q => Qltb a b) (fun t => cost_of t) best cs,
   Some (cost_of (py_max_key (fun a b : Q => Qltb a b) (fun t => cost_of t) best cs))).
Proof.
  revert rows best. induction cs as [|c cs IH]; intros rows best.
  - simpl. now rewrite app_nil_r.
  - cbn [fold_left map py_max_key].
    unfold ThresholdCalibrator.sweep_step at 2. cbv zeta.
    destruct (Qltb (cost_of c) (cost_of best)) eqn:E.
    + rewrite IH, <- app_assoc. reflexivity.
    + rewrite IH, <- app_assoc. reflexivity.
Qed.

Lemma sweep_all (c : Q) (cs : list Q) (first : Q) :
  fold_left step (c :: cs) ([], first, None) =
  (map (fun t => row_of t) (c :: cs),
   py_max_key (fun a b : Q => Qltb a b) (fun t => cost_of t) c cs,
   Some (cost_of (py_max_key (fun a b : Q => Qltb a b) (fun t => cost_of t) c cs))).
Proof.
  cbn [fold_left]. unfold ThresholdCalibrator.sweep_step at 2. cbv zeta.
  cbn [app]. now rewrite sweep_from.
Qed.

End Calibration.

Section CalibrateFacts.

Context {W : World}.
Variable self_jury : Jury.t.
Variables (texts labels : list string) (error_cost escalation_cost : Q).
Variable thresholds : option (list Q).

Lemma candidates_of_cons : exists c cs, candidates_of thresholds = c :: cs.
Proof.
  unfold candidates_of. destruct thresholds as [[|t ts]|]; eexists; eexists;
    try reflexivity; unfold ThresholdCalibrator.default_candidates; simpl; reflexivity.
Qed.

Lemma calibrate_Ok (s s' : St) (results : list ClassificationResult.t) :
  length texts = length labels ->
  mapM (Classifier.classify (Jury.classifier self_jury)) texts s = (Ok results, s') ->
  exists cal,
    ThresholdCalibrator.calibrate self_jury texts labels error_cost escalation_cost
      thresholds s = (Ok cal, s').
Proof.
  intros Hlen Hres. unfold ThresholdCalibrator.calibrate.
  rewrite Hlen, Nat.eqb_refl. cbn [negb]. cbv iota.
  fold (candidates_of thresholds).
  destruct candidates_of_cons as (c & cs & ->).
  unfold bind. rewrite Hres.
  destruct (fold_left _ (c :: cs) _) as [[rows best] cost].
  eexists. reflexivity.
Qed.


(** X17. [calibrate] raises [ValueError] when [texts] and [labels] differ in
    length, before the classifier is consulted; and when the classifier
    raises on some text, that exception comes out of [calibrate] and no
    threshold is set. These are its only failures. *)
Theorem calibrate_failures (s : St) :
  (length texts <> length labels ->
   ThresholdCalibrator.calibrate self_jury texts labels error_cost escalation_cost
     thresholds s = (Raise ValueError, s)) /\
  (forall e s',
      length texts = length labels ->
      mapM (Classifier.classify (Jury.classifier self_jury)) texts s = (Raise e, s') ->
      ThresholdCalibrator.calibrate self_jury texts labels error_cost escalation_cost
        thresholds s = (Raise e, s')) /\
  (forall e s',
      ThresholdCalibrator.calibrate self_jury texts labels error_cost escalation_cost
        thresholds s = (Raise e, s') ->
      (length texts <> length labels /\ e = ValueError /\ s' = s) \/
      mapM (Classifier.classify (Jury.classifier self_jury)) texts s = (Raise e, s')).
Proof.
  split; [|split].
  - intros Hlen. unfold ThresholdCalibrator.calibrate.
    apply Nat.eqb_neq in Hlen. rewrite Hlen. reflexivity.
  - intros e s' Hlen Hres. unfold ThresholdCalibrator.calibrate.
    rewrite Hlen, Nat.eqb_refl. cbn [negb]. cbv iota.
    fold (candidates_of thresholds).
    destruct candidates_of_cons as (c & cs & ->).
    unfold bind. now rewrite Hres.
  - intros e s' H.
    destruct (Nat.eq_dec (length texts) (length labels)) as [Hlen|Hlen].
    + right.
      destruct (mapM (Classifier.classify (Jury.classifier self_jury)) texts s)
        as [[results|e'] s1] eqn:Hres.
      * destruct (calibrate_Ok s s1 results Hlen Hres) as (cal & Hcal).
        rewrite Hcal in H. discriminate.
      * revert H. unfold ThresholdCalibrator.calibrate.
        rewrite Hlen, Nat.eqb_refl. cbn [negb]. cbv iota.
        fold (candidates_of thresholds).
        destruct candidates_of_cons as (c & cs & ->).
        unfold bind. rewrite Hres. intros H. injection H as <- <-. reflexivity.
    + left. split; [exact Hlen|].
      revert H. unfold ThresholdCalibrator.calibrate.
      apply Nat.eqb_neq in Hlen. rewrite Hlen. simpl. unfold lift.
      intros H. injection H as <- <-. now split.
Qed.

End CalibrateFacts.

(** The loop of one candidate, from any counters. *)
Lemma count_from_facts (t : Q) (pairs : list (ClassificationResult.t * string))
    (c0 : ThresholdCalibrator.Counts) :
  let step := fun (c : ThresholdCalibrator.Counts)
                  '((result, expected) : ClassificationResult.t * string) =>
                if Qltb (ClassificationResult.confidence result) t then
                  ThresholdCalibrator.mkCounts (ThresholdCalibrator.errors c)
                    (ThresholdCalibrator.escalations c + 1) (ThresholdCalibrator.correct c)
                else if String.eqb (ClassificationResult.label result) expected then
                  ThresholdCalibrator.mkCounts (ThresholdCalibrator.errors c)
                    (ThresholdCalibrator.escalations c) (ThresholdCalibrator.correct c + 1)
                else
                  ThresholdCalibrator.mkCounts (ThresholdCalibrator.errors c + 1)
                    (ThresholdCalibrator.escalations c) (ThresholdCalibrator.correct c) in
  let c := fold_left step pairs c0 in
  (ThresholdCalibrator.errors c0 <= ThresholdCalibrator.errors c)%Z /\
  (ThresholdCalibrator.correct c0 <= ThresholdCalibrator.correct c)%Z /\
  (ThresholdCalibrator.escalations c =
   ThresholdCalibrator.escalations c0 +
   Z.of_nat (length (filter (fun p => Qltb (ClassificationResult.confidence (fst p)) t)
                            pairs)))%Z /\
  (ThresholdCalibrator.errors c + ThresholdCalibrator.escalations c
   + ThresholdCalibrator.correct c =
   ThresholdCalibrator.errors c0 + ThresholdCalibrator.escalations c0
   + ThresholdCalibrator.correct c0 + Z.of_nat (length pairs))%Z.
Proof.
  intros step. revert c0. induction pairs as [|[result expected] pairs IH]; intros c0.
  - simpl. lia.
  - cbn [fold_left]. set (c1 := step c0 (result, expected)).
    assert (Hstep :
      (ThresholdCalibrator.errors c0 <= ThresholdCalibrator.errors c1)%Z /\
      (ThresholdCalibrator.correct c0 <= ThresholdCalibrator.correct c1)%Z /\
      (ThresholdCalibrator.escalations c1 =
       ThresholdCalibrator.escalations c0 +
       (if Qltb (ClassificationResult.confidence result) t then 1 else 0))%Z /\
      (ThresholdCalibrator.errors c1 + ThresholdCalibrator.escalations c1
       + ThresholdCalibrator.correct c1 =
       ThresholdCalibrator.errors c0 + ThresholdCalibrator.escalations c0
       + ThresholdCalibrator.correct c0 + 1)%Z).
    { unfold c1, step.
      destruct (Qltb (ClassificationResult.confidence result) t);
        [|destruct (String.eqb (ClassificationResult.label result) expected)];
        simpl; lia. }
    clearbody c1. specialize (IH c1). cbv zeta in IH.
    destruct IH as (H1 & H2 & H3 & H4). destruct Hstep as (S1 & S2 & S3 & S4).
    cbv zeta. cbn [filter fst].
    destruct (Qltb (ClassificationResult.confidence result) t);
      cbn [length]; lia.
Qed.

Lemma count_facts (t : Q) (pairs : list (ClassificationResult.t * string)) :
  let c := ThresholdCalibrator.count t pairs in
  (0 <= ThresholdCalibrator.errors c)%Z /\
  (0 <= ThresholdCalibrator.correct c)%Z /\
  (ThresholdCalibrator.escalations c =
   Z.of_nat (length (filter (fun p => Qltb (ClassificationResult.confidence (fst p)) t)
                            pairs)))%Z /\
  (ThresholdCalibrator.errors c + ThresholdCalibrator.escalations c
   + ThresholdCalibrator.correct c = Z.of_nat (length pairs))%Z.
Proof.
  pose proof (count_from_facts t pairs (ThresholdCalibrator.mkCounts 0 0 0)) as H.
  cbv zeta in H. exact H.
Qed.

Lemma escalated_monotone (t t' : Q) (pairs : list (ClassificationResult.t * string)) :
  t <= t' ->
  (length (filter (fun p => Qltb (ClassificationResult.confidence (fst p)) t) pairs) <=
   length (filter (fun p => Qltb (ClassificationResult.confidence (fst p)) t') pairs))%nat.
Proof.
  intros Hle. induction pairs as [|p pairs IH]; simpl; [lia|].
  destruct (Qltb (ClassificationResult.confidence (fst p)) t) eqn:E.
  - apply Qltb_lt in E.
    assert (E' : Qltb (ClassificationResult.confidence (fst p)) t' = true).
    { apply Qltb_lt. lra. }
    rewrite E'. simpl. lia.
  - destruct (Qltb (ClassificationResult.confidence (fst p)) t'); simpl; lia.
Qed.

Lemma inject_Z_div_bounds (a b : Z) :
  (0 <= a <= b)%Z -> (0 < b)%Z -> 0 <= inject_Z a / inject_Z b <= 1.
Proof.
  intros [Ha Hab] Hb.
  assert (Hb' : 0 < inject_Z b) by (unfold Qlt; simpl; lia).
  assert (Ha' : 0 <= inject_Z a) by (unfold Qle; simpl; lia).
  assert (Hab' : inject_Z a <= inject_Z b) by (unfold Qle; simpl; lia).
  split.
  - apply Qle_shift_div_l; [exact Hb'|]. lra.
  - apply Qle_shift_div_r; [exact Hb'|]. lra.
Qed.

Lemma inject_Z_div_le (a a' b : Z) :
  (a <= a')%Z -> (0 < b)%Z -> inject_Z a / inject_Z b <= inject_Z a' / inject_Z b.
Proof.
  intros Ha Hb.
  assert (Hb' : 0 < inject_Z b) by (unfold Qlt; simpl; lia).
  assert (Ha' : inject_Z a <= inject_Z a') by (unfold Qle; simpl; lia).
  unfold Qdiv. apply Qmult_le_compat_r; [exact Ha'|].
  apply Qlt_le_weak. now apply Qinv_lt_0_compat.
Qed.

Section CalibrateRows.

Context {W : World}.
Variable self_jury : Jury.t.
Variables (texts labels : list string) (error_cost escalation_cost : Q).
Variable thresholds : option (list Q).

Lemma calibrate_rows_inv (s s' : St) (cal : ThresholdCalibrator.Calibration) :
  ThresholdCalibrator.calibrate self_jury texts labels error_cost escalation_cost
    thresholds s = (Ok cal, s') ->
  exists pairs,
    (length pairs <= length texts)%nat /\
    ThresholdCalibrator.rows cal =
    map (fun t => ThresholdCalibrator.row (length texts) error_cost escalation_cost t pairs)
        (candidates_of thresholds).
Proof.
  unfold ThresholdCalibrator.calibrate.
  destruct (length texts =? length labels)%nat eqn:El; cbn [negb]; cbv iota;
    [|discriminate].
  fold (candidates_of thresholds).
  destruct (candidates_of_cons thresholds) as (c & cs & ->).
  intros H. apply bind_Ok in H. destruct H as (results & s1 & Hres & H).
  rewrite (sweep_all (length texts) error_cost escalation_cost
             (combine results labels) c cs c) in H.
  apply ret_Ok in H. destruct H as [<- _].
  exists (combine results labels). split; [|reflexivity].
  rewrite length_combine. apply Nat.eqb_eq in El. lia.
Qed.

(** X18. Every row of a calibration that returned has an accuracy and an
    escalation rate in [0, 1], and a total cost that is not negative when
    neither cost parameter is; and a row with a higher threshold never has a
    lower escalation rate. The rows list the candidates in order. *)
Theorem calibration_rows (s s' : St) (cal : ThresholdCalibrator.Calibration) :
  ThresholdCalibrator.calibrate self_jury texts labels error_cost escalation_cost
    thresholds s = (Ok cal, s') ->
  let rows := ThresholdCalibrator.rows cal in
  map ThresholdCalibrator.threshold rows = candidates_of thresholds /\
  (forall r, In r rows ->
     0 <= ThresholdCalibrator.accuracy r <= 1 /\
     0 <= ThresholdCalibrator.escalation_rate r <= 1 /\
     (0 <= error_cost -> 0 <= escalation_cost -> 0 <= ThresholdCalibrator.total_cost r)) /\
  (forall r r', In r rows -> In r' rows ->
     ThresholdCalibrator.threshold r <= ThresholdCalibrator.threshold r' ->
     ThresholdCalibrator.escalation_rate r <= ThresholdCalibrator.escalation_rate r').
Proof.
  intros H rows. subst rows.
  destruct (calibrate_rows_inv s s' cal H) as (pairs & Hlen & ->).
  assert (Htot : (0 < Z.max 1 (Z.of_nat (length texts)))%Z) by lia.
  split; [|split].
  - rewrite map_map. simpl. apply map_id.
  - intros r Hr. apply in_map_iff in Hr. destruct Hr as (t & <- & _).
    destruct (count_facts t pairs) as (He & Hc & Hesc & Hsum). cbv zeta in *.
    unfold ThresholdCalibrator.row.
    cbn [ThresholdCalibrator.accuracy ThresholdCalibrator.escalation_rate
         ThresholdCalibrator.total_cost].
    set (c := ThresholdCalibrator.count t pairs) in *.
    assert (Hesc0 : (0 <= ThresholdCalibrator.escalations c)%Z) by lia.
    split; [|split].
    + destruct (0 <? ThresholdCalibrator.correct c + ThresholdCalibrator.errors c)%Z eqn:E.
      * apply Z.ltb_lt in E. apply inject_Z_div_bounds; lia.
      * split; discriminate.
    + apply inject_Z_div_bounds; lia.
    + intros Hec Hsc.
      assert (0 <= inject_Z (ThresholdCalibrator.errors c)) by (unfold Qle; simpl; lia).
      assert (0 <= inject_Z (ThresholdCalibrator.escalations c))
        by (unfold Qle; simpl; lia).
      assert (0 <= inject_Z (ThresholdCalibrator.errors c) * error_cost)
        by now apply Qmult_le_0_compat.
      assert (0 <= inject_Z (ThresholdCalibrator.escalations c) * escalation_cost)
        by now apply Qmult_le_0_compat.
      lra.
  - intros r r' Hr Hr' Hle.
    apply in_map_iff in Hr, Hr'.
    destruct Hr as (t & <- & _), Hr' as (t' & <- & _).
    cbn [ThresholdCalibrator.row ThresholdCalibrator.threshold
         ThresholdCalibrator.escalation_rate] in *.
    unfold ThresholdCalibrator.row in *.
    cbn [ThresholdCalibrator.threshold ThresholdCalibrator.escalation_rate] in *.
    apply inject_Z_div_le; [|exact Htot].
    destruct (count_facts t pairs) as (_ & _ & -> & _).
    destruct (count_facts t' pairs) as (_ & _ & -> & _).
    apply Nat2Z.inj_le. now apply escalated_monotone.
Qed.

End CalibrateRows.


Lemma calibrate_failures_witness :
  scripted_calibration ["safe"] 0%nat = (Raise ValueError, 0%nat).
Proof.
  destruct (calibrate_failures (Script.jury (Scenario.primary "safe" (95 # 100)) [] None)
              ["a"; "b"] ["safe"] 10 (5 # 100) None 0%nat) as [H _].
  apply H. discriminate.
Defined.

Lemma calibration_rows_witness :
  exists cal s',
    scripted_calibration ["safe"; "unsafe"] 0%nat = (Ok cal, s') /\
    length (ThresholdCalibrator.rows cal) = 10%nat.
Proof.
  destruct (scripted_calibration ["safe"; "unsafe"] 0%nat) as [[cal|e] s'] eqn:E.
  - exists cal, s'. split; [reflexivity|].
    destruct (calibration_rows (Script.jury (Scenario.primary "safe" (95 # 100)) [] None)
                ["a"; "b"] ["safe"; "unsafe"] 10 (5 # 100) None 0%nat s' cal E)
      as (Hmap & _).
    rewrite <- (length_map ThresholdCalibrator.threshold), Hmap. reflexivity.
  - vm_compute in E. discriminate E.
Defined.


(** ** Text helpers *)

Lemma lstrip_head (s : string) :
  lstrip s = EmptyString \/
  exists c s', lstrip s = String c s' /\ is_space c = false.
Proof.
  induction s as [|c s IH]; simpl; [now left|].
  destruct (is_space c) eqn:E; [exact IH|].
  right. now exists c, s.
Qed.

Lemma lstrip_nonspace (c : ascii) (s : string) :
  is_space c = false -> lstrip (String c s) = String c s.
Proof. intros E. simpl. now rewrite E. Qed.

Lemma rstrip_nonspace (c : ascii) (s : string) :
  is_space c = false -> rstrip (String c s) = String c (rstrip s).
Proof.
  intros E. simpl. destruct (rstrip s) as [|a r]; [now rewrite E|reflexivity].
Qed.

Lemma rstrip_cons (c : ascii) (s : string) :
  rstrip (String c s) =
  match rstrip s with
  | EmptyString => if is_space c then EmptyString else String c EmptyString
  | String a r => String c (String a r)
  end.
Proof. simpl. destruct (rstrip s); reflexivity. Qed.

Lemma rstrip_idem (s : string) : rstrip (rstrip s) = rstrip s.
Proof.
  induction s as [|c s IH]; [reflexivity|].
  rewrite rstrip_cons. destruct (rstrip s) as [|a r] eqn:E.
  - destruct (is_space c) eqn:Ec; [reflexivity|].
    rewrite rstrip_cons. simpl. now rewrite Ec.
  - rewrite rstrip_cons, IH. reflexivity.
Qed.

Lemma strip_idem (s : string) : strip (strip s) = strip s.
Proof.
  unfold strip.
  destruct (lstrip_head s) as [->|(c & s' & -> & Ec)]; [reflexivity|].
  rewrite (rstrip_nonspace c s' Ec), (lstrip_nonspace c _ Ec).
  rewrite <- (rstrip_nonspace c s' Ec). apply rstrip_idem.
Qed.

Lemma rstrip_prefix (s : string) : exists u, s = rstrip s ++ u.
Proof.
  induction s as [|c s [u IH]]; simpl; [now exists EmptyString|].
  destruct (rstrip s) as [|a r].
  - destruct (is_space c).
    + now exists (String c s).
    + exists s. reflexivity.
  - exists u. simpl in IH. simpl. now rewrite <- IH.
Qed.

Lemma fence_head (s : string) :
  startswith s "```" = true <->
  exists rest, s = String "`" (String "`" (String "`" rest)).
Proof.
  unfold startswith. split.
  - destruct s as [|a [|b [|c rest]]]; cbn [String.prefix]; try discriminate;
      repeat match goal with
             | |- context [ascii_dec ?x ?y] => destruct (ascii_dec x y); try discriminate
             end.
    intros _. subst. now exists rest.
  - intros [rest ->]. destruct rest; reflexivity.
Qed.

Lemma fence_not_space : is_space "`" = false.
Proof. reflexivity. Qed.

(** A fence at the head of a text survives [rstrip], and one at the head of
    [rstrip] was at the head of the text. *)
Lemma fence_rstrip (s : string) :
  startswith (rstrip s) "```" = startswith s "```".
Proof.
  destruct (startswith s "```") eqn:E.
  - apply fence_head in E. destruct E as [rest ->].
    rewrite !(rstrip_nonspace "`" _ fence_not_space).
    apply fence_head. now eexists.
  - destruct (startswith (rstrip s) "```") eqn:E'; [|reflexivity].
    apply fence_head in E'. destruct E' as [rest Hr].
    destruct (rstrip_prefix s) as [u Hu]. rewrite Hr in Hu. simpl in Hu.
    assert (E' : startswith s "```" = true).
    { apply fence_head. now exists (rest ++ u). }
    congruence.
Qed.

Lemma lstrip_app_blank (l x : string) :
  lstrip l = EmptyString -> lstrip (l ++ x) = lstrip x.
Proof.
  induction l as [|c l IH]; simpl; [reflexivity|].
  destruct (is_space c); [exact IH|discriminate].
Qed.

Lemma lstrip_app_text (l x : string) :
  lstrip l <> EmptyString -> lstrip (l ++ x) = lstrip l ++ x.
Proof.
  induction l as [|c l IH]; simpl; [congruence|].
  destruct (is_space c); [exact IH|reflexivity].
Qed.

Lemma append_empty_r (s : string) : s ++ EmptyString = s.
Proof. induction s as [|c s IH]; simpl; [reflexivity|now rewrite IH]. Qed.

Lemma fence_app (t x : string) :
  line_end x -> startswith (t ++ x) "```" = true -> startswith t "```" = true.
Proof.
  intros Hx H. apply fence_head in H. destruct H as [rest H].
  apply fence_head.
  destruct t as [|a [|b [|c t']]]; simpl in H.
  - destruct Hx as [->|[y ->]]; discriminate.
  - injection H as -> H. destruct Hx as [->|[y ->]]; discriminate.
  - injection H as -> -> H. destruct Hx as [->|[y ->]]; discriminate.
  - injection H as -> -> -> H. now exists t'.
Qed.

Lemma concat_cons (l : string) (ls : list string) :
  exists x, String.concat newline (l :: ls) = l ++ x /\ line_end x /\
            lstrip x = lstrip (String.concat newline ls).
Proof.
  destruct ls as [|l2 ls].
  - exists EmptyString. simpl. split; [now rewrite append_empty_r|].
    split; [now left|reflexivity].
  - exists (newline ++ String.concat newline (l2 :: ls)).
    split; [reflexivity|]. split; [right; now eexists|reflexivity].
Qed.

Lemma fence_join (lines : list string) :
  (forall l, In l lines -> startswith (strip l) "```" = false) ->
  startswith (lstrip (String.concat newline lines)) "```" = false.
Proof.
  induction lines as [|l ls IH]; intros H; [reflexivity|].
  destruct (concat_cons l ls) as (x & -> & Hx & Hl).
  destruct (lstrip l) as [|c s'] eqn:El.
  - rewrite (lstrip_app_blank l x El), Hl. apply IH.
    intros l' Hl'. apply H. now right.
  - rewrite lstrip_app_text by (rewrite El; discriminate).
    destruct (startswith (lstrip l ++ x) "```") eqn:E; [|reflexivity].
    apply (fence_app _ _ Hx) in E.
    rewrite <- fence_rstrip in E. fold (strip l) in E.
    rewrite (H l) in E; [discriminate|now left].
Qed.

(** X19. The result of [strip_markdown_fences] has no blank at either end
    and never begins with a code fence; a text whose stripped form does not
    begin with a fence is only stripped. *)
Theorem strip_markdown_fences_facts (content : string) :
  strip (strip_markdown_fences content) = strip_markdown_fences content /\
  startswith (strip_markdown_fences content) "```" = false /\
  (startswith (strip content) "```" = false ->
   strip_markdown_fences content = strip content).
Proof.
  unfold strip_markdown_fences.
  destruct (startswith (strip content) "```") eqn:E.
  - split; [apply strip_idem|]. split; [|discriminate].
    unfold strip at 1. rewrite fence_rstrip. apply fence_join.
    intros l Hl. apply filter_In in Hl. destruct Hl as [_ Hl].
    now apply negb_true_iff in Hl.
  - split; [apply strip_idem|]. split; [exact E|reflexivity].
Qed.

Lemma strip_markdown_fences_facts_witness :
  strip_markdown_fences "  plain text  " = "plain text".
Proof.
  destruct (strip_markdown_fences_facts "  plain text  ") as (_ & _ & H).
  rewrite H; reflexivity.
Defined.

(** ** The completion client's temperature rule ([llm/client.py]) *)

Lemma lower_char_idem (c : ascii) : lower_char (lower_char c) = lower_char c.
Proof.
  destruct c as [[] [] [] [] [] [] [] []]; reflexivity.
Qed.

Lemma lower_idem (s : string) : lower (lower s) = lower s.
Proof.
  induction s as [|c s IH]; simpl; [reflexivity|].
  now rewrite lower_char_idem, IH.
Qed.

Lemma lower_app (s t : string) : lower (s ++ t) = lower s ++ lower t.
Proof.
  induction s as [|c s IH]; simpl; [reflexivity|]. now rewrite IH.
Qed.

Lemma prefix_app (p s t : string) :
  String.prefix p s = true -> String.prefix p (s ++ t) = true.
Proof.
  revert s. induction p as [|a p IH]; intros s H.
  - destruct (s ++ t); reflexivity.
  - destruct s as [|b s]; [discriminate|]. simpl in *.
    destruct (ascii_dec a b); [now apply IH|discriminate].
Qed.

(** X20. [_should_send_temperature] never sends an absent temperature; for
    a present one the answer does not depend on its value nor on the letter
    case of the model name, and a model name that extends one for which the
    answer is no (as ["o1-mini"] extends ["o1"]) gets the same answer. *)
Theorem should_send_temperature_facts (model : string) :
  _should_send_temperature model None = false /\
  (forall t t', _should_send_temperature model (Some t) =
                _should_send_temperature model (Some t')) /\
  (forall temperature,
      _should_send_temperature (lower model) temperature =
      _should_send_temperature model temperature) /\
  (forall temperature suffix,
      _should_send_temperature model temperature = false ->
      _should_send_temperature (model ++ suffix) temperature = false).
Proof.
  split; [reflexivity|]. split; [reflexivity|]. split.
  - intros [t|]; [|reflexivity]. unfold _should_send_temperature.
    now rewrite lower_idem.
  - intros [t|] suffix; [|reflexivity]. unfold _should_send_temperature.
    destruct (existsb (fun prefix => startswith (lower model) prefix)
                      _NO_TEMPERATURE_PREFIXES) eqn:E; [|discriminate].
    intros _. apply existsb_exists in E. destruct E as (p & Hp & Hs).
    assert (E' : existsb (fun prefix => startswith (lower (model ++ suffix)) prefix)
                         _NO_TEMPERATURE_PREFIXES = true).
    { apply existsb_exists. exists p. split; [exact Hp|].
      unfold startswith in *. rewrite lower_app. now apply prefix_app. }
    now rewrite E'.
Qed.

Lemma should_send_temperature_facts_witness :
  _should_send_temperature "O1-Mini" (Some (7 # 10)) = false /\
  _should_send_temperature "gpt-4o" (Some (7 # 10)) = true.
Proof.
  split; [|reflexivity].
  destruct (should_send_temperature_facts "O1") as (_ & _ & _ & H).
  apply (H (Some (7 # 10)) "-Mini"). reflexivity.
Defined.

(** ** Classifying a list of texts ([classifiers/base.py]) *)

Lemma mapM_app_Ok {S A B : Type} (f : A -> M S B) (xs ys : list A)
    (s s1 : S) (rs : list B) :
  mapM f xs s = (Ok rs, s1) ->
  mapM f (xs ++ ys) s =
  match mapM f ys s1 with
  | (Ok rs', s2) => (Ok (rs ++ rs')%list, s2)
  | (Raise e, s2) => (Raise e, s2)
  end.
Proof.
  revert s rs. induction xs as [|x xs IH]; intros s rs H; simpl in H.
  - apply ret_Ok in H. destruct H as [<- <-]. simpl.
    destruct (mapM f ys s) as [[rs'|e] s2]; reflexivity.
  - apply bind_Ok in H. destruct H as (y & s0 & Hy & H).
    apply bind_Ok in H. destruct H as (ys' & s0' & Hys & H).
    apply ret_Ok in H. destruct H as [<- <-].
    simpl. unfold bind at 1. rewrite Hy. unfold bind at 1.
    rewrite (IH _ _ Hys).
    destruct (mapM f ys s0') as [[rs'|e] s2]; reflexivity.
Qed.

Section ClassifierBatch.

Context {W : World}.
Variable self : Classifier.t.

(** X21. [Classifier.classify_batch] asks the texts in order. When every
    call returns, it returns one result per text, in text order. When the
    call for some text raises, after the calls for the texts before it have
    returned, that exception is the outcome, the outside world is left as the
    failing call left it, and no later text is asked. *)
Theorem classifier_batch_in_order :
  (forall texts s results s',
      Classifier_classify_batch self texts s = (Ok results, s') ->
      length results = length texts /\
      Forall2 (fun text result =>
                 exists s1 s2, Classifier.classify self text s1 = (Ok result, s2))
              texts results) /\
  (forall before text after s results s1 e s2,
      Classifier_classify_batch self before s = (Ok results, s1) ->
      Classifier.classify self text s1 = (Raise e, s2) ->
      Classifier_classify_batch self (before ++ text :: after) s = (Raise e, s2)).
Proof.
  unfold Classifier_classify_batch. split.
  - intros texts s results s' H.
    assert (Hall : Forall2 (fun text result =>
                              exists s1 s2,
                                Classifier.classify self text s1 = (Ok result, s2))
                           texts results).
    { revert H. apply mapM_Forall2. intros x s0 y s1 Hx. now exists s0, s1. }
    split; [symmetry; now apply Forall2_length in Hall|exact Hall].
  - intros before text after s results s1 e s2 Hb Hf.
    rewrite (mapM_app_Ok _ _ _ _ _ _ Hb). simpl. unfold bind at 1. now rewrite Hf.
Qed.

End ClassifierBatch.

Lemma classifier_batch_in_order_witness :
  exists results s',
    Classifier_classify_batch (Script.classifier (Scenario.primary "safe" (95 # 100)))
      ["a"; "b"; "c"] 0%nat = (Ok results, s') /\
    length results = 3%nat.
Proof.
  destruct (Classifier_classify_batch
              (Script.classifier (Scenario.primary "safe" (95 # 100)))
              ["a"; "b"; "c"] 0%nat) as [[results|e] s'] eqn:E.
  - exists results, s'. split; [reflexivity|].
    destruct (classifier_batch_in_order
                (Script.classifier (Scenario.primary "safe" (95 # 100)))) as [H _].
    now destruct (H _ _ _ _ E).
  - vm_compute in E. discriminate E.
Defined.

(** ** Label lists on the command line ([cli/main.py]) *)

Lemma split_on_chars (sep : ascii) (s piece : string) (c : ascii) :
  In piece (split_on sep s) -> In c (list_ascii_of_string piece) ->
  In c (list_ascii_of_string s) /\ c <> sep.
Proof.
  revert piece. induction s as [|a s IH]; intros piece Hp Hc; simpl in Hp.
  - destruct Hp as [<-|[]]. destruct Hc.
  - destruct (Ascii.eqb a sep) eqn:Ea.
    + destruct Hp as [<-|Hp]; [destruct Hc|].
      destruct (IH piece Hp Hc) as [H1 H2]. split; [now right|exact H2].
    + apply Ascii.eqb_neq in Ea.
      destruct (split_on sep s) as [|p ps] eqn:Es.
      * destruct Hp as [<-|[]]. simpl in Hc. destruct Hc as [<-|[]].
        split; [now left|exact Ea].
      * destruct Hp as [<-|Hp].
        -- simpl in Hc. destruct Hc as [<-|Hc]; [split; [now left|exact Ea]|].
           destruct (IH p (or_introl eq_refl) Hc) as [H1 H2]. split; [now right|exact H2].
        -- destruct (IH piece (or_intror Hp) Hc) as [H1 H2]. split; [now right|exact H2].
Qed.

Lemma lstrip_chars (s : string) (c : ascii) :
  In c (list_ascii_of_string (lstrip s)) -> In c (list_ascii_of_string s).
Proof.
  induction s as [|a s IH]; simpl; [tauto|].
  destruct (is_space a); [intros H; right; now apply IH|tauto].
Qed.

Lemma chars_app (s t : string) :
  list_ascii_of_string (s ++ t) =
  (list_ascii_of_string s ++ list_ascii_of_string t)%list.
Proof. induction s as [|a s IH]; simpl; [reflexivity|now rewrite IH]. Qed.

Lemma rstrip_chars (s : string) (c : ascii) :
  In c (list_ascii_of_string (rstrip s)) -> In c (list_ascii_of_string s).
Proof.
  intros H. destruct (rstrip_prefix s) as [u Hu]. rewrite Hu, chars_app.
  apply in_app_iff. now left.
Qed.

Lemma strip_chars (s : string) (c : ascii) :
  In c (list_ascii_of_string (strip s)) -> In c (list_ascii_of_string s).
Proof. intros H. apply lstrip_chars. now apply rstrip_chars. Qed.

Lemma lstrip_blank (s : string) :
  (forall c, In c (list_ascii_of_string s) -> is_space c = true) ->
  lstrip s = EmptyString.
Proof.
  induction s as [|a s IH]; intros H; simpl; [reflexivity|].
  rewrite (H a) by now left. apply IH. intros c Hc. apply H. now right.
Qed.

(** X22. [_parse_labels] on a non-empty [raw] returns the pieces between
    commas, stripped, leaving out the blank ones: every returned label is
    non-empty, has no blank at either end and contains no comma. The
    fallback is used only when [raw] is absent or empty, so a [raw] made of
    commas and blanks alone gives the empty list. *)
Theorem parse_labels_facts (fallback : option (list string)) :
  _parse_labels None fallback = _parse_labels (Some EmptyString) fallback /\
  _parse_labels None fallback <> [] /\
  (forall raw label,
      raw <> EmptyString ->
      In label (_parse_labels (Some raw) fallback) ->
      label <> EmptyString /\ strip label = label /\
      ~ In ","%char (list_ascii_of_string label)) /\
  (forall raw,
      raw <> EmptyString ->
      (forall c, In c (list_ascii_of_string raw) -> c = ","%char \/ is_space c = true) ->
      _parse_labels (Some raw) fallback = []).
Proof.
  split; [reflexivity|]. split; [|split].
  - simpl. destruct fallback as [[|l ls]|]; discriminate.
  - intros raw label Hraw Hin. destruct raw as [|c s]; [congruence|].
    unfold _parse_labels in Hin. apply in_map_iff in Hin.
    destruct Hin as (piece & <- & Hp). apply filter_In in Hp. destruct Hp as [Hp Hne].
    split; [|split].
    + intros E. rewrite E in Hne. discriminate.
    + apply strip_idem.
    + intros Hc. apply strip_chars in Hc.
      destruct (split_on_chars _ _ _ _ Hp Hc) as [_ Hn]. now apply Hn.
  - intros raw Hraw Hall. destruct raw as [|c s]; [congruence|].
    unfold _parse_labels.
    assert (E : filter (fun label => nonempty (strip label))
                       (split_on "," (String c s)) = []).
    { apply filter_none. apply not_true_is_false. intros H.
      apply existsb_exists in H. destruct H as (piece & Hp & Hne).
      assert (Hb : strip piece = EmptyString).
      { unfold strip. rewrite lstrip_blank; [reflexivity|].
        intros a Ha. destruct (split_on_chars _ _ _ _ Hp Ha) as [Hin Hn].
        destruct (Hall a Hin) as [->|Hs]; [congruence|exact Hs]. }
      rewrite Hb in Hne. discriminate. }
    now rewrite E.
Qed.

Lemma parse_labels_facts_witness :
  _parse_labels (Some " spam , ham,, ") None = ["spam"; "ham"] /\
  _parse_labels (Some ", ,") (Some ["a"]) = [].
Proof.
  split; [reflexivity|].
  destruct (parse_labels_facts (Some ["a"])) as (_ & _ & _ & H).
  apply H; [discriminate|].
  intros c Hc. simpl in Hc.
  destruct Hc as [<-|[<-|[<-|[]]]]; [now left|now right|now left].
Defined.

(** ** The LLM judge ([judges/llm_judge.py]) *)

Section LLMJudgeFacts.

Context {RT : Runtime} {W : World}.

Variable self : LLMJudge.t.

(** X23. Once the completion service has replied, [LLMJudge.judge] depends
    on the reply alone. A reply that does not decode to a JSON object gives
    the primary label and confidence under the strategy name
    [llm_judge_fallback_invalid_json]. A reply that does decode makes the
    judge raise exactly when [float] rejects its [confidence] entry
    (the primary confidence standing in for a missing one); otherwise the
    verdict is named [llm_judge] and its confidence lies in [0, 1]. Every
    returned verdict is marked as escalated, carries the transcript with its
    primary result and duration, and costs the transcript's cost plus the
    cost of this call, an absent cost counting as zero. The state is the one
    the service left. *)
Theorem llm_judge_outcome (transcript : DebateTranscript.t) (labels : list string)
    (s s' : St) (payload : Payload.t) :
  LLMJudge.complete (LLMJudge.llm_client self) (LLMJudge.model self)
    (LLMJudge.system_prompt self) transcript labels
    (Some (LLMJudge.temperature self)) s = (Ok payload, s') ->
  let primary := DebateTranscript.primary_result transcript in
  let reply := safe_json_parse (strip_markdown_fences (Payload.content payload)) in
  let outcome := LLMJudge.judge self transcript labels s in
  snd outcome = s' /\
  (reply = None ->
   exists verdict,
     outcome = (Ok verdict, s') /\
     Verdict.label verdict = ClassificationResult.label primary /\
     Verdict.confidence verdict = ClassificationResult.confidence primary /\
     Verdict.judge_strategy verdict = "llm_judge_fallback_invalid_json") /\
  (forall data,
      reply = Some data ->
      match py_float (Dict.get_or data "confidence"
                        (JNum (ClassificationResult.confidence primary))) with
      | Raise e => outcome = (Raise e, s')
      | Ok x =>
          exists verdict,
            outcome = (Ok verdict, s') /\
            Verdict.label verdict =
              py_str (Dict.get_or data "label"
                        (JStr (ClassificationResult.label primary))) /\
            Verdict.confidence verdict = clamp x /\
            0 <= Verdict.confidence verdict <= 1 /\
            Verdict.judge_strategy verdict = "llm_judge"
      end) /\
  (forall verdict,
      fst outcome = Ok verdict ->
      Verdict.was_escalated verdict = true /\
      Verdict.primary_result verdict = primary /\
      Verdict.debate_transcript verdict = Some transcript /\
      Verdict.total_duration_ms verdict = DebateTranscript.duration_ms transcript /\
      Verdict.total_cost_usd verdict =
        Some (opt_float_or (DebateTranscript.total_cost_usd transcript) 0
              + opt_float_or (Payload.cost_usd payload) 0)).
Proof.
  intros Hc primary reply outcome.
  assert (E : outcome =
    match reply with
    | None =>
        (Ok {| Verdict.label := ClassificationResult.label primary;
               Verdict.confidence := ClassificationResult.confidence primary;
               Verdict.reasoning :=
                 "LLM judge response was not valid JSON. Falling back to primary result.";
               Verdict.was_escalated := true;
               Verdict.primary_result := primary;
               Verdict.debate_transcript := Some transcript;
               Verdict.judge_strategy := "llm_judge_fallback_invalid_json";
               Verdict.total_duration_ms := DebateTranscript.duration_ms transcript;
               Verdict.total_cost_usd :=
                 Some (opt_float_or (DebateTranscript.total_cost_usd transcript) 0
                       + opt_float_or (Payload.cost_usd payload) 0) |}, s')
    | Some data =>
        match py_float (Dict.get_or data "confidence"
                          (JNum (ClassificationResult.confidence primary))) with
        | Raise e => (Raise e, s')
        | Ok x =>
            (Ok {| Verdict.label :=
                     py_str (Dict.get_or data "label"
                               (JStr (ClassificationResult.label primary)));
                   Verdict.confidence := clamp x;
                   Verdict.reasoning :=
                     py_str (Dict.get_or data "reasoning" (JStr "LLM judge response."));
                   Verdict.was_escalated := true;
                   Verdict.primary_result := primary;
                   Verdict.debate_transcript := Some transcript;
                   Verdict.judge_strategy := "llm_judge";
                   Verdict.total_duration_ms := DebateTranscript.duration_ms transcript;
                   Verdict.total_cost_usd :=
                     Some (opt_float_or (DebateTranscript.total_cost_usd transcript) 0
                           + opt_float_or (Payload.cost_usd payload) 0) |}, s')
        end
    end).
  { unfold outcome, LLMJudge.judge, bind. rewrite Hc. fold primary. fold reply.
    destruct reply as [data|]; [|reflexivity].
    unfold lift, clamp_confidence.
    destruct (py_float _) as [x|e]; reflexivity. }
  split; [|split; [|split]].
  - rewrite E. destruct reply as [data|]; [|reflexivity].
    destruct (py_float _); reflexivity.
  - intros Hr. rewrite E, Hr. eexists. split; [reflexivity|]. simpl. auto.
  - intros data Hr. rewrite E, Hr.
    destruct (py_float _) as [x|e]; [|reflexivity].
    eexists. split; [reflexivity|]. simpl.
    split; [reflexivity|]. split; [reflexivity|]. split; [apply clamp_bounds|reflexivity].
  - intros verdict Hv. rewrite E in Hv. destruct reply as [data|].
    + destruct (py_float _) as [x|e]; simpl in Hv; [|discriminate].
      injection Hv as <-. simpl. auto.
    + simpl in Hv. injection Hv as <-. simpl. auto.
Qed.

End LLMJudgeFacts.

Lemma llm_judge_outcome_witness :
  @LLMJudge.judge RefRuntime.runtime Script.world null_judge
    (Scenario.transcript []) ["safe"; "unsafe"] 0%nat = (Raise TypeError, 1%nat).
Proof.
  destruct (@llm_judge_outcome RefRuntime.runtime Script.world null_judge
              (Scenario.transcript []) ["safe"; "unsafe"] 0%nat 1%nat
              (Payload.mk null_confidence_reply 10 (Some (1 # 100))) eq_refl)
    as (_ & _ & H & _).
  specialize (H [("label", JStr "unsafe"); ("confidence", JNull)]).
  apply H. vm_compute. reflexivity.
Defined.

(** ** A batch run one text after the other *)

Section BatchInTurn.

Context {W : World}.
Variable self : Jury.t.

Lemma step_started (task : Jury.Task) (s : Jury.State) (text : string) :
  fst (Jury.step self task s) = Jury.Start text ->
  exists text', task = Jury.Start text'.
Proof.
  destruct task as [t|t start primary|t start primary|start primary transcript|v|e];
    [intros _; now eexists| | | | |]; intros H; exfalso; revert H.
  - unfold Jury.step.
    destruct (negb _);
      match goal with
      | |- context [Jury.settle ?k ?r] => destruct r as [[?|?] ?]
      end; discriminate.
  - unfold Jury.step.
    match goal with
    | |- context [Jury.settle ?k ?r] => destruct r as [[task'|?] ?] eqn:E
    end; [|discriminate].
    simpl. intros ->. revert E. unfold_monad. simpl.
    destruct (Debater.debate _ _ _ _ _ _) as [[transcript|?] ?]; [|discriminate].
    destruct (Jury.cost_guard_trips self transcript); discriminate.
  - unfold Jury.step.
    match goal with
    | |- context [Jury.settle ?k ?r] => destruct r as [[?|?] ?]
    end; discriminate.
  - discriminate.
  - discriminate.
Qed.

Lemma step_Start_started (text : string) (s : Jury.State) (text' : string) :
  fst (Jury.step self (Jury.Start text) s) <> Jury.Start text'.
Proof.
  destruct (step_Start self text s) as [(start & primary & Ht & _)|(e & Ht & _)];
    rewrite Ht; discriminate.
Qed.

Lemma schedule_step_started (concurrency : Z) (i : nat) (task : Jury.Task)
    (tasks : list Jury.Task) (s : Jury.State) :
  nth_error tasks i = Some task ->
  (forall text, task <> Jury.Start text) ->
  Jury.schedule_step self concurrency i (tasks, s) =
  (Jury.replace_nth i (fst (Jury.step self task s)) tasks,
   snd (Jury.step self task s)).
Proof.
  intros En Hs. unfold Jury.schedule_step. rewrite En.
  destruct task; try (now contradiction (Hs text));
    unfold Jury.resume; now destruct (Jury.step self _ s).
Qed.

Lemma nth_error_middle {A : Type} (xs ys : list A) (x : A) :
  nth_error (xs ++ x :: ys) (length xs) = Some x.
Proof. induction xs as [|a xs IH]; simpl; auto. Qed.

Lemma replace_nth_middle {A : Type} (xs ys : list A) (x y : A) :
  Jury.replace_nth (length xs) y (xs ++ x :: ys) = (xs ++ y :: ys)%list.
Proof. induction xs as [|a xs IH]; simpl; [reflexivity|now rewrite IH]. Qed.

Lemma in_flight_app (xs ys : list Jury.Task) :
  Jury.in_flight (xs ++ ys) = (Jury.in_flight xs + Jury.in_flight ys)%nat.
Proof. unfold Jury.in_flight. now rewrite filter_app, length_app. Qed.

Lemma in_flight_over (tasks : list Jury.Task) :
  Forall (fun task => Jury.result_of task <> None) tasks ->
  Jury.in_flight tasks = 0%nat.
Proof.
  unfold Jury.in_flight. induction 1 as [|task tasks Ht _ IH]; [reflexivity|].
  simpl. destruct task; simpl in *; try congruence; exact IH.
Qed.

(** Three turns of the scheduler take a task that has not started to its
    end. *)
Lemma three_turns (concurrency : Z) (done rest : list Jury.Task) (text : string)
    (s : Jury.State) :
  Forall (fun task => Jury.result_of task <> None) done ->
  (forall task, In task rest -> exists t, task = Jury.Start t) ->
  let i := length done in
  fold_left (fun b i => Jury.schedule_step self concurrency i b) [i; i; i]
            ((done ++ Jury.Start text :: rest)%list, s) =
  ((done ++ fst (Jury.run self 4 (Jury.Start text) s) :: rest)%list,
   snd (Jury.run self 4 (Jury.Start text) s)).
Proof.
  intros Hdone Hrest i. subst i. cbn [fold_left].
  assert (Hfree : (Z.of_nat (Jury.in_flight (done ++ Jury.Start text :: rest))
                   <? Z.max 1 concurrency)%Z = true).
  { apply Z.ltb_lt. rewrite in_flight_app, (in_flight_over done Hdone).
    assert (Jury.in_flight (Jury.Start text :: rest) = 0%nat).
    { unfold Jury.in_flight. simpl.
      induction rest as [|task rest IH]; [reflexivity|].
      destruct (Hrest task (or_introl eq_refl)) as [t ->]. simpl.
      apply IH. intros task' Hin. apply Hrest. now right. }
    lia. }
  pose proof (step_Start_started text s) as Hn1.
  unfold Jury.schedule_step at 3. rewrite nth_error_middle, Hfree.
  unfold Jury.resume, Jury.run.
  destruct (Jury.step self (Jury.Start text) s) as [t1 s1]. simpl in Hn1.
  pose proof (fun t (H : fst (Jury.step self t1 s1) = Jury.Start t) =>
                match step_started t1 s1 t H with
                | ex_intro _ t' E => Hn1 t' E
                end) as Hn2.
  destruct (Jury.step self t1 s1) as [t2 s2]. simpl in Hn2.
  rewrite replace_nth_middle.
  rewrite (schedule_step_started concurrency (length done) t2);
    [|apply nth_error_middle|exact Hn2].
  pose proof (fun t (H : fst (Jury.step self t2 s2) = Jury.Start t) =>
                match step_started t2 s2 t H with
                | ex_intro _ t' E => Hn2 t' E
                end) as Hn3.
  destruct (Jury.step self t2 s2) as [t3 s3]. simpl in Hn3. cbn [fst snd].
  rewrite replace_nth_middle.
  rewrite (schedule_step_started concurrency (length done) t3);
    [|apply nth_error_middle|exact Hn3].
  destruct (Jury.step self t3 s3) as [t4 s4]. cbn [fst snd].
  now rewrite replace_nth_middle.
Qed.

Lemma batch_in_turn (concurrency : Z) (texts : list string) :
  forall (done : list Jury.Task) (s : Jury.State),
    Forall (fun task => Jury.result_of task <> None) done ->
    let b := fold_left (fun b i => Jury.schedule_step self concurrency i b)
               (flat_map (fun i => [i; i; i]) (seq (length done) (length texts)))
               ((done ++ map Jury.Start texts)%list, s) in
    map Jury.result_of (fst b) =
      (map Jury.result_of done ++ map Some (fst (classify_in_turn self texts s)))%list /\
    snd b = snd (classify_in_turn self texts s).
Proof.
  induction texts as [|text texts IH]; intros done s Hdone.
  - simpl. now rewrite !app_nil_r.
  - cbn [length seq flat_map map]. rewrite fold_left_app.
    rewrite (three_turns concurrency done (map Jury.Start texts) text s Hdone).
    2:{ intros task Hin. apply in_map_iff in Hin. destruct Hin as (t & <- & _).
        now eexists. }
    destruct (run_classify self text s) as (r & Hr & Hc).
    cbn [classify_in_turn]. rewrite Hc.
    destruct (Jury.run self 4 (Jury.Start text) s) as [t4 s4]. cbn [fst snd] in *.
    specialize (IH (done ++ [t4])%list s4).
    rewrite length_app, Nat.add_1_r, <- app_assoc in IH. cbn [app] in IH.
    destruct IH as [H1 H2].
    { apply Forall_app. split; [exact Hdone|]. constructor; [congruence|constructor]. }
    destruct (classify_in_turn self texts s4) as [rs s'] eqn:E. cbn [fst snd] in *.
    split; [|exact H2].
    rewrite H1, map_app, <- app_assoc. simpl. now rewrite Hr.
Qed.

(** X24. Run under the schedule that takes the texts one after the other,
    [classify_batch] brings every task to its end, and does what calls of
    [classify] on the texts in turn do: task [i] holds what the call on text
    [i] returned or raised, and the jury's counters, its calls and the
    outside world end in the same state. The value of [concurrency] plays
    no part. *)
Theorem classify_batch_in_turn (texts : list string) (concurrency : Z)
    (s : Jury.State) :
  let b := Jury.classify_batch self texts concurrency
             (Jury.one_by_one (length texts)) s in
  map Jury.result_of (fst b) = map Some (fst (classify_in_turn self texts s)) /\
  snd b = snd (classify_in_turn self texts s).
Proof.
  exact (batch_in_turn concurrency texts [] s (Forall_nil _)).
Qed.

End BatchInTurn.

(** ** The LLM classifier ([classifiers/llm_classifier.py]) *)

Section LLMClassifierFacts.

Context {RT : Runtime} {W : World}.

Variable self : LLMClassifier.t.


End LLMClassifierFacts.


(** ** The side a persona argues in adversarial mode *)

Lemma persona_eqb_refl (p : Persona.t) : persona_eqb p p = true.
Proof.
  unfold persona_eqb. rewrite !String.eqb_refl. simpl.
  assert (H : Qeq_bool (Persona.temperature p) (Persona.temperature p) = true).
  { apply Qeq_bool_iff. reflexivity. }
  rewrite H. simpl. destruct (Persona.known_bias p); [apply String.eqb_refl|reflexivity].
Qed.

Lemma index_first (personas : list Persona.t) (i : nat) (p : Persona.t) :
  nth_error personas i = Some p ->
  exists j q,
    index persona_eqb personas p = Ok j /\ (j <= i)%nat /\
    nth_error personas j = Some q /\ persona_eqb q p = true /\
    (forall k r, (k < j)%nat -> nth_error personas k = Some r -> persona_eqb r p = false).
Proof.
  revert i. induction personas as [|y ys IH]; intros i Hi; [now destruct i|].
  simpl. destruct (persona_eqb y p) eqn:E.
  - exists 0%nat, y. repeat split; auto; [lia|]. intros k r Hk. lia.
  - destruct i as [|i]; simpl in Hi.
    + injection Hi as ->. now rewrite persona_eqb_refl in E.
    + destruct (IH i Hi) as (j & q & Hj & Hle & Hq & He & Hfirst).
      exists (S j), q. rewrite Hj. simpl. repeat split; auto; [lia|].
      intros [|k] r Hk Hr; simpl in Hr; [now injection Hr as <-|].
      apply (Hfirst k r); [lia|exact Hr].
Qed.

(** X26. In [ADVERSARIAL] mode the side of a persona of the panel is found
    without error, and it is the side of the first persona of the panel that
    equals it field by field: Prosecution when that position is even,
    Defense when it is odd. A persona with no equal before it therefore
    argues by its own position, and a second copy of a persona argues the
    side of the first. *)
Theorem adversarial_stance (personas : list Persona.t) (i : nat) (p : Persona.t) :
  nth_error personas i = Some p ->
  exists j q,
    (j <= i)%nat /\
    nth_error personas j = Some q /\ persona_eqb q p = true /\
    (forall k r, (k < j)%nat -> nth_error personas k = Some r -> persona_eqb r p = false) /\
    stance personas p = Ok (if Nat.even j then "Prosecution" else "Defense") /\
    stance personas q = stance personas p /\
    ((forall k r, (k < i)%nat -> nth_error personas k = Some r -> persona_eqb r p = false) ->
     j = i).
Proof.
  intros Hi. destruct (index_first personas i p Hi) as (j & q & Hj & Hle & Hq & He & Hfirst).
  exists j, q. split; [exact Hle|]. split; [exact Hq|]. split; [exact He|].
  split; [exact Hfirst|].
  assert (Hs : stance personas p = Ok (if Nat.even j then "Prosecution" else "Defense")).
  { unfold stance. rewrite Hj. simpl. f_equal.
    destruct (Nat.even j) eqn:Ev.
    - apply Nat.even_spec in Ev. destruct Ev as [m ->].
      replace (Z.of_nat (2 * m) mod 2)%Z with 0%Z; [reflexivity|].
      rewrite Nat2Z.inj_mul, Z.mul_comm. symmetry. apply Z.mod_mul. lia.
    - assert (Ho : Nat.odd j = true) by (rewrite <- Nat.negb_even, Ev; reflexivity).
      apply Nat.odd_spec in Ho. destruct Ho as [m ->].
      replace (Z.of_nat (2 * m + 1) mod 2)%Z with 1%Z; [reflexivity|].
      rewrite Nat2Z.inj_add, Nat2Z.inj_mul, Z.add_comm, Z.mul_comm, Z.mod_add by lia.
      reflexivity. }
  split; [exact Hs|]. split.
  - destruct (index_first personas j q Hq) as (j' & q' & Hj' & Hle' & Hq' & He' & Hfirst').
    assert (j' = j).
    { destruct (Nat.eq_dec j' j) as [|Hne]; [assumption|].
      assert (Hlt : (j' < j)%nat) by lia.
      (* the persona at [j'] equals [q], and [q] equals [p] *)
      exfalso. specialize (Hfirst j' q' Hlt Hq').
      revert He He' Hfirst. unfold persona_eqb.
      rewrite !andb_true_iff, !String.eqb_eq, !Qeq_bool_iff.
      intros (((((H1 & H2) & H3) & H4) & H5) & H6) (((((G1 & G2) & G3) & G4) & G5) & G6).
      rewrite G1, H1, G2, H2, G3, H3, G4, H4, !String.eqb_refl. simpl.
      assert (Ht : Qeq_bool (Persona.temperature q') (Persona.temperature p) = true).
      { apply Qeq_bool_iff. now rewrite G5. }
      rewrite Ht. simpl.
      destruct (Persona.known_bias q'), (Persona.known_bias q), (Persona.known_bias p);
        try discriminate; try (intros; discriminate).
      apply String.eqb_eq in H6, G6. subst. now rewrite String.eqb_refl. }
    subst j'. rewrite Hs. unfold stance. rewrite Hj'. simpl.
    unfold stance in Hs. rewrite Hj in Hs. simpl in Hs. exact Hs.
  - intros Hnone. destruct (Nat.eq_dec j i) as [|Hne]; [assumption|].
    assert (Hlt : (j < i)%nat) by lia.
    rewrite (Hnone j q Hlt Hq) in He. discriminate He.
Qed.

Lemma adversarial_stance_witness :
  stance [Script.persona "p1"; Script.persona "p2"; Script.persona "p1"]
    (Script.persona "p1") = Ok "Prosecution" /\
  stance [Script.persona "p1"; Script.persona "p2"; Script.persona "p1"]
    (Script.persona "p2") = Ok "Defense".
Proof.
  split.
  - destruct (adversarial_stance
                [Script.persona "p1"; Script.persona "p2"; Script.persona "p1"]
                2 (Script.persona "p1") eq_refl)
      as (j & q & Hle & _ & _ & Hfirst & Hs & _).
    destruct j as [|j]; [exact Hs|].
    specialize (Hfirst 0%nat (Script.persona "p1") (Nat.lt_0_succ j) eq_refl).
    vm_compute in Hfirst. discriminate Hfirst.
  - reflexivity.
Defined.
